(** * pbrt scene-description state machine (src/pbrt/genscene.cpp)

  A shallow embedding of [GeneralScene], the interpreter that consumes the
  stream of scene-building directives, and of [TransformCache], the
  transform interner it owns.

  The geometry library (transform.h), the colour-space table, the parameter
  dictionary and the class declarations of genscene.h are not part of the
  verified sources; what the interpreter needs from them is collected in the
  interface [pbrt.PbrtLib] and every definition is stated over an arbitrary
  implementation of it.  A symbolic implementation, [Sym.lib], runs the
  interpreter on concrete directive streams.

  Conventions: a [std::vector] is a list in storage order ([push_back]
  appends at the end, [back] is the last element); a [std::map] keyed by
  strings is a [gmap string]; [int] values are [Z] with the conversion from
  [size_t] written out ([to_int]); [ErrorExit] ends the run ([Exit]),
  [Error] and [Warning] add a diagnostic to the outcome and let the run go
  on. *)

From stdpp Require Import base gmap strings list.
From Stdlib Require Import ZArith Lia.

(** ** Interface of the code outside genscene.cpp *)

Module pbrt.

(** [TransformSet]: the array [Transform t[MaxTransforms]], one slot per
    time sample. *)
Record TransformSet (T : Type) := MkTransformSet { ts_start : T; ts_end : T }.
Arguments MkTransformSet {T} _ _.
Arguments ts_start {T} _.
Arguments ts_end {T} _.

Class PbrtLib := {
  (* pbrt's Float, and the literals the sources write *)
  Float : Type;
  f_lit : Z -> Float;
  (* class Transform, with the operations genscene.cpp calls on it *)
  Transform : Type;
  t_identity : Transform;                          (* pbrt::Transform() *)
  t_mul : Transform -> Transform -> Transform;     (* operator* *)
  t_inverse : Transform -> Transform;              (* Inverse(t) *)
  t_transpose : Transform -> Transform;            (* Transpose(t) *)
  t_of_matrix : list Float -> Transform;           (* Transform(SquareMatrix<4>(MakeSpan(tr, 16))) *)
  t_translate : Float -> Float -> Float -> Transform;       (* Translate(Vector3f(dx, dy, dz)) *)
  t_rotate : Float -> Float -> Float -> Float -> Transform; (* Rotate(angle, Vector3f(dx, dy, dz)) *)
  t_scale : Float -> Float -> Float -> Transform;           (* Scale(sx, sy, sz) *)
  t_lookat : list Float -> Transform;              (* LookAt(eye, look, up), nine coordinates *)
  t_camera_offset : Transform -> Transform;        (* Translate(-Vector3f(t(Point3f(0, 0, 0)))) *)
  t_eqb : Transform -> Transform -> bool;          (* Transform::operator== *)
  t_hash : Transform -> N;                         (* Transform::Hash() *)
  ts_Inverse : TransformSet Transform -> TransformSet Transform; (* Inverse(TransformSet) *)
  ts_IsAnimated : TransformSet Transform -> bool;  (* TransformSet::IsAnimated() *)
  (* std::unordered_set: number of buckets of a table holding n elements *)
  bucket_count : nat -> positive;
  (* members of GeneralScene defined in genscene.h, as functions of
     curTransform and cameraFromWorldT *)
  GetCTM : TransformSet Transform -> TransformSet Transform -> nat -> Transform;
  CTMIsAnimated : TransformSet Transform -> TransformSet Transform -> bool;
  (* const RGBColorSpace *: RGBColorSpace::sRGB and RGBColorSpace::GetNamed *)
  RGBColorSpace : Type;
  cs_sRGB : RGBColorSpace;
  cs_GetNamed : string -> option RGBColorSpace;
  (* util/args.h and the C library *)
  normalizeArg : string -> string;
  atoi : string -> Z;
  (* FileLoc, and its default-constructed value *)
  FileLoc : Type;
  loc_default : FileLoc
}.

(** Modelled from the spec: the constants of genscene.h.  "TransformSet: a
    fixed-size array of two Transforms, indexed by time sample {start, end}"
    and "ActiveTransformBits: a bitmask over the two time indices ...;
    default is both". *)
Definition MaxTransforms : nat := 2.
Definition StartTransformBits : Z := Z.shiftl 1 0.
Definition EndTransformBits : Z := Z.shiftl 1 1.
Definition AllTransformsBits : Z := (Z.shiftl 1 (Z.of_nat MaxTransforms) - 1)%Z.

(** [ts[i]] and [ts[i] = v] for [i < MaxTransforms]. *)
Definition ts_get {T} (i : nat) (ts : TransformSet T) : T :=
  match i with O => ts_start ts | _ => ts_end ts end.

Definition ts_set {T} (i : nat) (v : T) (ts : TransformSet T) : TransformSet T :=
  match i with
  | O => MkTransformSet v (ts_end ts)
  | 1 => MkTransformSet (ts_start ts) v
  | _ => ts
  end.

(** Conversion of a [size_t] value to [int]. *)
Definition to_int (z : Z) : Z := ((z + 2 ^ 31) mod 2 ^ 32 - 2 ^ 31)%Z.

End pbrt.

Import pbrt.

(** ** TransformCache *)

Module TransformCache.
Section Model.
Context `{L : PbrtLib}.

(** The cache owns every [Transform] it allocates; a [const Transform *]
    handed out by [Lookup] is the position of the object in the arena.
    [hashTable] holds exactly the allocated pointers (each allocation is
    followed by its insertion and nothing is ever erased), so the arena also
    lists the elements of the table. *)
Record t := MkCache { arena : list Transform }.

Definition Ptr := nat.

Definition empty : t := MkCache [].

(** [hashTable.begin(offset) .. hashTable.end(offset)]: the stored pointers
    whose hash falls into bucket [offset], with the objects they point to. *)
Definition bucket (c : t) (offset : N) : list (Ptr * Transform) :=
  let n := Npos (bucket_count (length (arena c))) in
  List.filter (fun pv => N.eqb (t_hash (snd pv) mod n) offset)
              (imap (fun i v => (i, v)) (arena c)).

(** [TransformCache::Lookup] *)
Definition Lookup (x : Transform) (c : t) : Ptr * t :=
  let hit :=
    match arena c with
    | [] => None                                   (* hashTable.empty() *)
    | _ =>
      let offset := (t_hash x mod Npos (bucket_count (length (arena c))))%N in
      List.find (fun pv => t_eqb (snd pv) x) (bucket c offset)
    end in
  match hit with
  | Some (p, _) => (p, c)
  | None => (length (arena c), MkCache (arena c ++ [x]))
  end.

(** A run of lookups, threading the cache. *)
Fixpoint LookupAll (xs : list Transform) (c : t) : list Ptr * t :=
  match xs with
  | [] => ([], c)
  | x :: xs' =>
    let '(p, c1) := Lookup x c in
    let '(ps, c2) := LookupAll xs' c1 in
    (p :: ps, c2)
  end.

(** At most one stored instance per value. *)
Definition interned (c : t) : Prop :=
  forall i j a b,
    arena c !! i = Some a -> arena c !! j = Some b ->
    t_eqb a b = true -> i = j.

(** What interning needs from [operator==] and [Hash()]: value equality is
    symmetric and transitive, and equal values hash alike. *)
Definition eq_hash_compatible : Prop :=
  (forall a b, t_eqb a b = true -> t_eqb b a = true) /\
  (forall a b c, t_eqb a b = true -> t_eqb b c = true -> t_eqb a c = true) /\
  (forall a b, t_eqb a b = true -> t_hash a = t_hash b).

End Model.
End TransformCache.

(** ** GeneralScene *)

Module GeneralScene.
Section Model.
Context `{L : PbrtLib}.

Inductive APIState := Uninitialized | OptionsBlock | WorldBlock.

(** [ParsedParameter] (paramdict.h): the members genscene.cpp reads and
    writes, and the values of the parameter. *)
Record ParsedParameter := MkParsedParameter {
  pp_type : string;
  pp_name : string;
  pp_numbers : list Float;
  pp_ints : list Z;
  pp_strings : list string;
  pp_bools : list bool;
  mayBeUnused : bool;
  pp_colorSpace : option RGBColorSpace
}.

Definition ParsedParameterVector := list ParsedParameter.

(** [ParameterDictionary], by the constructor that built it. *)
Inductive ParameterDictionary :=
| DictDefault                                            (* ParameterDictionary() *)
| Dict (params : ParsedParameterVector) (cs : RGBColorSpace)
| DictWith (params attributes : ParsedParameterVector) (cs : RGBColorSpace).

Record GraphicsState := MkGraphicsState {
  currentInsideMedium : string;
  currentOutsideMedium : string;
  currentMaterialIndex : Z;
  currentMaterialName : string;
  areaLightName : string;
  areaLightParams : ParameterDictionary;
  areaLightLoc : FileLoc;
  colorSpace : RGBColorSpace;
  reverseOrientation : bool;
  shapeAttributes : ParsedParameterVector;
  lightAttributes : ParsedParameterVector;
  materialAttributes : ParsedParameterVector;
  mediumAttributes : ParsedParameterVector;
  textureAttributes : ParsedParameterVector
}.

Definition set_currentInsideMedium (v : string) (s : GraphicsState) : GraphicsState :=
  MkGraphicsState v (currentOutsideMedium s) (currentMaterialIndex s) (currentMaterialName s) (areaLightName s) (areaLightParams s) (areaLightLoc s) (colorSpace s) (reverseOrientation s) (shapeAttributes s) (lightAttributes s) (materialAttributes s) (mediumAttributes s) (textureAttributes s).
Definition set_currentOutsideMedium (v : string) (s : GraphicsState) : GraphicsState :=
  MkGraphicsState (currentInsideMedium s) v (currentMaterialIndex s) (currentMaterialName s) (areaLightName s) (areaLightParams s) (areaLightLoc s) (colorSpace s) (reverseOrientation s) (shapeAttributes s) (lightAttributes s) (materialAttributes s) (mediumAttributes s) (textureAttributes s).
Definition set_currentMaterialIndex (v : Z) (s : GraphicsState) : GraphicsState :=
  MkGraphicsState (currentInsideMedium s) (currentOutsideMedium s) v (currentMaterialName s) (areaLightName s) (areaLightParams s) (areaLightLoc s) (colorSpace s) (reverseOrientation s) (shapeAttributes s) (lightAttributes s) (materialAttributes s) (mediumAttributes s) (textureAttributes s).
Definition set_currentMaterialName (v : string) (s : GraphicsState) : GraphicsState :=
  MkGraphicsState (currentInsideMedium s) (currentOutsideMedium s) (currentMaterialIndex s) v (areaLightName s) (areaLightParams s) (areaLightLoc s) (colorSpace s) (reverseOrientation s) (shapeAttributes s) (lightAttributes s) (materialAttributes s) (mediumAttributes s) (textureAttributes s).
Definition set_areaLightName (v : string) (s : GraphicsState) : GraphicsState :=
  MkGraphicsState (currentInsideMedium s) (currentOutsideMedium s) (currentMaterialIndex s) (currentMaterialName s) v (areaLightParams s) (areaLightLoc s) (colorSpace s) (reverseOrientation s) (shapeAttributes s) (lightAttributes s) (materialAttributes s) (mediumAttributes s) (textureAttributes s).
Definition set_areaLightParams (v : ParameterDictionary) (s : GraphicsState) : GraphicsState :=
  MkGraphicsState (currentInsideMedium s) (currentOutsideMedium s) (currentMaterialIndex s) (currentMaterialName s) (areaLightName s) v (areaLightLoc s) (colorSpace s) (reverseOrientation s) (shapeAttributes s) (lightAttributes s) (materialAttributes s) (mediumAttributes s) (textureAttributes s).
Definition set_areaLightLoc (v : FileLoc) (s : GraphicsState) : GraphicsState :=
  MkGraphicsState (currentInsideMedium s) (currentOutsideMedium s) (currentMaterialIndex s) (currentMaterialName s) (areaLightName s) (areaLightParams s) v (colorSpace s) (reverseOrientation s) (shapeAttributes s) (lightAttributes s) (materialAttributes s) (mediumAttributes s) (textureAttributes s).
Definition set_colorSpace (v : RGBColorSpace) (s : GraphicsState) : GraphicsState :=
  MkGraphicsState (currentInsideMedium s) (currentOutsideMedium s) (currentMaterialIndex s) (currentMaterialName s) (areaLightName s) (areaLightParams s) (areaLightLoc s) v (reverseOrientation s) (shapeAttributes s) (lightAttributes s) (materialAttributes s) (mediumAttributes s) (textureAttributes s).
Definition set_reverseOrientation (v : bool) (s : GraphicsState) : GraphicsState :=
  MkGraphicsState (currentInsideMedium s) (currentOutsideMedium s) (currentMaterialIndex s) (currentMaterialName s) (areaLightName s) (areaLightParams s) (areaLightLoc s) (colorSpace s) v (shapeAttributes s) (lightAttributes s) (materialAttributes s) (mediumAttributes s) (textureAttributes s).
Definition set_shapeAttributes (v : ParsedParameterVector) (s : GraphicsState) : GraphicsState :=
  MkGraphicsState (currentInsideMedium s) (currentOutsideMedium s) (currentMaterialIndex s) (currentMaterialName s) (areaLightName s) (areaLightParams s) (areaLightLoc s) (colorSpace s) (reverseOrientation s) v (lightAttributes s) (materialAttributes s) (mediumAttributes s) (textureAttributes s).
Definition set_lightAttributes (v : ParsedParameterVector) (s : GraphicsState) : GraphicsState :=
  MkGraphicsState (currentInsideMedium s) (currentOutsideMedium s) (currentMaterialIndex s) (currentMaterialName s) (areaLightName s) (areaLightParams s) (areaLightLoc s) (colorSpace s) (reverseOrientation s) (shapeAttributes s) v (materialAttributes s) (mediumAttributes s) (textureAttributes s).
Definition set_materialAttributes (v : ParsedParameterVector) (s : GraphicsState) : GraphicsState :=
  MkGraphicsState (currentInsideMedium s) (currentOutsideMedium s) (currentMaterialIndex s) (currentMaterialName s) (areaLightName s) (areaLightParams s) (areaLightLoc s) (colorSpace s) (reverseOrientation s) (shapeAttributes s) (lightAttributes s) v (mediumAttributes s) (textureAttributes s).
Definition set_mediumAttributes (v : ParsedParameterVector) (s : GraphicsState) : GraphicsState :=
  MkGraphicsState (currentInsideMedium s) (currentOutsideMedium s) (currentMaterialIndex s) (currentMaterialName s) (areaLightName s) (areaLightParams s) (areaLightLoc s) (colorSpace s) (reverseOrientation s) (shapeAttributes s) (lightAttributes s) (materialAttributes s) v (textureAttributes s).
Definition set_textureAttributes (v : ParsedParameterVector) (s : GraphicsState) : GraphicsState :=
  MkGraphicsState (currentInsideMedium s) (currentOutsideMedium s) (currentMaterialIndex s) (currentMaterialName s) (areaLightName s) (areaLightParams s) (areaLightLoc s) (colorSpace s) (reverseOrientation s) (shapeAttributes s) (lightAttributes s) (materialAttributes s) (mediumAttributes s) v.

Definition GraphicsState_new : GraphicsState :=
  MkGraphicsState "" "" 0 "" "" DictDefault loc_default cs_sRGB false [] [] [] [] [].

(** The nesting-kind marker: the characters 'a', 't' and 'o' of pushStack. *)
Inductive NestingKind := KAttribute | KTransform | KObject.

(** Scene entities (genscene.h). *)
Record GeneralSceneEntity := MkEntity {
  e_name : string;
  e_parameters : ParameterDictionary;
  e_loc : FileLoc
}.

Definition Entity_default : GeneralSceneEntity := MkEntity "" DictDefault loc_default.

Record AnimatedTransform := MkAnimatedTransform {
  at_start : TransformCache.Ptr;
  at_startTime : Float;
  at_end : TransformCache.Ptr;
  at_endTime : Float
}.

Record CameraSceneEntity := MkCamera {
  cam_base : GeneralSceneEntity;
  cam_worldFromCamera : option AnimatedTransform;   (* None: default-constructed *)
  cam_medium : string
}.

Record TransformedSceneEntity := MkTransformed {
  tr_base : GeneralSceneEntity;
  tr_worldFromObject : AnimatedTransform
}.

Definition TextureSceneEntity := TransformedSceneEntity.

Record LightSceneEntity := MkLight {
  l_base : GeneralSceneEntity;
  l_worldFromLight : AnimatedTransform;
  l_medium : string
}.

Record ShapeSceneEntity := MkShape {
  sh_base : GeneralSceneEntity;
  sh_worldFromObject : TransformCache.Ptr;
  sh_objectFromWorld : TransformCache.Ptr;
  sh_reverseOrientation : bool;
  sh_materialIndex : Z;
  sh_materialName : string;
  sh_lightIndex : Z;
  sh_insideMedium : string;
  sh_outsideMedium : string
}.

Record AnimatedShapeSceneEntity := MkAnimatedShape {
  ash_base : GeneralSceneEntity;
  ash_worldFromObject : AnimatedTransform;
  ash_identity : TransformCache.Ptr;
  ash_reverseOrientation : bool;
  ash_materialIndex : Z;
  ash_materialName : string;
  ash_lightIndex : Z;
  ash_insideMedium : string;
  ash_outsideMedium : string
}.

Record InstanceSceneEntity := MkInstance {
  i_name : string;
  i_loc : FileLoc;
  i_worldFromInstanceAnim : option AnimatedTransform;   (* None: AnimatedTransform() *)
  i_worldFromInstance : option TransformCache.Ptr       (* None: nullptr *)
}.

(** The fields of the global [PbrtOptions] that the Option directive sets. *)
Record Options := MkOptions {
  disablePixelJitter : bool;
  disableWavelengthJitter : bool;
  mseReferenceImage : string;
  mseReferenceOutput : string;
  seed : Z;
  forceDiffuse : bool;
  recordPixelStatistics : bool
}.

Definition set_disablePixelJitter (v : bool) (s : Options) : Options :=
  MkOptions v (disableWavelengthJitter s) (mseReferenceImage s) (mseReferenceOutput s) (seed s) (forceDiffuse s) (recordPixelStatistics s).
Definition set_disableWavelengthJitter (v : bool) (s : Options) : Options :=
  MkOptions (disablePixelJitter s) v (mseReferenceImage s) (mseReferenceOutput s) (seed s) (forceDiffuse s) (recordPixelStatistics s).
Definition set_mseReferenceImage (v : string) (s : Options) : Options :=
  MkOptions (disablePixelJitter s) (disableWavelengthJitter s) v (mseReferenceOutput s) (seed s) (forceDiffuse s) (recordPixelStatistics s).
Definition set_mseReferenceOutput (v : string) (s : Options) : Options :=
  MkOptions (disablePixelJitter s) (disableWavelengthJitter s) (mseReferenceImage s) v (seed s) (forceDiffuse s) (recordPixelStatistics s).
Definition set_seed (v : Z) (s : Options) : Options :=
  MkOptions (disablePixelJitter s) (disableWavelengthJitter s) (mseReferenceImage s) (mseReferenceOutput s) v (forceDiffuse s) (recordPixelStatistics s).
Definition set_forceDiffuse (v : bool) (s : Options) : Options :=
  MkOptions (disablePixelJitter s) (disableWavelengthJitter s) (mseReferenceImage s) (mseReferenceOutput s) (seed s) v (recordPixelStatistics s).
Definition set_recordPixelStatistics (v : bool) (s : Options) : Options :=
  MkOptions (disablePixelJitter s) (disableWavelengthJitter s) (mseReferenceImage s) (mseReferenceOutput s) (seed s) (forceDiffuse s) v.

(** The members of [GeneralScene], with the global options. *)
Record State := MkState {
  currentApiState : APIState;
  graphicsState : GraphicsState;
  curTransform : TransformSet pbrt.Transform;
  activeTransformBits : Z;
  namedCoordinateSystems : gmap string (TransformSet pbrt.Transform);
  transformStartTime : Float;
  transformEndTime : Float;
  cameraFromWorldT : TransformSet pbrt.Transform;
  transformCache : TransformCache.t;
  pushedGraphicsStates : list GraphicsState;
  pushedTransforms : list (TransformSet pbrt.Transform);
  pushedActiveTransformBits : list Z;
  pushStack : list (NestingKind * FileLoc);
  camera : CameraSceneEntity;
  film : GeneralSceneEntity;
  sampler : GeneralSceneEntity;
  integrator : GeneralSceneEntity;
  filter_ : GeneralSceneEntity;
  accelerator : GeneralSceneEntity;
  namedMaterials : gmap string GeneralSceneEntity;
  materials : list GeneralSceneEntity;
  media : gmap string TransformedSceneEntity;
  floatTextures : list (string * TextureSceneEntity);
  spectrumTextures : list (string * TextureSceneEntity);
  instanceDefinitions : gmap string (list ShapeSceneEntity * list AnimatedShapeSceneEntity);
  currentInstance : option string;
  lights : list LightSceneEntity;
  areaLights : list GeneralSceneEntity;
  shapes : list ShapeSceneEntity;
  animatedShapes : list AnimatedShapeSceneEntity;
  instances : list InstanceSceneEntity;
  haveScatteringMedia : bool;
  PbrtOptions : Options
}.

Definition set_currentApiState (v : APIState) (s : State) : State :=
  MkState v (graphicsState s) (curTransform s) (activeTransformBits s) (namedCoordinateSystems s) (transformStartTime s) (transformEndTime s) (cameraFromWorldT s) (transformCache s) (pushedGraphicsStates s) (pushedTransforms s) (pushedActiveTransformBits s) (pushStack s) (camera s) (film s) (sampler s) (integrator s) (filter_ s) (accelerator s) (namedMaterials s) (materials s) (media s) (floatTextures s) (spectrumTextures s) (instanceDefinitions s) (currentInstance s) (lights s) (areaLights s) (shapes s) (animatedShapes s) (instances s) (haveScatteringMedia s) (PbrtOptions s).
Definition set_graphicsState (v : GraphicsState) (s : State) : State :=
  MkState (currentApiState s) v (curTransform s) (activeTransformBits s) (namedCoordinateSystems s) (transformStartTime s) (transformEndTime s) (cameraFromWorldT s) (transformCache s) (pushedGraphicsStates s) (pushedTransforms s) (pushedActiveTransformBits s) (pushStack s) (camera s) (film s) (sampler s) (integrator s) (filter_ s) (accelerator s) (namedMaterials s) (materials s) (media s) (floatTextures s) (spectrumTextures s) (instanceDefinitions s) (currentInstance s) (lights s) (areaLights s) (shapes s) (animatedShapes s) (instances s) (haveScatteringMedia s) (PbrtOptions s).
Definition set_curTransform (v : TransformSet pbrt.Transform) (s : State) : State :=
  MkState (currentApiState s) (graphicsState s) v (activeTransformBits s) (namedCoordinateSystems s) (transformStartTime s) (transformEndTime s) (cameraFromWorldT s) (transformCache s) (pushedGraphicsStates s) (pushedTransforms s) (pushedActiveTransformBits s) (pushStack s) (camera s) (film s) (sampler s) (integrator s) (filter_ s) (accelerator s) (namedMaterials s) (materials s) (media s) (floatTextures s) (spectrumTextures s) (instanceDefinitions s) (currentInstance s) (lights s) (areaLights s) (shapes s) (animatedShapes s) (instances s) (haveScatteringMedia s) (PbrtOptions s).
Definition set_activeTransformBits (v : Z) (s : State) : State :=
  MkState (currentApiState s) (graphicsState s) (curTransform s) v (namedCoordinateSystems s) (transformStartTime s) (transformEndTime s) (cameraFromWorldT s) (transformCache s) (pushedGraphicsStates s) (pushedTransforms s) (pushedActiveTransformBits s) (pushStack s) (camera s) (film s) (sampler s) (integrator s) (filter_ s) (accelerator s) (namedMaterials s) (materials s) (media s) (floatTextures s) (spectrumTextures s) (instanceDefinitions s) (currentInstance s) (lights s) (areaLights s) (shapes s) (animatedShapes s) (instances s) (haveScatteringMedia s) (PbrtOptions s).
Definition set_namedCoordinateSystems (v : gmap string (TransformSet pbrt.Transform)) (s : State) : State :=
  MkState (currentApiState s) (graphicsState s) (curTransform s) (activeTransformBits s) v (transformStartTime s) (transformEndTime s) (cameraFromWorldT s) (transformCache s) (pushedGraphicsStates s) (pushedTransforms s) (pushedActiveTransformBits s) (pushStack s) (camera s) (film s) (sampler s) (integrator s) (filter_ s) (accelerator s) (namedMaterials s) (materials s) (media s) (floatTextures s) (spectrumTextures s) (instanceDefinitions s) (currentInstance s) (lights s) (areaLights s) (shapes s) (animatedShapes s) (instances s) (haveScatteringMedia s) (PbrtOptions s).
Definition set_transformStartTime (v : Float) (s : State) : State :=
  MkState (currentApiState s) (graphicsState s) (curTransform s) (activeTransformBits s) (namedCoordinateSystems s) v (transformEndTime s) (cameraFromWorldT s) (transformCache s) (pushedGraphicsStates s) (pushedTransforms s) (pushedActiveTransformBits s) (pushStack s) (camera s) (film s) (sampler s) (integrator s) (filter_ s) (accelerator s) (namedMaterials s) (materials s) (media s) (floatTextures s) (spectrumTextures s) (instanceDefinitions s) (currentInstance s) (lights s) (areaLights s) (shapes s) (animatedShapes s) (instances s) (haveScatteringMedia s) (PbrtOptions s).
Definition set_transformEndTime (v : Float) (s : State) : State :=
  MkState (currentApiState s) (graphicsState s) (curTransform s) (activeTransformBits s) (namedCoordinateSystems s) (transformStartTime s) v (cameraFromWorldT s) (transformCache s) (pushedGraphicsStates s) (pushedTransforms s) (pushedActiveTransformBits s) (pushStack s) (camera s) (film s) (sampler s) (integrator s) (filter_ s) (accelerator s) (namedMaterials s) (materials s) (media s) (floatTextures s) (spectrumTextures s) (instanceDefinitions s) (currentInstance s) (lights s) (areaLights s) (shapes s) (animatedShapes s) (instances s) (haveScatteringMedia s) (PbrtOptions s).
Definition set_cameraFromWorldT (v : TransformSet pbrt.Transform) (s : State) : State :=
  MkState (currentApiState s) (graphicsState s) (curTransform s) (activeTransformBits s) (namedCoordinateSystems s) (transformStartTime s) (transformEndTime s) v (transformCache s) (pushedGraphicsStates s) (pushedTransforms s) (pushedActiveTransformBits s) (pushStack s) (camera s) (film s) (sampler s) (integrator s) (filter_ s) (accelerator s) (namedMaterials s) (materials s) (media s) (floatTextures s) (spectrumTextures s) (instanceDefinitions s) (currentInstance s) (lights s) (areaLights s) (shapes s) (animatedShapes s) (instances s) (haveScatteringMedia s) (PbrtOptions s).
Definition set_transformCache (v : TransformCache.t) (s : State) : State :=
  MkState (currentApiState s) (graphicsState s) (curTransform s) (activeTransformBits s) (namedCoordinateSystems s) (transformStartTime s) (transformEndTime s) (cameraFromWorldT s) v (pushedGraphicsStates s) (pushedTransforms s) (pushedActiveTransformBits s) (pushStack s) (camera s) (film s) (sampler s) (integrator s) (filter_ s) (accelerator s) (namedMaterials s) (materials s) (media s) (floatTextures s) (spectrumTextures s) (instanceDefinitions s) (currentInstance s) (lights s) (areaLights s) (shapes s) (animatedShapes s) (instances s) (haveScatteringMedia s) (PbrtOptions s).
Definition set_pushedGraphicsStates (v : list GraphicsState) (s : State) : State :=
  MkState (currentApiState s) (graphicsState s) (curTransform s) (activeTransformBits s) (namedCoordinateSystems s) (transformStartTime s) (transformEndTime s) (cameraFromWorldT s) (transformCache s) v (pushedTransforms s) (pushedActiveTransformBits s) (pushStack s) (camera s) (film s) (sampler s) (integrator s) (filter_ s) (accelerator s) (namedMaterials s) (materials s) (media s) (floatTextures s) (spectrumTextures s) (instanceDefinitions s) (currentInstance s) (lights s) (areaLights s) (shapes s) (animatedShapes s) (instances s) (haveScatteringMedia s) (PbrtOptions s).
Definition set_pushedTransforms (v : list (TransformSet pbrt.Transform)) (s : State) : State :=
  MkState (currentApiState s) (graphicsState s) (curTransform s) (activeTransformBits s) (namedCoordinateSystems s) (transformStartTime s) (transformEndTime s) (cameraFromWorldT s) (transformCache s) (pushedGraphicsStates s) v (pushedActiveTransformBits s) (pushStack s) (camera s) (film s) (sampler s) (integrator s) (filter_ s) (accelerator s) (namedMaterials s) (materials s) (media s) (floatTextures s) (spectrumTextures s) (instanceDefinitions s) (currentInstance s) (lights s) (areaLights s) (shapes s) (animatedShapes s) (instances s) (haveScatteringMedia s) (PbrtOptions s).
Definition set_pushedActiveTransformBits (v : list Z) (s : State) : State :=
  MkState (currentApiState s) (graphicsState s) (curTransform s) (activeTransformBits s) (namedCoordinateSystems s) (transformStartTime s) (transformEndTime s) (cameraFromWorldT s) (transformCache s) (pushedGraphicsStates s) (pushedTransforms s) v (pushStack s) (camera s) (film s) (sampler s) (integrator s) (filter_ s) (accelerator s) (namedMaterials s) (materials s) (media s) (floatTextures s) (spectrumTextures s) (instanceDefinitions s) (currentInstance s) (lights s) (areaLights s) (shapes s) (animatedShapes s) (instances s) (haveScatteringMedia s) (PbrtOptions s).
Definition set_pushStack (v : list (NestingKind * FileLoc)) (s : State) : State :=
  MkState (currentApiState s) (graphicsState s) (curTransform s) (activeTransformBits s) (namedCoordinateSystems s) (transformStartTime s) (transformEndTime s) (cameraFromWorldT s) (transformCache s) (pushedGraphicsStates s) (pushedTransforms s) (pushedActiveTransformBits s) v (camera s) (film s) (sampler s) (integrator s) (filter_ s) (accelerator s) (namedMaterials s) (materials s) (media s) (floatTextures s) (spectrumTextures s) (instanceDefinitions s) (currentInstance s) (lights s) (areaLights s) (shapes s) (animatedShapes s) (instances s) (haveScatteringMedia s) (PbrtOptions s).
Definition set_camera (v : CameraSceneEntity) (s : State) : State :=
  MkState (currentApiState s) (graphicsState s) (curTransform s) (activeTransformBits s) (namedCoordinateSystems s) (transformStartTime s) (transformEndTime s) (cameraFromWorldT s) (transformCache s) (pushedGraphicsStates s) (pushedTransforms s) (pushedActiveTransformBits s) (pushStack s) v (film s) (sampler s) (integrator s) (filter_ s) (accelerator s) (namedMaterials s) (materials s) (media s) (floatTextures s) (spectrumTextures s) (instanceDefinitions s) (currentInstance s) (lights s) (areaLights s) (shapes s) (animatedShapes s) (instances s) (haveScatteringMedia s) (PbrtOptions s).
Definition set_film (v : GeneralSceneEntity) (s : State) : State :=
  MkState (currentApiState s) (graphicsState s) (curTransform s) (activeTransformBits s) (namedCoordinateSystems s) (transformStartTime s) (transformEndTime s) (cameraFromWorldT s) (transformCache s) (pushedGraphicsStates s) (pushedTransforms s) (pushedActiveTransformBits s) (pushStack s) (camera s) v (sampler s) (integrator s) (filter_ s) (accelerator s) (namedMaterials s) (materials s) (media s) (floatTextures s) (spectrumTextures s) (instanceDefinitions s) (currentInstance s) (lights s) (areaLights s) (shapes s) (animatedShapes s) (instances s) (haveScatteringMedia s) (PbrtOptions s).
Definition set_sampler (v : GeneralSceneEntity) (s : State) : State :=
  MkState (currentApiState s) (graphicsState s) (curTransform s) (activeTransformBits s) (namedCoordinateSystems s) (transformStartTime s) (transformEndTime s) (cameraFromWorldT s) (transformCache s) (pushedGraphicsStates s) (pushedTransforms s) (pushedActiveTransformBits s) (pushStack s) (camera s) (film s) v (integrator s) (filter_ s) (accelerator s) (namedMaterials s) (materials s) (media s) (floatTextures s) (spectrumTextures s) (instanceDefinitions s) (currentInstance s) (lights s) (areaLights s) (shapes s) (animatedShapes s) (instances s) (haveScatteringMedia s) (PbrtOptions s).
Definition set_integrator (v : GeneralSceneEntity) (s : State) : State :=
  MkState (currentApiState s) (graphicsState s) (curTransform s) (activeTransformBits s) (namedCoordinateSystems s) (transformStartTime s) (transformEndTime s) (cameraFromWorldT s) (transformCache s) (pushedGraphicsStates s) (pushedTransforms s) (pushedActiveTransformBits s) (pushStack s) (camera s) (film s) (sampler s) v (filter_ s) (accelerator s) (namedMaterials s) (materials s) (media s) (floatTextures s) (spectrumTextures s) (instanceDefinitions s) (currentInstance s) (lights s) (areaLights s) (shapes s) (animatedShapes s) (instances s) (haveScatteringMedia s) (PbrtOptions s).
Definition set_filter_ (v : GeneralSceneEntity) (s : State) : State :=
  MkState (currentApiState s) (graphicsState s) (curTransform s) (activeTransformBits s) (namedCoordinateSystems s) (transformStartTime s) (transformEndTime s) (cameraFromWorldT s) (transformCache s) (pushedGraphicsStates s) (pushedTransforms s) (pushedActiveTransformBits s) (pushStack s) (camera s) (film s) (sampler s) (integrator s) v (accelerator s) (namedMaterials s) (materials s) (media s) (floatTextures s) (spectrumTextures s) (instanceDefinitions s) (currentInstance s) (lights s) (areaLights s) (shapes s) (animatedShapes s) (instances s) (haveScatteringMedia s) (PbrtOptions s).
Definition set_accelerator (v : GeneralSceneEntity) (s : State) : State :=
  MkState (currentApiState s) (graphicsState s) (curTransform s) (activeTransformBits s) (namedCoordinateSystems s) (transformStartTime s) (transformEndTime s) (cameraFromWorldT s) (transformCache s) (pushedGraphicsStates s) (pushedTransforms s) (pushedActiveTransformBits s) (pushStack s) (camera s) (film s) (sampler s) (integrator s) (filter_ s) v (namedMaterials s) (materials s) (media s) (floatTextures s) (spectrumTextures s) (instanceDefinitions s) (currentInstance s) (lights s) (areaLights s) (shapes s) (animatedShapes s) (instances s) (haveScatteringMedia s) (PbrtOptions s).
Definition set_namedMaterials (v : gmap string GeneralSceneEntity) (s : State) : State :=
  MkState (currentApiState s) (graphicsState s) (curTransform s) (activeTransformBits s) (namedCoordinateSystems s) (transformStartTime s) (transformEndTime s) (cameraFromWorldT s) (transformCache s) (pushedGraphicsStates s) (pushedTransforms s) (pushedActiveTransformBits s) (pushStack s) (camera s) (film s) (sampler s) (integrator s) (filter_ s) (accelerator s) v (materials s) (media s) (floatTextures s) (spectrumTextures s) (instanceDefinitions s) (currentInstance s) (lights s) (areaLights s) (shapes s) (animatedShapes s) (instances s) (haveScatteringMedia s) (PbrtOptions s).
Definition set_materials (v : list GeneralSceneEntity) (s : State) : State :=
  MkState (currentApiState s) (graphicsState s) (curTransform s) (activeTransformBits s) (namedCoordinateSystems s) (transformStartTime s) (transformEndTime s) (cameraFromWorldT s) (transformCache s) (pushedGraphicsStates s) (pushedTransforms s) (pushedActiveTransformBits s) (pushStack s) (camera s) (film s) (sampler s) (integrator s) (filter_ s) (accelerator s) (namedMaterials s) v (media s) (floatTextures s) (spectrumTextures s) (instanceDefinitions s) (currentInstance s) (lights s) (areaLights s) (shapes s) (animatedShapes s) (instances s) (haveScatteringMedia s) (PbrtOptions s).
Definition set_media (v : gmap string TransformedSceneEntity) (s : State) : State :=
  MkState (currentApiState s) (graphicsState s) (curTransform s) (activeTransformBits s) (namedCoordinateSystems s) (transformStartTime s) (transformEndTime s) (cameraFromWorldT s) (transformCache s) (pushedGraphicsStates s) (pushedTransforms s) (pushedActiveTransformBits s) (pushStack s) (camera s) (film s) (sampler s) (integrator s) (filter_ s) (accelerator s) (namedMaterials s) (materials s) v (floatTextures s) (spectrumTextures s) (instanceDefinitions s) (currentInstance s) (lights s) (areaLights s) (shapes s) (animatedShapes s) (instances s) (haveScatteringMedia s) (PbrtOptions s).
Definition set_floatTextures (v : list (string * TextureSceneEntity)) (s : State) : State :=
  MkState (currentApiState s) (graphicsState s) (curTransform s) (activeTransformBits s) (namedCoordinateSystems s) (transformStartTime s) (transformEndTime s) (cameraFromWorldT s) (transformCache s) (pushedGraphicsStates s) (pushedTransforms s) (pushedActiveTransformBits s) (pushStack s) (camera s) (film s) (sampler s) (integrator s) (filter_ s) (accelerator s) (namedMaterials s) (materials s) (media s) v (spectrumTextures s) (instanceDefinitions s) (currentInstance s) (lights s) (areaLights s) (shapes s) (animatedShapes s) (instances s) (haveScatteringMedia s) (PbrtOptions s).
Definition set_spectrumTextures (v : list (string * TextureSceneEntity)) (s : State) : State :=
  MkState (currentApiState s) (graphicsState s) (curTransform s) (activeTransformBits s) (namedCoordinateSystems s) (transformStartTime s) (transformEndTime s) (cameraFromWorldT s) (transformCache s) (pushedGraphicsStates s) (pushedTransforms s) (pushedActiveTransformBits s) (pushStack s) (camera s) (film s) (sampler s) (integrator s) (filter_ s) (accelerator s) (namedMaterials s) (materials s) (media s) (floatTextures s) v (instanceDefinitions s) (currentInstance s) (lights s) (areaLights s) (shapes s) (animatedShapes s) (instances s) (haveScatteringMedia s) (PbrtOptions s).
Definition set_instanceDefinitions (v : gmap string (list ShapeSceneEntity * list AnimatedShapeSceneEntity)) (s : State) : State :=
  MkState (currentApiState s) (graphicsState s) (curTransform s) (activeTransformBits s) (namedCoordinateSystems s) (transformStartTime s) (transformEndTime s) (cameraFromWorldT s) (transformCache s) (pushedGraphicsStates s) (pushedTransforms s) (pushedActiveTransformBits s) (pushStack s) (camera s) (film s) (sampler s) (integrator s) (filter_ s) (accelerator s) (namedMaterials s) (materials s) (media s) (floatTextures s) (spectrumTextures s) v (currentInstance s) (lights s) (areaLights s) (shapes s) (animatedShapes s) (instances s) (haveScatteringMedia s) (PbrtOptions s).
Definition set_currentInstance (v : option string) (s : State) : State :=
  MkState (currentApiState s) (graphicsState s) (curTransform s) (activeTransformBits s) (namedCoordinateSystems s) (transformStartTime s) (transformEndTime s) (cameraFromWorldT s) (transformCache s) (pushedGraphicsStates s) (pushedTransforms s) (pushedActiveTransformBits s) (pushStack s) (camera s) (film s) (sampler s) (integrator s) (filter_ s) (accelerator s) (namedMaterials s) (materials s) (media s) (floatTextures s) (spectrumTextures s) (instanceDefinitions s) v (lights s) (areaLights s) (shapes s) (animatedShapes s) (instances s) (haveScatteringMedia s) (PbrtOptions s).
Definition set_lights (v : list LightSceneEntity) (s : State) : State :=
  MkState (currentApiState s) (graphicsState s) (curTransform s) (activeTransformBits s) (namedCoordinateSystems s) (transformStartTime s) (transformEndTime s) (cameraFromWorldT s) (transformCache s) (pushedGraphicsStates s) (pushedTransforms s) (pushedActiveTransformBits s) (pushStack s) (camera s) (film s) (sampler s) (integrator s) (filter_ s) (accelerator s) (namedMaterials s) (materials s) (media s) (floatTextures s) (spectrumTextures s) (instanceDefinitions s) (currentInstance s) v (areaLights s) (shapes s) (animatedShapes s) (instances s) (haveScatteringMedia s) (PbrtOptions s).
Definition set_areaLights (v : list GeneralSceneEntity) (s : State) : State :=
  MkState (currentApiState s) (graphicsState s) (curTransform s) (activeTransformBits s) (namedCoordinateSystems s) (transformStartTime s) (transformEndTime s) (cameraFromWorldT s) (transformCache s) (pushedGraphicsStates s) (pushedTransforms s) (pushedActiveTransformBits s) (pushStack s) (camera s) (film s) (sampler s) (integrator s) (filter_ s) (accelerator s) (namedMaterials s) (materials s) (media s) (floatTextures s) (spectrumTextures s) (instanceDefinitions s) (currentInstance s) (lights s) v (shapes s) (animatedShapes s) (instances s) (haveScatteringMedia s) (PbrtOptions s).
Definition set_shapes (v : list ShapeSceneEntity) (s : State) : State :=
  MkState (currentApiState s) (graphicsState s) (curTransform s) (activeTransformBits s) (namedCoordinateSystems s) (transformStartTime s) (transformEndTime s) (cameraFromWorldT s) (transformCache s) (pushedGraphicsStates s) (pushedTransforms s) (pushedActiveTransformBits s) (pushStack s) (camera s) (film s) (sampler s) (integrator s) (filter_ s) (accelerator s) (namedMaterials s) (materials s) (media s) (floatTextures s) (spectrumTextures s) (instanceDefinitions s) (currentInstance s) (lights s) (areaLights s) v (animatedShapes s) (instances s) (haveScatteringMedia s) (PbrtOptions s).
Definition set_animatedShapes (v : list AnimatedShapeSceneEntity) (s : State) : State :=
  MkState (currentApiState s) (graphicsState s) (curTransform s) (activeTransformBits s) (namedCoordinateSystems s) (transformStartTime s) (transformEndTime s) (cameraFromWorldT s) (transformCache s) (pushedGraphicsStates s) (pushedTransforms s) (pushedActiveTransformBits s) (pushStack s) (camera s) (film s) (sampler s) (integrator s) (filter_ s) (accelerator s) (namedMaterials s) (materials s) (media s) (floatTextures s) (spectrumTextures s) (instanceDefinitions s) (currentInstance s) (lights s) (areaLights s) (shapes s) v (instances s) (haveScatteringMedia s) (PbrtOptions s).
Definition set_instances (v : list InstanceSceneEntity) (s : State) : State :=
  MkState (currentApiState s) (graphicsState s) (curTransform s) (activeTransformBits s) (namedCoordinateSystems s) (transformStartTime s) (transformEndTime s) (cameraFromWorldT s) (transformCache s) (pushedGraphicsStates s) (pushedTransforms s) (pushedActiveTransformBits s) (pushStack s) (camera s) (film s) (sampler s) (integrator s) (filter_ s) (accelerator s) (namedMaterials s) (materials s) (media s) (floatTextures s) (spectrumTextures s) (instanceDefinitions s) (currentInstance s) (lights s) (areaLights s) (shapes s) (animatedShapes s) v (haveScatteringMedia s) (PbrtOptions s).
Definition set_haveScatteringMedia (v : bool) (s : State) : State :=
  MkState (currentApiState s) (graphicsState s) (curTransform s) (activeTransformBits s) (namedCoordinateSystems s) (transformStartTime s) (transformEndTime s) (cameraFromWorldT s) (transformCache s) (pushedGraphicsStates s) (pushedTransforms s) (pushedActiveTransformBits s) (pushStack s) (camera s) (film s) (sampler s) (integrator s) (filter_ s) (accelerator s) (namedMaterials s) (materials s) (media s) (floatTextures s) (spectrumTextures s) (instanceDefinitions s) (currentInstance s) (lights s) (areaLights s) (shapes s) (animatedShapes s) (instances s) v (PbrtOptions s).
Definition set_PbrtOptions (v : Options) (s : State) : State :=
  MkState (currentApiState s) (graphicsState s) (curTransform s) (activeTransformBits s) (namedCoordinateSystems s) (transformStartTime s) (transformEndTime s) (cameraFromWorldT s) (transformCache s) (pushedGraphicsStates s) (pushedTransforms s) (pushedActiveTransformBits s) (pushStack s) (camera s) (film s) (sampler s) (integrator s) (filter_ s) (accelerator s) (namedMaterials s) (materials s) (media s) (floatTextures s) (spectrumTextures s) (instanceDefinitions s) (currentInstance s) (lights s) (areaLights s) (shapes s) (animatedShapes s) (instances s) (haveScatteringMedia s) v.


(** *** Outcome of a directive call *)

(** The messages of [Error], [Warning] and [ErrorExit], by the call that
    prints them (the text and the reporting location are left out). *)
Inductive Diagnostic :=
| ErrBeforeInit (func : string)            (* pbrtInit() must be before calling func. Ignoring. *)
| ErrOptionsInWorld (func : string)        (* Options cannot be set inside world block *)
| ErrSceneInOptions (func : string)        (* Scene description must be inside world block *)
| ErrOptionBool (value : string)           (* expected true or false for option value *)
| ErrOptionQuoted (value : string)         (* expected quoted string for option value *)
| ErrUnknownOption (name : string)
| WarnNoCoordSys (name : string)           (* Couldn't find named coordinate system *)
| ErrUnknownColorSpace (n : string)
| WarnAnimatedIgnored (func : string)      (* Animated transformations set; ignoring *)
| ErrMediumRedefined (name : string)
| ErrUnmatchedAttributeEnd                 (* Unmatched AttributeEnd encountered. Ignoring it. *)
| ErrUnmatchedTransformEnd                 (* Unmatched TransformEnd encountered. Ignoring it. *)
| ErrMismatchedNesting (opened : NestingKind) (openedAt : FileLoc) (closing : NestingKind)
| ErrUnknownAttributeTarget (target : string)
| ErrTextureType (type : string)
| ErrTextureRedefined (name : string)
| ErrNamedMaterialRedefined (name : string)
| WarnAreaLightInstancing                  (* Area lights not supported with object instancing *)
| ErrObjectBeginNested                     (* ObjectBegin called inside of instance definition *)
| ErrObjectRedefined (name : string)       (* trying to redefine an object instance *)
| ErrObjectEndOutside                      (* ObjectEnd called outside of instance definition *)
| ErrObjectInstanceInside.                 (* ObjectInstance can't be called inside instance definition *)

(** [Done s log]: the call returned, leaving the scene [s], after printing
    [log].  [Exit d]: the call reached [ErrorExit] and the process ended.
    [Undefined]: the call read [back()] of an empty vector. *)
Inductive Outcome :=
| Done (s : State) (log : list Diagnostic)
| Exit (d : Diagnostic)
| Undefined.

Definition and_then (o : Outcome) (k : State -> Outcome) : Outcome :=
  match o with
  | Done s log =>
    match k s with
    | Done s' log' => Done s' (log ++ log')
    | other => other
    end
  | other => other
  end.

(** [std::vector]: [push_back], [back], [pop_back]. *)
Definition push_back {A} (l : list A) (x : A) : list A := l ++ [x].
Definition back {A} (l : list A) : option A := last l.
Definition pop_back {A} (l : list A) : list A := removelast l.

(** *** API macros *)

Definition VERIFY_INITIALIZED (func : string) (s : State) (k : Outcome) : Outcome :=
  match currentApiState s with
  | Uninitialized => Done s [ErrBeforeInit func]
  | _ => k
  end.

Definition VERIFY_OPTIONS (func : string) (s : State) (k : Outcome) : Outcome :=
  VERIFY_INITIALIZED func s
    match currentApiState s with
    | WorldBlock => Done s [ErrOptionsInWorld func]
    | _ => k
    end.

Definition VERIFY_WORLD (func : string) (s : State) (k : Outcome) : Outcome :=
  VERIFY_INITIALIZED func s
    match currentApiState s with
    | OptionsBlock => Done s [ErrSceneInOptions func]
    | _ => k
    end.

(** [activeTransformBits & (1 << i)] *)
Definition active (bits : Z) (i : nat) : bool :=
  negb (Z.eqb (Z.land bits (Z.shiftl 1 (Z.of_nat i))) 0).

(** [FOR_ACTIVE_TRANSFORMS(curTransform[i] = expr;)], where [expr] may read
    [curTransform[i]]. *)
Definition FOR_ACTIVE_TRANSFORMS (expr : pbrt.Transform -> pbrt.Transform) (s : State) : State :=
  set_curTransform
    (fold_left
       (fun cur i => if active (activeTransformBits s) i
                     then ts_set i (expr (ts_get i cur)) cur else cur)
       (seq 0 MaxTransforms) (curTransform s))
    s.

(** [WARN_IF_ANIMATED_TRANSFORM] *)
Definition WARN_IF_ANIMATED_TRANSFORM (func : string) (s : State) : list Diagnostic :=
  if ts_IsAnimated (curTransform s) then [WarnAnimatedIgnored func] else [].

(** [transformCache.Lookup(x)] on the scene's own cache, and [*p]. *)
Definition lookup (x : pbrt.Transform) (s : State) : TransformCache.Ptr * State :=
  let '(p, c) := TransformCache.Lookup x (transformCache s) in
  (p, set_transformCache c s).

Definition deref (p : TransformCache.Ptr) (s : State) : pbrt.Transform :=
  default t_identity (TransformCache.arena (transformCache s) !! p).

Definition CTM (i : nat) (s : State) : pbrt.Transform :=
  GetCTM (curTransform s) (cameraFromWorldT s) i.

(** [AnimatedTransform(Lookup(GetCTM(0)), transformStartTime,
    Lookup(GetCTM(1)), transformEndTime)]; the two lookups are taken in the
    order they are written. *)
Definition lookupCTMs (s : State) : AnimatedTransform * State :=
  let '(p0, s0) := lookup (CTM 0 s) s in
  let '(p1, s1) := lookup (CTM 1 s) s0 in
  (MkAnimatedTransform p0 (transformStartTime s) p1 (transformEndTime s), s1).

(** *** The constructor *)

(** Modelled from the spec: the member initialisers of genscene.h (the
    current transform starts as the identity on both slots, "ActiveTransformBits
    ...; default is both", no instance definition is open) around the body of
    [GeneralScene::GeneralScene], which is in the sources. *)
Definition Options_default : Options := MkOptions false false "" "" 0 false false.

Definition GeneralScene : State :=
  let ident := MkTransformSet t_identity t_identity in
  let dict := Dict [] cs_sRGB in
  MkState
    OptionsBlock                                  (* currentApiState = APIState::OptionsBlock *)
    GraphicsState_new                             (* graphicsState = new GraphicsState *)
    ident AllTransformsBits ∅ (f_lit 0) (f_lit 1) ident
    TransformCache.empty
    [] [] [] []
    (MkCamera Entity_default None "")
    (MkEntity "rgb" DictDefault loc_default)      (* film.name = *)
    Entity_default Entity_default
    (MkEntity "gaussian" DictDefault loc_default) (* filter.name = *)
    Entity_default
    ∅
    [MkEntity "diffuse" dict loc_default]         (* materials.push_back(...) *)
    ∅ [] [] ∅ None [] [] [] [] [] false
    Options_default.

(** *** Options and transforms *)

Definition quote_char : Ascii.ascii := Ascii.ascii_of_nat 34.

(** [value.size() < 3 || value.front() != quote || value.back() != quote] *)
Definition not_quoted (value : string) : bool :=
  (String.length value <? 3)%nat
  || negb (bool_decide (String.get 0 value = Some quote_char))
  || negb (bool_decide (String.get (String.length value - 1) value = Some quote_char)).

Definition option_flag (value : string) (upd : bool -> Options -> Options) (s : State) : Outcome :=
  if String.eqb value "true" then Done (set_PbrtOptions (upd true (PbrtOptions s)) s) []
  else if String.eqb value "false" then Done (set_PbrtOptions (upd false (PbrtOptions s)) s) []
  else Exit (ErrOptionBool value).

Definition option_quoted (value : string) (upd : string -> Options -> Options) (s : State) : Outcome :=
  if not_quoted value then Exit (ErrOptionQuoted value)
  else Done (set_PbrtOptions
               (upd (String.substring 1 (String.length value - 2) value) (PbrtOptions s)) s) [].

Definition Option (name value : string) (loc : FileLoc) (s : State) : Outcome :=
  let nName := normalizeArg name in
  VERIFY_INITIALIZED "Option" s
    (if String.eqb nName "disablepixeljitter" then option_flag value set_disablePixelJitter s
     else if String.eqb nName "disablewavelengthjitter" then
       option_flag value set_disableWavelengthJitter s
     else if String.eqb nName "msereferenceimage" then option_quoted value set_mseReferenceImage s
     else if String.eqb nName "msereferenceout" then option_quoted value set_mseReferenceOutput s
     else if String.eqb nName "seed" then
       Done (set_PbrtOptions (set_seed (atoi value) (PbrtOptions s)) s) []
     else if String.eqb nName "forcediffuse" then option_flag value set_forceDiffuse s
     else if String.eqb nName "pixelstats" then option_flag value set_recordPixelStatistics s
     else Exit (ErrUnknownOption name)).

Definition Identity (loc : FileLoc) (s : State) : Outcome :=
  VERIFY_INITIALIZED "Identity" s
    (Done (FOR_ACTIVE_TRANSFORMS (fun _ => t_identity) s) []).

Definition Translate (dx dy dz : Float) (loc : FileLoc) (s : State) : Outcome :=
  VERIFY_INITIALIZED "Translate" s
    (Done (FOR_ACTIVE_TRANSFORMS (fun cur => t_mul cur (t_translate dx dy dz)) s) []).

(** [tr] stands for the array [Float tr[16]]. *)
Definition Transform (tr : list Float) (loc : FileLoc) (s : State) : Outcome :=
  VERIFY_INITIALIZED "Transform" s
    (Done (FOR_ACTIVE_TRANSFORMS (fun _ => t_transpose (t_of_matrix tr)) s) []).

Definition ConcatTransform (tr : list Float) (loc : FileLoc) (s : State) : Outcome :=
  VERIFY_INITIALIZED "ConcatTransform" s
    (Done (FOR_ACTIVE_TRANSFORMS (fun cur => t_mul cur (t_transpose (t_of_matrix tr))) s) []).

Definition Rotate (angle dx dy dz : Float) (loc : FileLoc) (s : State) : Outcome :=
  VERIFY_INITIALIZED "Rotate" s
    (Done (FOR_ACTIVE_TRANSFORMS (fun cur => t_mul cur (t_rotate angle dx dy dz)) s) []).

Definition Scale (sx sy sz : Float) (loc : FileLoc) (s : State) : Outcome :=
  VERIFY_INITIALIZED "Scale" s
    (Done (FOR_ACTIVE_TRANSFORMS (fun cur => t_mul cur (t_scale sx sy sz)) s) []).

Definition LookAt (ex ey ez lx ly lz ux uy uz : Float) (loc : FileLoc) (s : State) : Outcome :=
  VERIFY_INITIALIZED "LookAt" s
    (let lookAt := t_lookat [ex; ey; ez; lx; ly; lz; ux; uy; uz] in
     Done (FOR_ACTIVE_TRANSFORMS (fun cur => t_mul cur lookAt) s) []).

Definition CoordinateSystem (name : string) (loc : FileLoc) (s : State) : Outcome :=
  VERIFY_INITIALIZED "CoordinateSystem" s
    (Done (set_namedCoordinateSystems
             (<[name := curTransform s]> (namedCoordinateSystems s)) s) []).

Definition CoordSysTransform (name : string) (loc : FileLoc) (s : State) : Outcome :=
  VERIFY_INITIALIZED "CoordSysTransform" s
    match namedCoordinateSystems s !! name with
    | Some ts => Done (set_curTransform ts s) []
    | None => Done s [WarnNoCoordSys name]
    end.

Definition ActiveTransformAll (loc : FileLoc) (s : State) : Outcome :=
  Done (set_activeTransformBits AllTransformsBits s) [].

Definition ActiveTransformEndTime (loc : FileLoc) (s : State) : Outcome :=
  Done (set_activeTransformBits EndTransformBits s) [].

Definition ActiveTransformStartTime (loc : FileLoc) (s : State) : Outcome :=
  Done (set_activeTransformBits StartTransformBits s) [].

Definition TransformTimes (start end_ : Float) (loc : FileLoc) (s : State) : Outcome :=
  VERIFY_OPTIONS "TransformTimes" s
    (Done (set_transformEndTime end_ (set_transformStartTime start s)) []).

Definition ColorSpace (n : string) (loc : FileLoc) (s : State) : Outcome :=
  VERIFY_INITIALIZED "RGBColorSpace" s
    match cs_GetNamed n with
    | Some cs => Done (set_graphicsState (set_colorSpace cs (graphicsState s)) s) []
    | None => Done s [ErrUnknownColorSpace n]
    end.

Definition PixelFilter (name : string) (params : ParsedParameterVector) (loc : FileLoc)
    (s : State) : Outcome :=
  let dict := Dict params (colorSpace (graphicsState s)) in
  VERIFY_OPTIONS "PixelFilter" s (Done (set_filter_ (MkEntity name dict loc) s) []).

Definition Film (type : string) (params : ParsedParameterVector) (loc : FileLoc)
    (s : State) : Outcome :=
  let dict := Dict params (colorSpace (graphicsState s)) in
  VERIFY_OPTIONS "Film" s (Done (set_film (MkEntity type dict loc) s) []).

Definition Sampler (name : string) (params : ParsedParameterVector) (loc : FileLoc)
    (s : State) : Outcome :=
  let dict := Dict params (colorSpace (graphicsState s)) in
  VERIFY_OPTIONS "Sampler" s (Done (set_sampler (MkEntity name dict loc) s) []).

Definition Accelerator (name : string) (params : ParsedParameterVector) (loc : FileLoc)
    (s : State) : Outcome :=
  let dict := Dict params (colorSpace (graphicsState s)) in
  VERIFY_OPTIONS "Accelerator" s (Done (set_accelerator (MkEntity name dict loc) s) []).

Definition Integrator (name : string) (params : ParsedParameterVector) (loc : FileLoc)
    (s : State) : Outcome :=
  let dict := Dict params (colorSpace (graphicsState s)) in
  VERIFY_OPTIONS "Integrator" s (Done (set_integrator (MkEntity name dict loc) s) []).

Definition Camera (name : string) (params : ParsedParameterVector) (loc : FileLoc)
    (s : State) : Outcome :=
  let dict := Dict params (colorSpace (graphicsState s)) in
  VERIFY_OPTIONS "Camera" s
    (let cameraFromWorld := curTransform s in
     let worldFromCamera := ts_Inverse (curTransform s) in
     let cfwT :=
       fold_left (fun acc i => ts_set i (t_camera_offset (ts_get i worldFromCamera)) acc)
                 (seq 0 MaxTransforms) (cameraFromWorldT s) in
     let s1 := set_cameraFromWorldT cfwT s in
     let s2 := set_namedCoordinateSystems
                 (<["camera" := ts_Inverse cameraFromWorld]> (namedCoordinateSystems s1)) s1 in
     let '(p0, s3) :=
       lookup (t_inverse (t_mul (ts_get 0 cameraFromWorld) (t_inverse (ts_get 0 cfwT)))) s2 in
     let '(p1, s4) :=
       lookup (t_inverse (t_mul (ts_get 1 cameraFromWorld) (t_inverse (ts_get 1 cfwT)))) s3 in
     let worldFromCameraAT :=
       MkAnimatedTransform p0 (transformStartTime s) p1 (transformEndTime s) in
     Done (set_camera (MkCamera (MkEntity name dict loc) (Some worldFromCameraAT)
                                (currentOutsideMedium (graphicsState s))) s4) []).

Definition MakeNamedMedium (name : string) (params : ParsedParameterVector) (loc : FileLoc)
    (s : State) : Outcome :=
  VERIFY_INITIALIZED "MakeNamedMedium" s
    (let warn := WARN_IF_ANIMATED_TRANSFORM "MakeNamedMedium" s in
     let dict := DictWith params (mediumAttributes (graphicsState s))
                          (colorSpace (graphicsState s)) in
     match media s !! name with
     | Some _ => Exit (ErrMediumRedefined name)
     | None =>
       let '(worldFromMedium, s1) := lookupCTMs s in
       Done (set_media (<[name := MkTransformed (MkEntity name dict loc) worldFromMedium]>
                          (media s1)) s1) warn
     end).

Definition MediumInterface (insideName outsideName : string) (loc : FileLoc)
    (s : State) : Outcome :=
  VERIFY_INITIALIZED "MediumInterface" s
    (let gs := set_currentOutsideMedium outsideName
                 (set_currentInsideMedium insideName (graphicsState s)) in
     Done (set_haveScatteringMedia true (set_graphicsState gs s)) []).

Definition WorldBegin (loc : FileLoc) (s : State) : Outcome :=
  VERIFY_OPTIONS "WorldBegin" s
    (let s1 := set_currentApiState WorldBlock s in
     let cur := fold_left (fun acc i => ts_set i t_identity acc)
                          (seq 0 MaxTransforms) (curTransform s1) in
     let s2 := set_activeTransformBits AllTransformsBits (set_curTransform cur s1) in
     Done (set_namedCoordinateSystems
             (<["world" := curTransform s2]> (namedCoordinateSystems s2)) s2) []).

(** *** Scopes *)

Definition AttributeBegin (loc : FileLoc) (s : State) : Outcome :=
  VERIFY_WORLD "AttributeBegin" s
    (let s1 := set_pushedGraphicsStates
                 (push_back (pushedGraphicsStates s) (graphicsState s)) s in
     let s2 := set_pushedTransforms (push_back (pushedTransforms s1) (curTransform s1)) s1 in
     let s3 := set_pushedActiveTransformBits
                 (push_back (pushedActiveTransformBits s2) (activeTransformBits s2)) s2 in
     Done (set_pushStack (push_back (pushStack s3) (KAttribute, loc)) s3) []).

(** The statements shared by [AttributeEnd] and [ObjectEnd]: restore the
    graphics state, the current transform and the active bits from the backs of
    their stacks and pop them. *)
Definition restoreAll (s : State) : option State :=
  match back (pushedGraphicsStates s), back (pushedTransforms s),
        back (pushedActiveTransformBits s) with
  | Some g, Some ct, Some bits =>
    let s1 := set_pushedGraphicsStates (pop_back (pushedGraphicsStates s))
                (set_graphicsState g s) in
    let s2 := set_pushedTransforms (pop_back (pushedTransforms s1)) (set_curTransform ct s1) in
    Some (set_pushedActiveTransformBits (pop_back (pushedActiveTransformBits s2))
            (set_activeTransformBits bits s2))
  | _, _, _ => None
  end.

Definition kind_eqb (a b : NestingKind) : bool :=
  match a, b with
  | KAttribute, KAttribute | KTransform, KTransform | KObject, KObject => true
  | _, _ => false
  end.

(** The check of [pushStack.back()] against the kind [closing] of the calling
    End directive, followed by [pushStack.pop_back()]. *)
Definition closeScope (closing : NestingKind) (s : State) : Outcome :=
  match back (pushStack s) with
  | None => Undefined
  | Some (k, openedAt) =>
    if kind_eqb k closing then Done (set_pushStack (pop_back (pushStack s)) s) []
    else Exit (ErrMismatchedNesting k openedAt closing)
  end.

Definition AttributeEnd (loc : FileLoc) (s : State) : Outcome :=
  VERIFY_WORLD "AttributeEnd" s
    match pushedGraphicsStates s with
    | [] => Done s [ErrUnmatchedAttributeEnd]
    | _ =>
      match restoreAll s with
      | Some s1 => closeScope KAttribute s1
      | None => Undefined
      end
    end.

Definition Attribute (target : string) (attrib : ParsedParameterVector) (loc : FileLoc)
    (s : State) : Outcome :=
  VERIFY_INITIALIZED "Attribute" s
    (let gs := graphicsState s in
     let held := map (fun p => MkParsedParameter (pp_type p) (pp_name p) (pp_numbers p)
                                 (pp_ints p) (pp_strings p) (pp_bools p)
                                 true (Some (colorSpace gs))) attrib in
     if String.eqb target "shape" then
       Done (set_graphicsState (set_shapeAttributes (shapeAttributes gs ++ held) gs) s) []
     else if String.eqb target "light" then
       Done (set_graphicsState (set_lightAttributes (lightAttributes gs ++ held) gs) s) []
     else if String.eqb target "material" then
       Done (set_graphicsState (set_materialAttributes (materialAttributes gs ++ held) gs) s) []
     else if String.eqb target "medium" then
       Done (set_graphicsState (set_mediumAttributes (mediumAttributes gs ++ held) gs) s) []
     else if String.eqb target "texture" then
       Done (set_graphicsState (set_textureAttributes (textureAttributes gs ++ held) gs) s) []
     else Exit (ErrUnknownAttributeTarget target)).

Definition TransformBegin (loc : FileLoc) (s : State) : Outcome :=
  VERIFY_WORLD "TransformBegin" s
    (let s1 := set_pushedTransforms (push_back (pushedTransforms s) (curTransform s)) s in
     let s2 := set_pushedActiveTransformBits
                 (push_back (pushedActiveTransformBits s1) (activeTransformBits s1)) s1 in
     Done (set_pushStack (push_back (pushStack s2) (KTransform, loc)) s2) []).

Definition TransformEnd (loc : FileLoc) (s : State) : Outcome :=
  VERIFY_WORLD "TransformEnd" s
    match pushedTransforms s with
    | [] => Done s [ErrUnmatchedTransformEnd]
    | _ =>
      match back (pushedTransforms s), back (pushedActiveTransformBits s) with
      | Some ct, Some bits =>
        let s1 := set_pushedTransforms (pop_back (pushedTransforms s)) (set_curTransform ct s) in
        let s2 := set_pushedActiveTransformBits (pop_back (pushedActiveTransformBits s1))
                    (set_activeTransformBits bits s1) in
        closeScope KTransform s2
      | _, _ => Undefined
      end
    end.

(** *** Entities *)

Definition Texture (name type texname : string) (params : ParsedParameterVector)
    (loc : FileLoc) (s : State) : Outcome :=
  VERIFY_WORLD "Texture" s
    (let dict := DictWith params (textureAttributes (graphicsState s))
                          (colorSpace (graphicsState s)) in
     let '(worldFromTexture, s1) := lookupCTMs s in
     if negb (String.eqb type "float") && negb (String.eqb type "spectrum")
     then Exit (ErrTextureType type)
     else
       let isFloat := String.eqb type "float" in
       let textures := if isFloat then floatTextures s1 else spectrumTextures s1 in
       if existsb (fun tex => String.eqb (fst tex) name) textures
       then Exit (ErrTextureRedefined name)
       else
         let entry := (name, MkTransformed (MkEntity texname dict loc) worldFromTexture) in
         if isFloat then Done (set_floatTextures (push_back textures entry) s1) []
         else Done (set_spectrumTextures (push_back textures entry) s1) []).

Definition Material (name : string) (params : ParsedParameterVector) (loc : FileLoc)
    (s : State) : Outcome :=
  VERIFY_WORLD "Material" s
    (let dict := DictWith params (materialAttributes (graphicsState s))
                          (colorSpace (graphicsState s)) in
     let s1 := set_materials (push_back (materials s) (MkEntity name dict loc)) s in
     let gs := set_currentMaterialIndex (to_int (Z.of_nat (length (materials s1)) - 1))
                 (graphicsState s1) in
     Done (set_graphicsState (set_currentMaterialName "" gs) s1) []).

Definition MakeNamedMaterial (name : string) (params : ParsedParameterVector) (loc : FileLoc)
    (s : State) : Outcome :=
  VERIFY_WORLD "MakeNamedMaterial" s
    (let dict := DictWith params (materialAttributes (graphicsState s))
                          (colorSpace (graphicsState s)) in
     match namedMaterials s !! name with
     | Some _ => Exit (ErrNamedMaterialRedefined name)
     | None => Done (set_namedMaterials (<[name := MkEntity "" dict loc]> (namedMaterials s)) s) []
     end).

Definition NamedMaterial (name : string) (loc : FileLoc) (s : State) : Outcome :=
  VERIFY_WORLD "NamedMaterial" s
    (let gs := set_currentMaterialName name (graphicsState s) in
     Done (set_graphicsState (set_currentMaterialIndex (-1) gs) s) []).

Definition LightSource (name : string) (params : ParsedParameterVector) (loc : FileLoc)
    (s : State) : Outcome :=
  VERIFY_WORLD "LightSource" s
    (let dict := DictWith params (lightAttributes (graphicsState s))
                          (colorSpace (graphicsState s)) in
     let '(worldFromLight, s1) := lookupCTMs s in
     Done (set_lights (push_back (lights s1)
                         (MkLight (MkEntity name dict loc) worldFromLight
                                  (currentOutsideMedium (graphicsState s1)))) s1) []).

Definition AreaLightSource (name : string) (params : ParsedParameterVector) (loc : FileLoc)
    (s : State) : Outcome :=
  VERIFY_WORLD "AreaLightSource" s
    (let gs0 := graphicsState s in
     let gs1 := set_areaLightName name gs0 in
     let gs2 := set_areaLightParams
                  (DictWith params (lightAttributes gs1) (colorSpace gs1)) gs1 in
     Done (set_graphicsState (set_areaLightLoc loc gs2) s) []).

Definition Shape (name : string) (params : ParsedParameterVector) (loc : FileLoc)
    (s : State) : Outcome :=
  VERIFY_WORLD "Shape" s
    (let gs := graphicsState s in
     let dict := DictWith params (shapeAttributes gs) (colorSpace gs) in
     let pending := negb (String.eqb (areaLightName gs) "") in
     let s1 :=
       if pending
       then set_areaLights
              (push_back (areaLights s)
                 (MkEntity (areaLightName gs) (areaLightParams gs) (areaLightLoc gs))) s
       else s in
     let areaLightIndex :=
       if pending then to_int (Z.of_nat (length (areaLights s1)) - 1) else (-1)%Z in
     let warn :=
       match currentInstance s with
       | Some _ => if pending then [WarnAreaLightInstancing] else []
       | None => []
       end in
     if CTMIsAnimated (curTransform s) (cameraFromWorldT s) then
       let '(worldFromShape, s2) := lookupCTMs s1 in
       let '(identityPtr, s3) := lookup t_identity s2 in
       let e := MkAnimatedShape (MkEntity name dict loc) worldFromShape identityPtr
                  (reverseOrientation gs) (currentMaterialIndex gs) (currentMaterialName gs)
                  areaLightIndex (currentInsideMedium gs) (currentOutsideMedium gs) in
       match currentInstance s with
       | Some inst =>
         Done (set_instanceDefinitions
                 (alter (fun d => (fst d, push_back (snd d) e)) inst (instanceDefinitions s3))
                 s3) warn
       | None => Done (set_animatedShapes (push_back (animatedShapes s3) e) s3) warn
       end
     else
       let '(worldFromObject, s2) := lookup (CTM 0 s1) s1 in
       let '(objectFromWorld, s3) := lookup (t_inverse (deref worldFromObject s2)) s2 in
       let e := MkShape (MkEntity name dict loc) worldFromObject objectFromWorld
                  (reverseOrientation gs) (currentMaterialIndex gs) (currentMaterialName gs)
                  areaLightIndex (currentInsideMedium gs) (currentOutsideMedium gs) in
       match currentInstance s with
       | Some inst =>
         Done (set_instanceDefinitions
                 (alter (fun d => (push_back (fst d) e, snd d)) inst (instanceDefinitions s3))
                 s3) warn
       | None => Done (set_shapes (push_back (shapes s3) e) s3) warn
       end).

Definition ReverseOrientation (loc : FileLoc) (s : State) : Outcome :=
  VERIFY_WORLD "ReverseOrientation" s
    (let gs := graphicsState s in
     Done (set_graphicsState (set_reverseOrientation (negb (reverseOrientation gs)) gs) s) []).

(** *** Object instancing *)

Definition ObjectBegin (name : string) (loc : FileLoc) (s : State) : Outcome :=
  VERIFY_WORLD "ObjectBegin" s
    (let s1 := set_pushedGraphicsStates
                 (push_back (pushedGraphicsStates s) (graphicsState s)) s in
     let s2 := set_pushedTransforms (push_back (pushedTransforms s1) (curTransform s1)) s1 in
     let s3 := set_pushedActiveTransformBits
                 (push_back (pushedActiveTransformBits s2) (activeTransformBits s2)) s2 in
     let s4 := set_pushStack (push_back (pushStack s3) (KObject, loc)) s3 in
     (* the parameter holding the instance name is allocated but never put
        into [params]: the vector handed to Attribute is empty *)
     and_then (Attribute "shape" [] loc s4) (fun s5 =>
       match currentInstance s5 with
       | Some _ => Exit ErrObjectBeginNested
       | None =>
         match instanceDefinitions s5 !! name with
         | Some _ => Exit (ErrObjectRedefined name)
         | None =>
           Done (set_currentInstance (Some name)
                   (set_instanceDefinitions (<[name := ([], [])]> (instanceDefinitions s5)) s5))
                []
         end
       end)).

Definition ObjectEnd (loc : FileLoc) (s : State) : Outcome :=
  VERIFY_WORLD "ObjectEnd" s
    match currentInstance s with
    | None => Exit ErrObjectEndOutside
    | Some _ =>
      match restoreAll (set_currentInstance None s) with
      | Some s1 => closeScope KObject s1
      | None => Undefined
      end
    end.

Definition ObjectInstance (name : string) (loc : FileLoc) (s : State) : Outcome :=
  VERIFY_WORLD "ObjectInstance" s
    match currentInstance s with
    | Some _ => Exit ErrObjectInstanceInside
    | None =>
      let worldFromCameraT := ts_Inverse (cameraFromWorldT s) in
      if CTMIsAnimated (curTransform s) (cameraFromWorldT s) then
        let '(p0, s1) := lookup (t_mul (CTM 0 s) (ts_get 0 worldFromCameraT)) s in
        let '(p1, s2) := lookup (t_mul (CTM 1 s) (ts_get 1 worldFromCameraT)) s1 in
        let animated := MkAnimatedTransform p0 (transformStartTime s) p1 (transformEndTime s) in
        Done (set_instances (push_back (instances s2) (MkInstance name loc (Some animated) None))
                s2) []
      else
        let '(p, s1) := lookup (t_mul (CTM 0 s) (ts_get 0 worldFromCameraT)) s in
        Done (set_instances (push_back (instances s1) (MkInstance name loc None (Some p))) s1) []
    end.

(** *** The directive stream *)

(** One constructor per directive of the interface.  [WorldEnd], which hands
    the scene over to the render driver and closes the stream, is not among
    them. *)
Inductive Directive :=
| DOption (name value : string) (loc : FileLoc)
| DIdentity (loc : FileLoc)
| DTranslate (dx dy dz : Float) (loc : FileLoc)
| DTransform (tr : list Float) (loc : FileLoc)
| DConcatTransform (tr : list Float) (loc : FileLoc)
| DRotate (angle dx dy dz : Float) (loc : FileLoc)
| DScale (sx sy sz : Float) (loc : FileLoc)
| DLookAt (ex ey ez lx ly lz ux uy uz : Float) (loc : FileLoc)
| DCoordinateSystem (name : string) (loc : FileLoc)
| DCoordSysTransform (name : string) (loc : FileLoc)
| DActiveTransformAll (loc : FileLoc)
| DActiveTransformEndTime (loc : FileLoc)
| DActiveTransformStartTime (loc : FileLoc)
| DTransformTimes (start end_ : Float) (loc : FileLoc)
| DColorSpace (n : string) (loc : FileLoc)
| DPixelFilter (name : string) (params : ParsedParameterVector) (loc : FileLoc)
| DFilm (type : string) (params : ParsedParameterVector) (loc : FileLoc)
| DSampler (name : string) (params : ParsedParameterVector) (loc : FileLoc)
| DAccelerator (name : string) (params : ParsedParameterVector) (loc : FileLoc)
| DIntegrator (name : string) (params : ParsedParameterVector) (loc : FileLoc)
| DCamera (name : string) (params : ParsedParameterVector) (loc : FileLoc)
| DMakeNamedMedium (name : string) (params : ParsedParameterVector) (loc : FileLoc)
| DMediumInterface (insideName outsideName : string) (loc : FileLoc)
| DWorldBegin (loc : FileLoc)
| DAttributeBegin (loc : FileLoc)
| DAttributeEnd (loc : FileLoc)
| DAttribute (target : string) (attrib : ParsedParameterVector) (loc : FileLoc)
| DTransformBegin (loc : FileLoc)
| DTransformEnd (loc : FileLoc)
| DTexture (name type texname : string) (params : ParsedParameterVector) (loc : FileLoc)
| DMaterial (name : string) (params : ParsedParameterVector) (loc : FileLoc)
| DMakeNamedMaterial (name : string) (params : ParsedParameterVector) (loc : FileLoc)
| DNamedMaterial (name : string) (loc : FileLoc)
| DLightSource (name : string) (params : ParsedParameterVector) (loc : FileLoc)
| DAreaLightSource (name : string) (params : ParsedParameterVector) (loc : FileLoc)
| DShape (name : string) (params : ParsedParameterVector) (loc : FileLoc)
| DReverseOrientation (loc : FileLoc)
| DObjectBegin (name : string) (loc : FileLoc)
| DObjectEnd (loc : FileLoc)
| DObjectInstance (name : string) (loc : FileLoc).

Definition step (d : Directive) (s : State) : Outcome :=
  match d with
  | DOption name value loc => Option name value loc s
  | DIdentity loc => Identity loc s
  | DTranslate dx dy dz loc => Translate dx dy dz loc s
  | DTransform tr loc => Transform tr loc s
  | DConcatTransform tr loc => ConcatTransform tr loc s
  | DRotate angle dx dy dz loc => Rotate angle dx dy dz loc s
  | DScale sx sy sz loc => Scale sx sy sz loc s
  | DLookAt ex ey ez lx ly lz ux uy uz loc => LookAt ex ey ez lx ly lz ux uy uz loc s
  | DCoordinateSystem name loc => CoordinateSystem name loc s
  | DCoordSysTransform name loc => CoordSysTransform name loc s
  | DActiveTransformAll loc => ActiveTransformAll loc s
  | DActiveTransformEndTime loc => ActiveTransformEndTime loc s
  | DActiveTransformStartTime loc => ActiveTransformStartTime loc s
  | DTransformTimes start end_ loc => TransformTimes start end_ loc s
  | DColorSpace n loc => ColorSpace n loc s
  | DPixelFilter name params loc => PixelFilter name params loc s
  | DFilm type params loc => Film type params loc s
  | DSampler name params loc => Sampler name params loc s
  | DAccelerator name params loc => Accelerator name params loc s
  | DIntegrator name params loc => Integrator name params loc s
  | DCamera name params loc => Camera name params loc s
  | DMakeNamedMedium name params loc => MakeNamedMedium name params loc s
  | DMediumInterface insideName outsideName loc => MediumInterface insideName outsideName loc s
  | DWorldBegin loc => WorldBegin loc s
  | DAttributeBegin loc => AttributeBegin loc s
  | DAttributeEnd loc => AttributeEnd loc s
  | DAttribute target attrib loc => Attribute target attrib loc s
  | DTransformBegin loc => TransformBegin loc s
  | DTransformEnd loc => TransformEnd loc s
  | DTexture name type texname params loc => Texture name type texname params loc s
  | DMaterial name params loc => Material name params loc s
  | DMakeNamedMaterial name params loc => MakeNamedMaterial name params loc s
  | DNamedMaterial name loc => NamedMaterial name loc s
  | DLightSource name params loc => LightSource name params loc s
  | DAreaLightSource name params loc => AreaLightSource name params loc s
  | DShape name params loc => Shape name params loc s
  | DReverseOrientation loc => ReverseOrientation loc s
  | DObjectBegin name loc => ObjectBegin name loc s
  | DObjectEnd loc => ObjectEnd loc s
  | DObjectInstance name loc => ObjectInstance name loc s
  end.

(** The directives of a stream are applied strictly in call order; a fatal
    error ends the run. *)
Fixpoint run (ds : list Directive) (s : State) : Outcome :=
  match ds with
  | [] => Done s []
  | d :: ds' => and_then (step d s) (run ds')
  end.

(** *** Notions used in the statements *)

(** AttributeBegin and ObjectBegin save the graphics state, TransformBegin
    does not. *)
Definition opens_graphics (k : NestingKind) : bool :=
  match k with KTransform => false | _ => true end.

(** The four stacks agree: one saved transform set and one saved bitmask per
    open scope, one saved graphics state per open attribute or object scope. *)
Definition stacks_consistent (s : State) : Prop :=
  length (pushedTransforms s) = length (pushStack s) /\
  length (pushedActiveTransformBits s) = length (pushStack s) /\
  length (pushedGraphicsStates s)
  = length (List.filter opens_graphics (map fst (pushStack s))).

Definition is_scope (d : Directive) : bool :=
  match d with
  | DAttributeBegin _ | DAttributeEnd _ | DTransformBegin _ | DTransformEnd _
  | DObjectBegin _ _ | DObjectEnd _ => true
  | _ => false
  end.

(** Well-nested streams: every Begin is closed by the End of its own kind. *)
Inductive well_nested : list Directive -> Prop :=
| wn_nil : well_nested []
| wn_plain d ds : is_scope d = false -> well_nested ds -> well_nested (d :: ds)
| wn_attribute l1 l2 body rest :
    well_nested body -> well_nested rest ->
    well_nested (DAttributeBegin l1 :: body ++ DAttributeEnd l2 :: rest)
| wn_transform l1 l2 body rest :
    well_nested body -> well_nested rest ->
    well_nested (DTransformBegin l1 :: body ++ DTransformEnd l2 :: rest)
| wn_object name l1 l2 body rest :
    well_nested body -> well_nested rest ->
    well_nested (DObjectBegin name l1 :: body ++ DObjectEnd l2 :: rest).

(** The part of the scene that tells which scopes are open. *)
Definition same_scopes (s s' : State) : Prop :=
  currentApiState s' = currentApiState s /\
  pushedGraphicsStates s' = pushedGraphicsStates s /\
  pushedTransforms s' = pushedTransforms s /\
  pushedActiveTransformBits s' = pushedActiveTransformBits s /\
  pushStack s' = pushStack s /\
  currentInstance s' = currentInstance s.

(** [opened k loc s s1]: in [s1] the innermost open scope is the one a Begin
    of kind [k] opened in the world block on the scene [s]. *)
Definition opened (k : NestingKind) (loc : FileLoc) (s s1 : State) : Prop :=
  currentApiState s1 = WorldBlock /\
  pushedGraphicsStates s1
  = (if opens_graphics k then push_back (pushedGraphicsStates s) (graphicsState s)
     else pushedGraphicsStates s) /\
  pushedTransforms s1 = push_back (pushedTransforms s) (curTransform s) /\
  pushedActiveTransformBits s1
  = push_back (pushedActiveTransformBits s) (activeTransformBits s) /\
  pushStack s1 = push_back (pushStack s) (k, loc).

(** [closed s0 s']: the stacks, the current transform and the active bits of
    [s'] are those of [s0]. *)
Definition closed (s0 s' : State) : Prop :=
  currentApiState s' = WorldBlock /\
  pushedGraphicsStates s' = pushedGraphicsStates s0 /\
  pushedTransforms s' = pushedTransforms s0 /\
  pushedActiveTransformBits s' = pushedActiveTransformBits s0 /\
  pushStack s' = pushStack s0 /\
  curTransform s' = curTransform s0 /\
  activeTransformBits s' = activeTransformBits s0.

(** The scene a finished run leaves, [dflt] when it did not finish. *)
Definition state_of (o : Outcome) (dflt : State) : State :=
  match o with Done s _ => s | _ => dflt end.


(** The stacks are consistent and an open instance definition has its
    ObjectBegin marker on [pushStack]. *)
Definition scopes_wf (s : State) : Prop :=
  stacks_consistent s /\
  (currentInstance s <> None -> In KObject (map fst (pushStack s))).

(** A call that did not go through: it ended the run, or it returned after
    reporting an error with the scene as it was. *)
Definition rejected (s : State) (o : Outcome) : Prop :=
  match o with
  | Exit _ => True
  | Done s' log => s' = s /\ log <> []
  | Undefined => False
  end.

(** The directives whose bodies start with [VERIFY_WORLD], those that start
    with [VERIFY_OPTIONS], and the name each directive hands to its macro. *)
Definition world_only (d : Directive) : bool :=
  match d with
  | DAttributeBegin _ | DAttributeEnd _ | DTransformBegin _ | DTransformEnd _
  | DTexture _ _ _ _ _ | DMaterial _ _ _ | DMakeNamedMaterial _ _ _ | DNamedMaterial _ _
  | DLightSource _ _ _ | DAreaLightSource _ _ _ | DShape _ _ _ | DReverseOrientation _
  | DObjectBegin _ _ | DObjectEnd _ | DObjectInstance _ _ => true
  | _ => false
  end.

Definition options_only (d : Directive) : bool :=
  match d with
  | DTransformTimes _ _ _ | DPixelFilter _ _ _ | DFilm _ _ _ | DSampler _ _ _
  | DAccelerator _ _ _ | DIntegrator _ _ _ | DCamera _ _ _ | DWorldBegin _ => true
  | _ => false
  end.

Definition func_name (d : Directive) : string :=
  match d with
  | DOption _ _ _ => "Option"
  | DIdentity _ => "Identity"
  | DTranslate _ _ _ _ => "Translate"
  | DTransform _ _ => "Transform"
  | DConcatTransform _ _ => "ConcatTransform"
  | DRotate _ _ _ _ _ => "Rotate"
  | DScale _ _ _ _ => "Scale"
  | DLookAt _ _ _ _ _ _ _ _ _ _ => "LookAt"
  | DCoordinateSystem _ _ => "CoordinateSystem"
  | DCoordSysTransform _ _ => "CoordSysTransform"
  | DActiveTransformAll _ => "ActiveTransformAll"
  | DActiveTransformEndTime _ => "ActiveTransformEndTime"
  | DActiveTransformStartTime _ => "ActiveTransformStartTime"
  | DTransformTimes _ _ _ => "TransformTimes"
  | DColorSpace _ _ => "RGBColorSpace"
  | DPixelFilter _ _ _ => "PixelFilter"
  | DFilm _ _ _ => "Film"
  | DSampler _ _ _ => "Sampler"
  | DAccelerator _ _ _ => "Accelerator"
  | DIntegrator _ _ _ => "Integrator"
  | DCamera _ _ _ => "Camera"
  | DMakeNamedMedium _ _ _ => "MakeNamedMedium"
  | DMediumInterface _ _ _ => "MediumInterface"
  | DWorldBegin _ => "WorldBegin"
  | DAttributeBegin _ => "AttributeBegin"
  | DAttributeEnd _ => "AttributeEnd"
  | DAttribute _ _ _ => "Attribute"
  | DTransformBegin _ => "TransformBegin"
  | DTransformEnd _ => "TransformEnd"
  | DTexture _ _ _ _ _ => "Texture"
  | DMaterial _ _ _ => "Material"
  | DMakeNamedMaterial _ _ _ => "MakeNamedMaterial"
  | DNamedMaterial _ _ => "NamedMaterial"
  | DLightSource _ _ _ => "LightSource"
  | DAreaLightSource _ _ _ => "AreaLightSource"
  | DShape _ _ _ => "Shape"
  | DReverseOrientation _ => "ReverseOrientation"
  | DObjectBegin _ _ => "ObjectBegin"
  | DObjectEnd _ => "ObjectEnd"
  | DObjectInstance _ _ => "ObjectInstance"
  end.

Definition is_world_rejection (m : Diagnostic) : bool :=
  match m with ErrSceneInOptions _ => true | _ => false end.

Definition is_init_rejection (m : Diagnostic) : bool :=
  match m with ErrBeforeInit _ => true | _ => false end.

(** [slot_updated i f s o]: the call returned without a message and slot [i]
    of the current transform is [f] of its old value if the active bits select
    [i], its old value otherwise. *)
Definition slot_updated (i : nat) (f : pbrt.Transform -> pbrt.Transform) (s : State)
    (o : Outcome) : Prop :=
  exists s', o = Done s' [] /\
    ts_get i (curTransform s')
    = if active (activeTransformBits s) i then f (ts_get i (curTransform s))
      else ts_get i (curTransform s).



Definition sets_material (d : Directive) : bool :=
  match d with
  | DMaterial _ _ _ | DNamedMaterial _ _ => true
  | _ => false
  end.

(** Every shape entity of the scene, top-level or inside an instance
    definition, has a material reference satisfying [P]. *)
Definition shapes_reference (P : Z -> string -> Prop) (s : State) : Prop :=
  Forall (fun e => P (sh_materialIndex e) (sh_materialName e)) (shapes s) /\
  Forall (fun e => P (ash_materialIndex e) (ash_materialName e)) (animatedShapes s) /\
  map_Forall (fun _ d =>
                Forall (fun e => P (sh_materialIndex e) (sh_materialName e)) (fst d) /\
                Forall (fun e => P (ash_materialIndex e) (ash_materialName e)) (snd d))
             (instanceDefinitions s).

Definition default_reference (i : Z) (n : string) : Prop := i = 0%Z /\ n = "".

Definition graphics_default (g : GraphicsState) : Prop :=
  default_reference (currentMaterialIndex g) (currentMaterialName g).

(** The pending area light of a graphics state. *)
Definition pending (g : GraphicsState) : string * ParameterDictionary * FileLoc :=
  (areaLightName g, areaLightParams g, areaLightLoc g).

Definition pending_entity (g : GraphicsState) : GeneralSceneEntity :=
  MkEntity (areaLightName g) (areaLightParams g) (areaLightLoc g).

(** A shape entity of either storage, and the list a Shape call appends it
    to: the open instance definition if there is one, the scene's own lists
    otherwise. *)
Inductive AnyShape :=
| StaticShape (e : ShapeSceneEntity)
| AnimatedShape (e : AnimatedShapeSceneEntity).

Definition lightIndex (e : AnyShape) : Z :=
  match e with
  | StaticShape e => sh_lightIndex e
  | AnimatedShape e => ash_lightIndex e
  end.

Definition shape_appended (s s' : State) (e : AnyShape) : Prop :=
  match currentInstance s, e with
  | None, StaticShape e => shapes s' = push_back (shapes s) e
  | None, AnimatedShape e => animatedShapes s' = push_back (animatedShapes s) e
  | Some inst, StaticShape e =>
    instanceDefinitions s'
    = alter (fun d => (push_back (fst d) e, snd d)) inst (instanceDefinitions s)
  | Some inst, AnimatedShape e =>
    instanceDefinitions s'
    = alter (fun d => (fst d, push_back (snd d) e)) inst (instanceDefinitions s)
  end.

Definition changes_pending (d : Directive) : bool :=
  match d with
  | DAreaLightSource _ _ _ | DAttributeEnd _ | DObjectEnd _ => true
  | _ => false
  end.


(** The scene has met no Material and no NamedMaterial directive yet. *)
Definition default_material_only (s : State) : Prop :=
  graphics_default (graphicsState s) /\
  Forall graphics_default (pushedGraphicsStates s) /\
  shapes_reference default_reference s /\
  materials s = [MkEntity "diffuse" (Dict [] cs_sRGB) loc_default].

(** The call or run returned without printing a message. *)
Definition finished (o : Outcome) : bool :=
  match o with Done _ [] => true | _ => false end.


(** *** Notions of the further properties *)

(** A Begin directive and the End directive of its kind. *)
Definition scope_pair (b e : Directive) : bool :=
  match b, e with
  | DAttributeBegin _, DAttributeEnd _ | DTransformBegin _, DTransformEnd _
  | DObjectBegin _ _, DObjectEnd _ => true
  | _, _ => false
  end.

(** The diagnostics of the nesting checks of the End directives. *)
Definition is_nesting_error (m : Diagnostic) : bool :=
  match m with
  | ErrUnmatchedAttributeEnd | ErrUnmatchedTransformEnd | ErrMismatchedNesting _ _ _
  | ErrObjectEndOutside => true
  | _ => false
  end.

(** The call or run met no nesting diagnostic and no undefined behaviour. *)
Definition no_nesting_error (o : Outcome) : Prop :=
  match o with
  | Done _ log => Forall (fun m => is_nesting_error m = false) log
  | Exit m => is_nesting_error m = false
  | Undefined => False
  end.

(** The directives that may write the entry [name] of
    [namedCoordinateSystems]: CoordinateSystem of that name, Camera for
    "camera" and WorldBegin for "world". *)
Definition writes_coordsys (name : string) (d : Directive) : bool :=
  match d with
  | DCoordinateSystem n _ => String.eqb n name
  | DCamera _ _ _ => String.eqb name "camera"
  | DWorldBegin _ => String.eqb name "world"
  | _ => false
  end.

(** The expression a transform directive assigns to the active slots, as a
    function of the slot's old value. *)
Definition assigned (d : Directive) : option (pbrt.Transform -> pbrt.Transform) :=
  match d with
  | DIdentity _ => Some (fun _ => t_identity)
  | DTranslate dx dy dz _ => Some (fun cur => t_mul cur (t_translate dx dy dz))
  | DTransform tr _ => Some (fun _ => t_transpose (t_of_matrix tr))
  | DConcatTransform tr _ => Some (fun cur => t_mul cur (t_transpose (t_of_matrix tr)))
  | DRotate angle dx dy dz _ => Some (fun cur => t_mul cur (t_rotate angle dx dy dz))
  | DScale sx sy sz _ => Some (fun cur => t_mul cur (t_scale sx sy sz))
  | DLookAt ex ey ez lx ly lz ux uy uz _ =>
    Some (fun cur => t_mul cur (t_lookat [ex; ey; ez; lx; ly; lz; ux; uy; uz]))
  | _ => None
  end.

(** [grows s s']: every entity of [s] is still in [s'], at the same position
    of its list or under the same name. *)
Definition grows (s s' : State) : Prop :=
  materials s `prefix_of` materials s' /\
  lights s `prefix_of` lights s' /\
  areaLights s `prefix_of` areaLights s' /\
  shapes s `prefix_of` shapes s' /\
  animatedShapes s `prefix_of` animatedShapes s' /\
  instances s `prefix_of` instances s' /\
  floatTextures s `prefix_of` floatTextures s' /\
  spectrumTextures s `prefix_of` spectrumTextures s' /\
  namedMaterials s ⊆ namedMaterials s' /\
  media s ⊆ media s' /\
  (forall n d, instanceDefinitions s !! n = Some d ->
     exists d', instanceDefinitions s' !! n = Some d' /\
                fst d `prefix_of` fst d' /\ snd d `prefix_of` snd d').

Definition is_shape (d : Directive) : bool :=
  match d with DShape _ _ _ => true | _ => false end.

Definition is_object_end (d : Directive) : bool :=
  match d with DObjectEnd _ => true | _ => false end.

(** The attribute list of the graphics state that a target name selects. *)
Definition attribute_list (target : string) (g : GraphicsState)
    : option ParsedParameterVector :=
  if String.eqb target "shape" then Some (shapeAttributes g)
  else if String.eqb target "light" then Some (lightAttributes g)
  else if String.eqb target "material" then Some (materialAttributes g)
  else if String.eqb target "medium" then Some (mediumAttributes g)
  else if String.eqb target "texture" then Some (textureAttributes g)
  else None.

(** A parameter marked as possibly unused and tied to a colour space. *)
Definition held (cs : RGBColorSpace) (p : ParsedParameter) : ParsedParameter :=
  MkParsedParameter (pp_type p) (pp_name p) (pp_numbers p) (pp_ints p) (pp_strings p)
                    (pp_bools p) true (Some cs).

(** An index into an entity list of [n] elements, or -1 for none. *)
Definition index_ok (n : nat) (i : Z) : Prop := i = (-1)%Z \/ (0 <= i < Z.of_nat n)%Z.

Definition materialIndex (e : AnyShape) : Z :=
  match e with
  | StaticShape e => sh_materialIndex e
  | AnimatedShape e => ash_materialIndex e
  end.

(** Every shape entity of the scene, top-level or inside an instance
    definition, satisfies [P]. *)
Definition every_shape (P : AnyShape -> Prop) (s : State) : Prop :=
  Forall (fun e => P (StaticShape e)) (shapes s) /\
  Forall (fun e => P (AnimatedShape e)) (animatedShapes s) /\
  map_Forall (fun _ d => Forall (fun e => P (StaticShape e)) (fst d) /\
                         Forall (fun e => P (AnimatedShape e)) (snd d))
             (instanceDefinitions s).

(** The material indices of the graphics states and the material and
    area-light indices of the shapes are positions of lists of [nm] and [nl]
    elements. *)
Definition indices_in (nm nl : nat) (s : State) : Prop :=
  index_ok nm (currentMaterialIndex (graphicsState s)) /\
  Forall (fun g => index_ok nm (currentMaterialIndex g)) (pushedGraphicsStates s) /\
  every_shape (fun e => index_ok nm (materialIndex e) /\ index_ok nl (lightIndex e)) s.

Definition indices_ok (s : State) : Prop :=
  indices_in (length (materials s)) (length (areaLights s)) s.

(** Handles into a transform cache.  [stored_as x v]: [v] is what a lookup
    of [x] points to, [x] itself or a stored transform equal to it. *)
Definition valid (c : TransformCache.t) (p : TransformCache.Ptr) : Prop :=
  is_Some (TransformCache.arena c !! p).

Definition valid_animated (c : TransformCache.t) (a : AnimatedTransform) : Prop :=
  valid c (at_start a) /\ valid c (at_end a).

Definition stored_as (x v : pbrt.Transform) : Prop := v = x \/ t_eqb v x = true.

Definition shape_handles (c : TransformCache.t) (e : AnyShape) : Prop :=
  match e with
  | StaticShape e =>
    exists v w,
      TransformCache.arena c !! sh_worldFromObject e = Some v /\
      TransformCache.arena c !! sh_objectFromWorld e = Some w /\
      stored_as (t_inverse v) w
  | AnimatedShape e =>
    valid_animated c (ash_worldFromObject e) /\
    exists v, TransformCache.arena c !! ash_identity e = Some v /\ stored_as t_identity v
  end.

Definition option_holds {A} (P : A -> Prop) (o : option A) : Prop :=
  match o with Some a => P a | None => True end.

(** Every handle held by an entity of the scene points into the cache [c]. *)
Definition handles_in (c : TransformCache.t) (s : State) : Prop :=
  every_shape (shape_handles c) s /\
  Forall (fun e => valid_animated c (l_worldFromLight e)) (lights s) /\
  map_Forall (fun _ e => valid_animated c (tr_worldFromObject e)) (media s) /\
  Forall (fun t => valid_animated c (tr_worldFromObject (snd t))) (floatTextures s) /\
  Forall (fun t => valid_animated c (tr_worldFromObject (snd t))) (spectrumTextures s) /\
  Forall (fun i => option_holds (valid_animated c) (i_worldFromInstanceAnim i) /\
                   option_holds (valid c) (i_worldFromInstance i)) (instances s) /\
  option_holds (valid_animated c) (cam_worldFromCamera (camera s)).

Definition handles_ok (s : State) : Prop := handles_in (transformCache s) s.

(** *** WorldEnd, up to the render call *)

(** The two warnings of [WorldEnd]. *)
Inductive WorldEndWarning :=
| WarnMissingAttributeEnd        (* Missing end to AttributeBegin *)
| WarnMissingTransformEnd.       (* Missing end to TransformBegin *)

(** [while (!pushedGraphicsStates.empty())]: one round per pushed graphics
    state, taken from the back ([backFirst] lists them in that order).  A
    round warns and pops both [pushedGraphicsStates] and [pushedTransforms];
    the result is the [pushedTransforms] left, [None] when
    [pushedTransforms.pop_back()] meets an empty vector. *)
Fixpoint dropGraphicsStates (backFirst : list GraphicsState)
    (transforms : list (TransformSet pbrt.Transform))
    : option (list (TransformSet pbrt.Transform) * list WorldEndWarning) :=
  match backFirst with
  | [] => Some (transforms, [])
  | _ :: rest =>
    match transforms with
    | [] => None
    | _ =>
      match dropGraphicsStates rest (pop_back transforms) with
      | Some (remaining, warnings) => Some (remaining, WarnMissingAttributeEnd :: warnings)
      | None => None
      end
    end
  end.

(** [while (!pushedTransforms.empty())]: one round, with its warning, per
    pushed transform. *)
Fixpoint dropTransforms (backFirst : list (TransformSet pbrt.Transform))
    : list WorldEndWarning :=
  match backFirst with
  | [] => []
  | _ :: rest => WarnMissingTransformEnd :: dropTransforms rest
  end.

(** The statements of [GeneralScene::WorldEnd] between [VERIFY_WORLD] and the
    call of the render function: the scopes still open are dropped, with a
    warning each. *)
Definition WorldEnd_unwind (s : State) : option (State * list WorldEndWarning) :=
  match dropGraphicsStates (rev (pushedGraphicsStates s)) (pushedTransforms s) with
  | Some (remaining, warnings) =>
    Some (set_pushedTransforms [] (set_pushedGraphicsStates [] s),
          warnings ++ dropTransforms (rev remaining))
  | None => None
  end.

(** A string between two double-quote characters. *)
Definition quoted (inner : string) : string :=
  String quote_char (inner +:+ String quote_char EmptyString).

Definition is_medium_interface (d : Directive) : bool :=
  match d with DMediumInterface _ _ _ => true | _ => false end.

(** [a] carries the shutter interval of the scene. *)
Definition times_of (s : State) (a : AnimatedTransform) : Prop :=
  at_startTime a = transformStartTime s /\ at_endTime a = transformEndTime s.

(** The entities that only the world block can declare carry the scene's
    shutter interval in their animated transforms. *)
Definition world_entities_timed (s : State) : Prop :=
  Forall (fun e => times_of s (l_worldFromLight e)) (lights s) /\
  Forall (fun t => times_of s (tr_worldFromObject (snd t))) (floatTextures s) /\
  Forall (fun t => times_of s (tr_worldFromObject (snd t))) (spectrumTextures s) /\
  Forall (fun e => times_of s (ash_worldFromObject e)) (animatedShapes s) /\
  map_Forall (fun _ d => Forall (fun e => times_of s (ash_worldFromObject e)) (snd d))
             (instanceDefinitions s) /\
  Forall (fun i => option_holds (times_of s) (i_worldFromInstanceAnim i)) (instances s).

Definition no_world_entities (s : State) : Prop :=
  lights s = [] /\ areaLights s = [] /\ shapes s = [] /\ animatedShapes s = [] /\
  instances s = [] /\ floatTextures s = [] /\ spectrumTextures s = [] /\
  instanceDefinitions s = ∅ /\ namedMaterials s = ∅ /\ pushStack s = [].
End Model.
End GeneralScene.

Arguments GeneralScene.back : simpl never.
Arguments GeneralScene.pop_back : simpl never.
Arguments GeneralScene.push_back : simpl never.

(** ** A symbolic implementation of the interface

    Transforms are kept as the expressions that built them, compared
    structurally; numbers are integers and a source location is a line
    number.  It serves to run the interpreter on concrete streams. *)

Module Sym.

Inductive T :=
| Id
| Mul (a b : T)
| Inv (a : T)
| Transp (a : T)
| OfMatrix (m : list Z)
| Trans (x y z : Z)
| Rot (angle x y z : Z)
| Scal (x y z : Z)
| Look (coords : list Z)
| CamOffset (a : T).

Fixpoint coords_eqb (l1 l2 : list Z) : bool :=
  match l1, l2 with
  | [], [] => true
  | x :: l1', y :: l2' => Z.eqb x y && coords_eqb l1' l2'
  | _, _ => false
  end.

(** Structural equality of transform expressions. *)
Fixpoint eqb (a b : T) : bool :=
  match a, b with
  | Id, Id => true
  | Mul a1 a2, Mul b1 b2 => eqb a1 b1 && eqb a2 b2
  | Inv a1, Inv b1 => eqb a1 b1
  | Transp a1, Transp b1 => eqb a1 b1
  | OfMatrix m, OfMatrix n => coords_eqb m n
  | Trans x y z, Trans x' y' z' => Z.eqb x x' && Z.eqb y y' && Z.eqb z z'
  | Rot r x y z, Rot r' x' y' z' => Z.eqb r r' && Z.eqb x x' && Z.eqb y y' && Z.eqb z z'
  | Scal x y z, Scal x' y' z' => Z.eqb x x' && Z.eqb y y' && Z.eqb z z'
  | Look c, Look c' => coords_eqb c c'
  | CamOffset a1, CamOffset b1 => eqb a1 b1
  | _, _ => false
  end.

Fixpoint size (a : T) : N :=
  match a with
  | Mul a b => (1 + size a + size b)%N
  | Inv a | Transp a | CamOffset a => (1 + size a)%N
  | _ => 1%N
  end.

Inductive CS := sRGB | Rec2020 | ACES | DCI_P3.

Definition GetNamed (n : string) : option CS :=
  if String.eqb n "srgb" then Some sRGB
  else if String.eqb n "rec2020" then Some Rec2020
  else if String.eqb n "aces2065-1" then Some ACES
  else if String.eqb n "dci-p3" then Some DCI_P3
  else None.

Definition inverse_set (ts : TransformSet T) : TransformSet T :=
  MkTransformSet (Inv (ts_start ts)) (Inv (ts_end ts)).

Definition ctm (cur cam : TransformSet T) (i : nat) : T := Mul (ts_get i cam) (ts_get i cur).

#[global] Instance lib : PbrtLib := {|
  Float := Z;
  f_lit := fun z => z;
  Transform := T;
  t_identity := Id;
  t_mul := Mul;
  t_inverse := Inv;
  t_transpose := Transp;
  t_of_matrix := OfMatrix;
  t_translate := Trans;
  t_rotate := Rot;
  t_scale := Scal;
  t_lookat := Look;
  t_camera_offset := CamOffset;
  t_eqb := eqb;
  t_hash := size;
  ts_Inverse := inverse_set;
  ts_IsAnimated := fun ts => negb (eqb (ts_start ts) (ts_end ts));
  bucket_count := fun n => Pos.of_succ_nat (2 * n);
  GetCTM := ctm;
  CTMIsAnimated := fun cur cam => negb (eqb (ctm cur cam 0) (ctm cur cam 1));
  RGBColorSpace := CS;
  cs_sRGB := sRGB;
  cs_GetNamed := GetNamed;
  normalizeArg := fun s => s;
  atoi := fun _ => 0%Z;
  FileLoc := nat;
  loc_default := 0%nat
|}.

(** The constructed scene, and the scene at the start of the world block. *)
Definition fresh : GeneralScene.State := GeneralScene.GeneralScene.

Definition world : GeneralScene.State :=
  GeneralScene.state_of (GeneralScene.run [GeneralScene.DWorldBegin 1%nat] fresh) fresh.

End Sym.


(** A variant of the symbolic implementation in which the transform built
    from the empty matrix stands for a matrix holding a NaN: [operator==]
    answers false on it, also against itself. *)
Module SymNaN.

Definition is_nan (a : Sym.T) : bool :=
  match a with Sym.OfMatrix [] => true | _ => false end.

Definition eqb (a b : Sym.T) : bool := negb (is_nan a) && Sym.eqb a b.

Definition lib : PbrtLib := {|
  Float := Z;
  f_lit := fun z => z;
  Transform := Sym.T;
  t_identity := Sym.Id;
  t_mul := Sym.Mul;
  t_inverse := Sym.Inv;
  t_transpose := Sym.Transp;
  t_of_matrix := Sym.OfMatrix;
  t_translate := Sym.Trans;
  t_rotate := Sym.Rot;
  t_scale := Sym.Scal;
  t_lookat := Sym.Look;
  t_camera_offset := Sym.CamOffset;
  t_eqb := eqb;
  t_hash := Sym.size;
  ts_Inverse := Sym.inverse_set;
  ts_IsAnimated := fun ts => negb (eqb (ts_start ts) (ts_end ts));
  bucket_count := fun n => Pos.of_succ_nat (2 * n);
  GetCTM := Sym.ctm;
  CTMIsAnimated := fun cur cam => negb (eqb (Sym.ctm cur cam 0) (Sym.ctm cur cam 1));
  RGBColorSpace := Sym.CS;
  cs_sRGB := Sym.sRGB;
  cs_GetNamed := Sym.GetNamed;
  normalizeArg := fun s => s;
  atoi := fun _ => 0%Z;
  FileLoc := nat;
  loc_default := 0%nat
|}.

End SymNaN.
(** * Properties *)

Import GeneralScene.

(** ** The transform interner *)

Section TransformCacheFacts.
Context `{L : PbrtLib}.
Import TransformCache.

Lemma bucket_In (c : t) (offset : N) (p : Ptr) (v : pbrt.Transform) :
  In (p, v) (bucket c offset) <->
  arena c !! p = Some v /\
  (t_hash v mod Npos (bucket_count (length (arena c))))%N = offset.
Proof.
  unfold bucket. rewrite filter_In, <- list_elem_of_In, elem_of_lookup_imap. simpl.
  rewrite N.eqb_eq. split.
  - intros [(i & x & Heq & Hi) Hh]. inversion Heq; subst. auto.
  - intros [Hi Hh]. split; [exists p, v; auto | exact Hh].
Qed.

(** What [Lookup] returns: an existing handle to an equal value, with the
    cache untouched, or a fresh handle to a copy of the argument. *)
Lemma Lookup_cases (x : pbrt.Transform) (c : t) :
  (exists p v, Lookup x c = (p, c) /\ arena c !! p = Some v /\ t_eqb v x = true) \/
  (Lookup x c = (length (arena c), MkCache (arena c ++ [x])) /\
   forall p v, arena c !! p = Some v ->
               t_hash v = t_hash x -> t_eqb v x = false).
Proof.
  unfold Lookup. destruct (arena c) as [|a0 l] eqn:Ha.
  - right. split; [reflexivity|]. intros p v Hp. rewrite lookup_nil in Hp. discriminate.
  - rewrite <- Ha.
    destruct (find _ _) as [[p v]|] eqn:Hf.
    + left. apply find_some in Hf. destruct Hf as [Hin Heq].
      apply bucket_In in Hin. exists p, v. tauto.
    + right. split; [reflexivity|]. intros p v Hp Hh.
      apply (find_none _ _ Hf (p, v)). apply bucket_In. split; [exact Hp|].
      now rewrite Hh.
Qed.

Lemma Lookup_hit (x : pbrt.Transform) (c : t) (i : Ptr) (a : pbrt.Transform) :
  eq_hash_compatible -> interned c ->
  arena c !! i = Some a -> t_eqb a x = true -> Lookup x c = (i, c).
Proof.
  intros (Hsym & Htrans & Hhash) Hint Hi Hax.
  destruct (Lookup_cases x c) as [(p & v & Hl & Hp & Hvx) | [_ Hnone]].
  - rewrite Hl. f_equal. apply (Hint p i v a Hp Hi).
    apply (Htrans v x a); auto.
  - rewrite (Hnone i a Hi (Hhash _ _ Hax)) in Hax. discriminate.
Qed.

Lemma Lookup_spec (x : pbrt.Transform) (c c' : t) (p : Ptr) :
  eq_hash_compatible -> interned c -> Lookup x c = (p, c') ->
  interned c' /\
  (exists ext, arena c' = arena c ++ ext) /\
  (forall y, t_eqb x y = true -> exists v, arena c' !! p = Some v /\ t_eqb v y = true).
Proof.
  intros Hc Hint Hl. pose proof Hc as (Hsym & Htrans & Hhash).
  destruct (Lookup_cases x c) as [(q & v & Hl' & Hq & Hvx) | [Hl' Hnone]];
    rewrite Hl' in Hl; inversion Hl; subst; clear Hl.
  - split; [exact Hint|]. split; [exists []; now rewrite app_nil_r|].
    intros y Hxy. exists v. split; [exact Hq|]. eapply Htrans; eauto.
  - split; [|split].
    + intros i j a b Hi Hj Hab. simpl in Hi, Hj.
      assert (Hfresh : forall k w, arena c !! k = Some w -> t_eqb w x = false).
      { intros k w Hk. destruct (t_eqb w x) eqn:E; [|reflexivity].
        rewrite (Hnone k w Hk (Hhash _ _ E)) in E. discriminate. }
      apply lookup_app_Some in Hi. apply lookup_app_Some in Hj.
      destruct Hi as [Hi | [Hil Hi]], Hj as [Hj | [Hjl Hj]].
      * eapply Hint; eauto.
      * apply list_lookup_singleton_Some in Hj. destruct Hj as [_ <-].
        rewrite (Hfresh i a Hi) in Hab. discriminate.
      * apply list_lookup_singleton_Some in Hi. destruct Hi as [_ <-].
        apply Hsym in Hab. rewrite (Hfresh j b Hj) in Hab. discriminate.
      * apply list_lookup_singleton_Some in Hi. apply list_lookup_singleton_Some in Hj.
        lia.
    + exists [x]. reflexivity.
    + intros y Hxy. exists x. split; [|exact Hxy]. simpl.
      rewrite lookup_app_r by lia. now rewrite Nat.sub_diag.
Qed.



End TransformCacheFacts.

Lemma Sym_coords_eqb_eq (l1 l2 : list Z) : Sym.coords_eqb l1 l2 = true <-> l1 = l2.
Proof.
  revert l2. induction l1 as [|x l1 IH]; intros [|y l2]; simpl; split; try congruence.
  - intros H. apply andb_true_iff in H. destruct H as [Hx Hl].
    apply Z.eqb_eq in Hx. apply IH in Hl. congruence.
  - intros H. inversion H; subst. apply andb_true_iff. split; [apply Z.eqb_refl|].
    now apply IH.
Qed.

Lemma Sym_eqb_eq (a b : Sym.T) : Sym.eqb a b = true <-> a = b.
Proof.
  revert b. induction a; intros []; simpl; split; try congruence;
    rewrite ?andb_true_iff, ?Z.eqb_eq, ?Sym_coords_eqb_eq, ?IHa, ?IHa1, ?IHa2;
    try (intros; f_equal; tauto); intros H; inversion H; subst; tauto.
Qed.

Lemma Sym_eq_hash_compatible : TransformCache.eq_hash_compatible (L := Sym.lib).
Proof.
  repeat split; simpl.
  - intros a b H. apply Sym_eqb_eq in H. apply Sym_eqb_eq. auto.
  - intros a b c H1 H2. apply Sym_eqb_eq in H1, H2. apply Sym_eqb_eq. congruence.
  - intros a b H. apply Sym_eqb_eq in H. now subst.
Qed.

(** ** Running streams *)

Section SceneFacts.
Context `{L : PbrtLib}.

Lemma and_then_Done (o : Outcome) (k : State -> Outcome) (s' : State) (log : list Diagnostic) :
  and_then o k = Done s' log ->
  exists s1 l1 l2, o = Done s1 l1 /\ k s1 = Done s' l2 /\ log = l1 ++ l2.
Proof.
  unfold and_then. destruct o as [s1 l1| |]; try discriminate.
  destruct (k s1) as [s2 l2| |] eqn:Hk; try discriminate.
  intros H. inversion H; subst. eauto 6.
Qed.

Lemma run_app (ds1 ds2 : list Directive) (s : State) :
  run (ds1 ++ ds2) s = and_then (run ds1 s) (run ds2).
Proof.
  revert s. induction ds1 as [|d ds1 IH]; intros s; simpl.
  - destruct (run ds2 s); reflexivity.
  - destruct (step d s) as [s1 l1| |]; simpl; try reflexivity.
    rewrite IH. destruct (run ds1 s1) as [s2 l2| |]; simpl; try reflexivity.
    destruct (run ds2 s2); simpl; try reflexivity. now rewrite app_assoc.
Qed.

Lemma lookup_inv (x : pbrt.Transform) (s s' : State) (p : TransformCache.Ptr) :
  lookup x s = (p, s') -> exists c, s' = set_transformCache c s.
Proof.
  unfold lookup. destruct (TransformCache.Lookup x (transformCache s)) as [q c].
  intros H. inversion H. eauto.
Qed.

Lemma lookupCTMs_inv (s s' : State) (a : AnimatedTransform) :
  lookupCTMs s = (a, s') -> exists c, s' = set_transformCache c s.
Proof.
  unfold lookupCTMs. destruct (lookup (CTM 0 s) s) as [p0 s0] eqn:H0.
  destruct (lookup (CTM 1 s) s0) as [p1 s1] eqn:H1.
  apply lookup_inv in H0, H1. destruct H0 as [c0 ->], H1 as [c1 ->].
  intros H. inversion H. exists c1. reflexivity.
Qed.

Lemma back_Some {A} (l : list A) (x : A) :
  back l = Some x -> l = pop_back l ++ [x].
Proof.
  unfold back, pop_back. intros H. apply last_Some in H. destruct H as [l' ->].
  now rewrite removelast_last.
Qed.

Lemma back_length {A} (l : list A) (x : A) :
  back l = Some x -> length l = S (length (pop_back l)).
Proof.
  intros H. apply back_Some in H. rewrite H at 1. rewrite length_app. simpl. lia.
Qed.

Lemma back_kinds (l : list (NestingKind * FileLoc)) (k : NestingKind) (o : FileLoc) :
  back l = Some (k, o) ->
  length l = S (length (pop_back l)) /\
  length (List.filter opens_graphics (map fst l))
  = (length (List.filter opens_graphics (map fst (pop_back l)))
     + if opens_graphics k then 1 else 0)%nat.
Proof.
  intros H. split; [now apply back_length in H|].
  apply back_Some in H. rewrite H at 1.
  rewrite map_app, List.filter_app, length_app. simpl.
  destruct (opens_graphics k); reflexivity.
Qed.

Lemma back_push_back {A} (l : list A) (x : A) : back (push_back l x) = Some x.
Proof. apply last_snoc. Qed.

Lemma pop_back_push_back {A} (l : list A) (x : A) : pop_back (push_back l x) = l.
Proof. apply removelast_last. Qed.

Lemma push_back_not_nil {A} (l : list A) (x : A) : push_back l x <> [].
Proof. unfold push_back. now destruct l. Qed.

(** The directives that call another function on an intermediate scene,
    with the calls carried out: along these equations the case analyses below
    stay small. *)
Lemma Attribute_shape_nil (loc : FileLoc) (s : State) :
  Attribute "shape" [] loc s
  = VERIFY_INITIALIZED "Attribute" s
      (Done (set_graphicsState
               (set_shapeAttributes (shapeAttributes (graphicsState s) ++ []) (graphicsState s))
               s) []).
Proof. reflexivity. Qed.

Lemma ObjectBegin_eq (name : string) (loc : FileLoc) (s : State) :
  ObjectBegin name loc s
  = VERIFY_WORLD "ObjectBegin" s
      match currentInstance s with
      | Some _ => Exit ErrObjectBeginNested
      | None =>
        match instanceDefinitions s !! name with
        | Some _ => Exit (ErrObjectRedefined name)
        | None =>
          Done (set_currentInstance (Some name)
                  (set_instanceDefinitions (<[name := ([], [])]> (instanceDefinitions s))
                     (set_graphicsState
                        (set_shapeAttributes (shapeAttributes (graphicsState s) ++ [])
                           (graphicsState s))
                        (set_pushStack (push_back (pushStack s) (KObject, loc))
                           (set_pushedActiveTransformBits
                              (push_back (pushedActiveTransformBits s) (activeTransformBits s))
                              (set_pushedTransforms
                                 (push_back (pushedTransforms s) (curTransform s))
                                 (set_pushedGraphicsStates
                                    (push_back (pushedGraphicsStates s) (graphicsState s))
                                    s))))))) []
        end
      end.
Proof.
  unfold ObjectBegin. rewrite Attribute_shape_nil.
  unfold VERIFY_WORLD, VERIFY_INITIALIZED.
  destruct (currentApiState s) eqn:E; try reflexivity.
  cbn [currentApiState set_pushStack set_pushedActiveTransformBits set_pushedTransforms
       set_pushedGraphicsStates].
  rewrite E. unfold and_then.
  destruct (currentInstance s) eqn:Ei;
    cbn [currentInstance set_graphicsState set_pushStack set_pushedActiveTransformBits
         set_pushedTransforms set_pushedGraphicsStates]; rewrite Ei; [reflexivity|].
  cbn [instanceDefinitions set_graphicsState set_pushStack set_pushedActiveTransformBits
       set_pushedTransforms set_pushedGraphicsStates].
  destruct (instanceDefinitions s !! name); reflexivity.
Qed.

Lemma TransformEnd_eq (loc : FileLoc) (s : State) :
  TransformEnd loc s
  = VERIFY_WORLD "TransformEnd" s
      match pushedTransforms s with
      | [] => Done s [ErrUnmatchedTransformEnd]
      | _ :: _ =>
        match back (pushedTransforms s), back (pushedActiveTransformBits s) with
        | Some ct, Some bits =>
          match back (pushStack s) with
          | None => Undefined
          | Some (k, openedAt) =>
            if kind_eqb k KTransform then
              Done (set_pushStack (pop_back (pushStack s))
                      (set_pushedActiveTransformBits (pop_back (pushedActiveTransformBits s))
                         (set_activeTransformBits bits
                            (set_pushedTransforms (pop_back (pushedTransforms s))
                               (set_curTransform ct s))))) []
            else Exit (ErrMismatchedNesting k openedAt KTransform)
          end
        | _, _ => Undefined
        end
      end.
Proof. reflexivity. Qed.

Lemma is_Some_true {A} (x : option A) :
  match x with Some _ => true | None => false end = true -> is_Some x.
Proof. destruct x; [eauto | discriminate]. Qed.

(** A run that finished without a message, as an equation. *)
Lemma finished_Done (o : Outcome) (dflt : State) :
  finished o = true -> o = Done (state_of o dflt) [].
Proof. destruct o as [s [|m log]| |]; simpl; intros H; congruence. Qed.

End SceneFacts.

(** Reduce the projections of updated records, and nothing else. *)
Ltac fields :=
  cbn [currentApiState graphicsState curTransform activeTransformBits namedCoordinateSystems
      transformStartTime transformEndTime cameraFromWorldT transformCache pushedGraphicsStates
      pushedTransforms pushedActiveTransformBits pushStack camera film sampler integrator
      filter_ accelerator namedMaterials materials media floatTextures spectrumTextures
      instanceDefinitions currentInstance lights areaLights shapes animatedShapes instances
      haveScatteringMedia PbrtOptions set_currentApiState set_graphicsState set_curTransform
      set_activeTransformBits set_namedCoordinateSystems set_transformStartTime
      set_transformEndTime set_cameraFromWorldT set_transformCache set_pushedGraphicsStates
      set_pushedTransforms set_pushedActiveTransformBits set_pushStack set_camera set_film
      set_sampler set_integrator set_filter_ set_accelerator set_namedMaterials set_materials
      set_media set_floatTextures set_spectrumTextures set_instanceDefinitions
      set_currentInstance set_lights set_areaLights set_shapes set_animatedShapes
      set_instances set_haveScatteringMedia set_PbrtOptions currentInsideMedium
      currentOutsideMedium currentMaterialIndex currentMaterialName areaLightName
      areaLightParams areaLightLoc colorSpace reverseOrientation shapeAttributes
      lightAttributes materialAttributes mediumAttributes textureAttributes
      set_currentInsideMedium set_currentOutsideMedium set_currentMaterialIndex
      set_currentMaterialName set_areaLightName set_areaLightParams set_areaLightLoc
      set_colorSpace set_reverseOrientation set_shapeAttributes set_lightAttributes
      set_materialAttributes set_mediumAttributes set_textureAttributes disablePixelJitter
      disableWavelengthJitter mseReferenceImage mseReferenceOutput seed forceDiffuse
      recordPixelStatistics set_disablePixelJitter set_disableWavelengthJitter
      set_mseReferenceImage set_mseReferenceOutput set_seed set_forceDiffuse
      set_recordPixelStatistics] in *.

Ltac inv_lookups :=
  repeat match goal with
  | H : lookup _ _ = (_, _) |- _ => apply lookup_inv in H; destruct H as [? ->]
  | H : lookupCTMs _ = (_, _) |- _ => apply lookupCTMs_inv in H; destruct H as [? ->]
  end.

Ltac unfold_directives :=
  unfold step in *;
  rewrite ?ObjectBegin_eq, ?TransformEnd_eq in *;
  unfold Option, option_flag, option_quoted, Identity, Translate, GeneralScene.Transform,
    ConcatTransform, Rotate, Scale, LookAt, CoordinateSystem, CoordSysTransform,
    ActiveTransformAll, ActiveTransformEndTime, ActiveTransformStartTime, TransformTimes,
    ColorSpace, PixelFilter, Film, Sampler, Accelerator, Integrator, Camera,
    MakeNamedMedium, MediumInterface, WorldBegin, AttributeBegin, AttributeEnd, Attribute,
    TransformBegin, Texture, Material, MakeNamedMaterial, NamedMaterial,
    LightSource, AreaLightSource, Shape, ReverseOrientation, ObjectEnd,
    ObjectInstance, restoreAll, closeScope,
    VERIFY_WORLD, VERIFY_OPTIONS, VERIFY_INITIALIZED, FOR_ACTIVE_TRANSFORMS
    in *.

Ltac nonempty_stack H :=
  match type of H with
  | context [match push_back ?l ?x with _ => _ end] =>
    let E := fresh "E" in
    destruct (push_back l x) eqn:E; [destruct (push_back_not_nil _ _ E)|];
    rewrite <- E in H; clear E
  end.

(** ** Well-nested scopes *)

Section Nesting.
Context `{L : PbrtLib}.

Lemma same_scopes_refl (s : State) : same_scopes s s.
Proof. repeat split. Qed.

Lemma same_scopes_trans (s1 s2 s3 : State) :
  same_scopes s1 s2 -> same_scopes s2 s3 -> same_scopes s1 s3.
Proof. unfold same_scopes. intuition congruence. Qed.

Lemma plain_step_same_scopes (d : Directive) (s s' : State) (log : list Diagnostic) :
  is_scope d = false -> currentApiState s = WorldBlock ->
  step d s = Done s' log -> same_scopes s s'.
Proof.
  intros Hd Hw Hstep. destruct d; try discriminate Hd; unfold_directives.
  all: rewrite ?Hw in Hstep.
  all: repeat case_match; simplify_eq; inv_lookups; try apply same_scopes_refl.
  all: try solve [repeat split; simpl; congruence].
Qed.

Lemma AttributeBegin_opened (loc : FileLoc) (s s1 : State) (log : list Diagnostic) :
  currentApiState s = WorldBlock -> AttributeBegin loc s = Done s1 log ->
  opened KAttribute loc s s1 /\ currentInstance s1 = currentInstance s.
Proof.
  intros Hw H. unfold_directives. rewrite Hw in H. simplify_eq. repeat split; assumption.
Qed.

Lemma TransformBegin_opened (loc : FileLoc) (s s1 : State) (log : list Diagnostic) :
  currentApiState s = WorldBlock -> TransformBegin loc s = Done s1 log ->
  opened KTransform loc s s1 /\ currentInstance s1 = currentInstance s.
Proof.
  intros Hw H. unfold_directives. rewrite Hw in H. simplify_eq. repeat split; assumption.
Qed.

Lemma ObjectBegin_opened (name : string) (loc : FileLoc) (s s1 : State) (log : list Diagnostic) :
  currentApiState s = WorldBlock -> ObjectBegin name loc s = Done s1 log ->
  opened KObject loc s s1 /\ currentInstance s = None /\ currentInstance s1 = Some name.
Proof.
  intros Hw H. rewrite ObjectBegin_eq in H. unfold VERIFY_WORLD, VERIFY_INITIALIZED in H.
  rewrite Hw in H. destruct (currentInstance s) eqn:Ei; [discriminate|].
  destruct (instanceDefinitions s !! name); [discriminate|].
  inversion H; subst; clear H. repeat split; assumption.
Qed.

Lemma AttributeEnd_closes (loc l0 : FileLoc) (s0 s s' : State) (log : list Diagnostic) :
  opened KAttribute l0 s0 s -> AttributeEnd loc s = Done s' log ->
  closed s0 s' /\ graphicsState s' = graphicsState s0 /\
  currentInstance s' = currentInstance s.
Proof.
  intros (Hw & Hg & Ht & Hb & Hk) H. simpl in Hg.
  unfold AttributeEnd, VERIFY_WORLD, VERIFY_INITIALIZED, restoreAll, closeScope in H.
  rewrite Hw, Hg, Ht, Hb in H. rewrite !back_push_back in H. nonempty_stack H.
  simpl in H. rewrite Hk, back_push_back in H. simpl in H. simplify_eq.
  unfold closed. simpl. rewrite ?Hk, ?Hg, ?Ht, ?Hb, ?pop_back_push_back. repeat split; assumption.
Qed.

Lemma TransformEnd_closes (loc l0 : FileLoc) (s0 s s' : State) (log : list Diagnostic) :
  opened KTransform l0 s0 s -> TransformEnd loc s = Done s' log ->
  closed s0 s' /\ graphicsState s' = graphicsState s /\
  currentInstance s' = currentInstance s.
Proof.
  intros (Hw & Hg & Ht & Hb & Hk) H. simpl in Hg.
  rewrite TransformEnd_eq in H. unfold VERIFY_WORLD, VERIFY_INITIALIZED in H.
  rewrite Hw, Ht, Hb, Hk in H. rewrite !back_push_back in H. nonempty_stack H.
  simpl in H. inversion H; subst; clear H.
  unfold closed. simpl. rewrite ?Hk, ?Hg, ?Ht, ?Hb, ?pop_back_push_back. repeat split; assumption.
Qed.

Lemma ObjectEnd_closes (loc l0 : FileLoc) (s0 s s' : State) (log : list Diagnostic) :
  opened KObject l0 s0 s -> ObjectEnd loc s = Done s' log ->
  closed s0 s' /\ graphicsState s' = graphicsState s0 /\
  currentInstance s' = None.
Proof.
  intros (Hw & Hg & Ht & Hb & Hk) H. simpl in Hg.
  unfold ObjectEnd, VERIFY_WORLD, VERIFY_INITIALIZED, restoreAll, closeScope in H.
  rewrite Hw in H. destruct (currentInstance s); [|discriminate]. simpl in H.
  rewrite Hg, Ht, Hb in H. rewrite !back_push_back in H.
  simpl in H. rewrite Hk, back_push_back in H. simpl in H. simplify_eq.
  unfold closed. simpl. rewrite ?Hk, ?Hg, ?Ht, ?Hb, ?pop_back_push_back. repeat split; assumption.
Qed.

Lemma run_block (b e : Directive) (body rest : list Directive) (s s' : State)
    (log : list Diagnostic) :
  run (b :: body ++ e :: rest) s = Done s' log ->
  exists s1 s2 s3 l1 l2 l3 l4,
    step b s = Done s1 l1 /\ run body s1 = Done s2 l2 /\
    step e s2 = Done s3 l3 /\ run rest s3 = Done s' l4.
Proof.
  intros H. simpl in H. apply and_then_Done in H. destruct H as (s1 & l1 & r1 & Hb & H & _).
  rewrite run_app in H. apply and_then_Done in H. destruct H as (s2 & l2 & r2 & Hbody & H & _).
  simpl in H. apply and_then_Done in H. destruct H as (s3 & l3 & l4 & He & Hrest & _).
  eauto 12.
Qed.

Lemma opened_same_scopes (k : NestingKind) (loc : FileLoc) (s s1 s2 : State) :
  opened k loc s s1 -> same_scopes s1 s2 -> opened k loc s s2.
Proof.
  intros (Hw & Hg & Ht & Hb & Hk) (Ew & Eg & Et & Eb & Ek & _).
  unfold opened. rewrite Ew, Eg, Et, Eb, Ek. repeat split; assumption.
Qed.

Lemma closed_same_scopes (s0 s' : State) :
  currentApiState s0 = WorldBlock -> closed s0 s' ->
  currentInstance s' = currentInstance s0 -> same_scopes s0 s'.
Proof.
  intros Hw (Ew & Eg & Et & Eb & Ek & _) Hi. unfold same_scopes.
  rewrite Hw. repeat split; assumption.
Qed.

(** A well-nested stream leaves the stacks and the open instance definition
    as it found them. *)
Lemma well_nested_same_scopes (ds : list Directive) :
  well_nested ds ->
  forall (s s' : State) (log : list Diagnostic),
    currentApiState s = WorldBlock -> run ds s = Done s' log -> same_scopes s s'.
Proof.
  induction 1 as [|d ds Hd Hds IH | l1 l2 body rest Hbody IHbody Hrest IHrest
                  | l1 l2 body rest Hbody IHbody Hrest IHrest
                  | name l1 l2 body rest Hbody IHbody Hrest IHrest];
    intros s s' log Hw Hrun.
  - simpl in Hrun. inversion Hrun; subst. apply same_scopes_refl.
  - simpl in Hrun. apply and_then_Done in Hrun.
    destruct Hrun as (s1 & l1 & l2 & Hstep & Hrun & _).
    pose proof (plain_step_same_scopes d s s1 l1 Hd Hw Hstep) as H1.
    apply (same_scopes_trans s s1 s' H1). eapply IH; [|exact Hrun].
    destruct H1 as [-> _]. exact Hw.
  - apply run_block in Hrun.
    destruct Hrun as (s1 & s2 & s3 & r1 & r2 & r3 & r4 & Hb & Hbd & He & Hr).
    simpl in Hb, He. destruct (AttributeBegin_opened _ _ _ _ Hw Hb) as [Ho Hi1].
    pose proof Ho as (Hw1 & _).
    pose proof (IHbody s1 s2 r2 Hw1 Hbd) as H12.
    destruct (AttributeEnd_closes _ _ _ _ _ _ (opened_same_scopes _ _ _ _ _ Ho H12) He)
      as (Hc & _ & Hi3).
    assert (H03 : same_scopes s s3).
    { apply closed_same_scopes; [exact Hw|exact Hc|].
      destruct H12 as (_ & _ & _ & _ & _ & Hi2). congruence. }
    apply (same_scopes_trans s s3 s' H03). eapply IHrest; [|exact Hr].
    destruct Hc as [-> _]. reflexivity.
  - apply run_block in Hrun.
    destruct Hrun as (s1 & s2 & s3 & r1 & r2 & r3 & r4 & Hb & Hbd & He & Hr).
    simpl in Hb, He. destruct (TransformBegin_opened _ _ _ _ Hw Hb) as [Ho Hi1].
    pose proof Ho as (Hw1 & _).
    pose proof (IHbody s1 s2 r2 Hw1 Hbd) as H12.
    destruct (TransformEnd_closes _ _ _ _ _ _ (opened_same_scopes _ _ _ _ _ Ho H12) He)
      as (Hc & _ & Hi3).
    assert (H03 : same_scopes s s3).
    { apply closed_same_scopes; [exact Hw|exact Hc|].
      destruct H12 as (_ & _ & _ & _ & _ & Hi2). congruence. }
    apply (same_scopes_trans s s3 s' H03). eapply IHrest; [|exact Hr].
    destruct Hc as [-> _]. reflexivity.
  - apply run_block in Hrun.
    destruct Hrun as (s1 & s2 & s3 & r1 & r2 & r3 & r4 & Hb & Hbd & He & Hr).
    simpl in Hb, He. destruct (ObjectBegin_opened _ _ _ _ _ Hw Hb) as (Ho & Hi0 & Hi1).
    pose proof Ho as (Hw1 & _).
    pose proof (IHbody s1 s2 r2 Hw1 Hbd) as H12.
    destruct (ObjectEnd_closes _ _ _ _ _ _ (opened_same_scopes _ _ _ _ _ Ho H12) He)
      as (Hc & _ & Hi3).
    assert (H03 : same_scopes s s3).
    { apply closed_same_scopes; [exact Hw|exact Hc|]. congruence. }
    apply (same_scopes_trans s s3 s' H03). eapply IHrest; [|exact Hr].
    destruct Hc as [-> _]. reflexivity.
Qed.

(** C5. In the world block, an AttributeBegin, any well-nested stream of
    directives and the matching AttributeEnd leave the graphics state (the
    whole record: material reference, medium names, pending area light, colour
    space, orientation flag and the attribute lists) as it was immediately
    before the AttributeBegin. *)
Theorem AttributeBegin_End_restores_graphicsState
    (body : list Directive) (l1 l2 : FileLoc) (s s' : State) (log : list Diagnostic) :
  currentApiState s = WorldBlock ->
  well_nested body ->
  run (DAttributeBegin l1 :: body ++ [DAttributeEnd l2]) s = Done s' log ->
  graphicsState s' = graphicsState s.
Proof.
  intros Hw Hbody Hrun. apply run_block in Hrun.
  destruct Hrun as (s1 & s2 & s3 & r1 & r2 & r3 & r4 & Hb & Hbd & He & Hr).
  simpl in Hb, He, Hr. inversion Hr; subst.
  destruct (AttributeBegin_opened _ _ _ _ Hw Hb) as [Ho _].
  pose proof Ho as (Hw1 & _).
  pose proof (well_nested_same_scopes body Hbody s1 s2 r2 Hw1 Hbd) as H12.
  now destruct (AttributeEnd_closes _ _ _ _ _ _ (opened_same_scopes _ _ _ _ _ Ho H12) He)
    as (_ & Hg & _).
Qed.

End Nesting.

Lemma AttributeBegin_End_restores_graphicsState_witness :
  graphicsState
    (state_of
       (run (L := Sym.lib)
          [DAttributeBegin 2%nat;
           DMaterial "matte" [] 3%nat; DTransformBegin 4%nat; DNamedMaterial "x" 5%nat;
           DTransformEnd 6%nat; DReverseOrientation 7%nat;
           DAttributeEnd 8%nat] Sym.world) Sym.fresh)
  = graphicsState Sym.world.
Proof.
  refine (AttributeBegin_End_restores_graphicsState (L := Sym.lib)
            [DMaterial "matte" [] 3%nat; DTransformBegin 4%nat; DNamedMaterial "x" 5%nat;
             DTransformEnd 6%nat; DReverseOrientation 7%nat]
            2%nat 8%nat Sym.world _ [] _ _ _).
  - vm_compute. reflexivity.
  - apply wn_plain; [reflexivity|].
    refine (wn_transform (L := Sym.lib) 4%nat 6%nat
              [DNamedMaterial "x" 5%nat] [DReverseOrientation 7%nat] _ _);
      repeat (apply wn_plain; [reflexivity|]); apply wn_nil.
  - apply finished_Done. vm_compute. reflexivity.
Defined.
(** ** The scope stacks *)

Section Stacks.
Context `{L : PbrtLib}.

Lemma step_stacks_consistent (d : Directive) (s s' : State) (log : list Diagnostic) :
  stacks_consistent s -> step d s = Done s' log -> stacks_consistent s'.
Proof.
  intros Hs Hstep. destruct d; unfold_directives.
  all: try (repeat case_match; simplify_eq; inv_lookups; exact Hs).
  all: destruct Hs as (Ht & Hb & Hg); unfold stacks_consistent.
  all: repeat case_match; simplify_eq; simpl in *;
    try (apply and_then_Done in Hstep; destruct Hstep as (s1 & l1 & l2 & Ha & Hk & _);
         unfold Attribute, VERIFY_INITIALIZED in Ha;
         repeat case_match; simplify_eq; simpl in * );
    repeat match goal with
    | H : back _ = Some (_, _) |- _ => apply back_kinds in H; destruct H
    | H : back _ = Some _ |- _ => apply back_length in H
    end;
    unfold push_back; rewrite ?map_app, ?List.filter_app, ?length_app; simpl;
    repeat match goal with
    | k : NestingKind |- _ => destruct k; try discriminate
    | H : _ = [] |- _ => apply (f_equal length) in H
    | H : _ = _ :: _ |- _ => apply (f_equal length) in H
    end; simpl in *; repeat split; try lia.
Qed.

Lemma run_stacks_consistent (ds : list Directive) (s s' : State) (log : list Diagnostic) :
  stacks_consistent s -> run ds s = Done s' log -> stacks_consistent s'.
Proof.
  revert s log. induction ds as [|d ds IH]; intros s log Hs Hrun; simpl in Hrun.
  - inversion Hrun; subst. exact Hs.
  - apply and_then_Done in Hrun. destruct Hrun as (s1 & l1 & l2 & Hstep & Hrest & _).
    eapply IH; [|exact Hrest]. eapply step_stacks_consistent; eauto.
Qed.
Lemma GeneralScene_scopes_wf : scopes_wf GeneralScene.
Proof. repeat split. intros H. now destruct H. Qed.

Lemma In_kind_pop_back (l : list (NestingKind * FileLoc)) (k k' : NestingKind) (o : FileLoc) :
  back l = Some (k', o) -> k <> k' -> In k (map fst l) -> In k (map fst (pop_back l)).
Proof.
  intros H Hne Hin. apply back_Some in H. rewrite H, map_app, in_app_iff in Hin.
  destruct Hin as [Hin | [Hin | []]]; [exact Hin|]. simpl in Hin. congruence.
Qed.

Lemma In_kind_push_back (l : list (NestingKind * FileLoc)) (k : NestingKind)
    (e : NestingKind * FileLoc) :
  In k (map fst l) \/ k = fst e -> In k (map fst (push_back l e)).
Proof.
  intros H. unfold push_back. rewrite map_app, in_app_iff. simpl.
  destruct H as [H | ->]; auto.
Qed.

Lemma step_scopes_wf (d : Directive) (s s' : State) (log : list Diagnostic) :
  scopes_wf s -> step d s = Done s' log -> scopes_wf s'.
Proof.
  intros [Hs Hi] Hstep. split; [eapply step_stacks_consistent; eauto|].
  destruct d; unfold_directives.
  all: try (repeat case_match; simplify_eq; inv_lookups; simpl;
            first [exact Hi | intros _; apply Hi; congruence | intros ?; congruence]).
  all: repeat case_match; simplify_eq; simpl in *;
    try (apply and_then_Done in Hstep; destruct Hstep as (s1 & l1 & l2 & Ha & Hk & _);
         unfold Attribute, VERIFY_INITIALIZED in Ha;
         repeat case_match; simplify_eq; simpl in * );
    try (intros _; apply In_kind_push_back; simpl; auto; fail);
    try (intros Hci; apply In_kind_push_back; left; auto; fail);
    try congruence.
  all: intros Hci; try (apply Hi; congruence);
    match goal with
    | H : back (pushStack _) = Some (?k, _) |- _ =>
      destruct k; try discriminate; eapply In_kind_pop_back; eauto; discriminate
    end.
Qed.

Lemma filter_kinds_nonempty (l : list (NestingKind * FileLoc)) :
  In KObject (map fst l) -> List.filter opens_graphics (map fst l) <> [].
Proof.
  intros Hin E. assert (H : In KObject (List.filter opens_graphics (map fst l))).
  { apply filter_In. split; [exact Hin | reflexivity]. }
  rewrite E in H. destruct H.
Qed.

Lemma back_defined {A} (l : list A) : l <> [] -> exists x, back l = Some x.
Proof.
  intros H. unfold back. destruct (last l) eqn:E; [eauto|].
  apply last_None in E. contradiction.
Qed.

Lemma length_nonempty {A B} (l : list A) (l' : list B) :
  length l = length l' -> l' <> [] -> l <> [].
Proof. intros H Hl' ->. destruct l'; [contradiction|discriminate]. Qed.

(** On a scene whose scopes are well formed no directive reads the back of
    an empty vector. *)
Lemma step_defined (d : Directive) (s : State) : scopes_wf s -> step d s <> Undefined.
Proof.
  intros [(Ht & Hb & Hg) Hi]. destruct d; unfold_directives.
  all: try (repeat case_match; simplify_eq; inv_lookups; discriminate).
  - (* AttributeEnd *)
    destruct (currentApiState s); try discriminate.
    destruct (pushedGraphicsStates s) as [|g gs] eqn:Eg; [discriminate|].
    assert (Hk : pushStack s <> []).
    { intros E. rewrite E in Hg. discriminate. }
    destruct (back_defined (pushStack s) Hk) as [[k o] Ek].
    destruct (back_defined (pushedTransforms s) (length_nonempty _ _ Ht Hk)) as [ct Ect].
    destruct (back_defined (pushedActiveTransformBits s) (length_nonempty _ _ Hb Hk))
      as [bits Eb].
    destruct (back_defined (g :: gs)) as [g' Eg']; [discriminate|].
    rewrite Eg', Ect, Eb. simpl. rewrite Ek. destruct (kind_eqb k KAttribute); discriminate.
  - (* TransformEnd *)
    destruct (currentApiState s); try discriminate.
    destruct (pushedTransforms s) as [|t ts] eqn:Et; [discriminate|].
    assert (Hk : pushStack s <> []).
    { intros E. rewrite E in Ht. discriminate. }
    destruct (back_defined (pushStack s) Hk) as [[k o] Ek].
    destruct (back_defined (pushedActiveTransformBits s) (length_nonempty _ _ Hb Hk))
      as [bits Eb].
    destruct (back_defined (t :: ts)) as [t' Et']; [discriminate|].
    rewrite Et', Eb. simpl. rewrite Ek. destruct (kind_eqb k KTransform); discriminate.
  - (* ObjectEnd *)
    destruct (currentApiState s); try discriminate.
    destruct (currentInstance s) as [n|] eqn:Ei; [|discriminate].
    assert (Hin : In KObject (map fst (pushStack s))) by (apply Hi; discriminate).
    assert (Hk : pushStack s <> []).
    { intros E. rewrite E in Hin. destruct Hin. }
    assert (Hgs : pushedGraphicsStates s <> []).
    { apply filter_kinds_nonempty in Hin. intros E. rewrite E in Hg.
      destruct (List.filter opens_graphics (map fst (pushStack s))); [contradiction|discriminate]. }
    destruct (back_defined (pushStack s) Hk) as [[k o] Ek].
    destruct (back_defined (pushedTransforms s) (length_nonempty _ _ Ht Hk)) as [ct Ect].
    destruct (back_defined (pushedActiveTransformBits s) (length_nonempty _ _ Hb Hk))
      as [bits Eb].
    destruct (back_defined (pushedGraphicsStates s) Hgs) as [g' Eg'].
    simpl. rewrite Eg', Ect, Eb. simpl. rewrite Ek. destruct (kind_eqb k KObject); discriminate.
Qed.

(** From the constructed scene, every stream either finishes or ends at an
    [ErrorExit]; the scopes stay well formed throughout. *)
Lemma run_scopes_wf (ds : list Directive) (s : State) :
  scopes_wf s ->
  match run ds s with
  | Done s' _ => scopes_wf s'
  | Exit _ => True
  | Undefined => False
  end.
Proof.
  revert s. induction ds as [|d ds IH]; intros s Hs; simpl; [exact Hs|].
  pose proof (step_defined d s Hs) as Hd.
  destruct (step d s) as [s1 l1| |] eqn:Hstep; simpl; [|exact I|congruence].
  specialize (IH s1 (step_scopes_wf d s s1 l1 Hs Hstep)).
  destruct (run ds s1); auto.
Qed.


(** C2 (as the code has it).  When AttributeEnd is processed in the world
    block while the innermost open scope was opened by TransformBegin, the
    outcome depends on the pushed graphics states: if an AttributeBegin or
    ObjectBegin scope is open around the TransformBegin, the call ends in the
    fatal mismatched-nesting error; if none is, the call is reported as an
    unmatched AttributeEnd and ignored, the scene staying as it was. *)
Theorem AttributeEnd_on_open_TransformBegin
    (ds : list Directive) (s : State) (log : list Diagnostic) (loc openedAt : FileLoc) :
  run ds GeneralScene = Done s log ->
  currentApiState s = WorldBlock ->
  back (pushStack s) = Some (KTransform, openedAt) ->
  AttributeEnd loc s
  = match pushedGraphicsStates s with
    | [] => Done s [ErrUnmatchedAttributeEnd]
    | _ :: _ => Exit (ErrMismatchedNesting KTransform openedAt KAttribute)
    end.
Proof.
  intros Hrun Hw Hk.
  pose proof (run_scopes_wf ds GeneralScene GeneralScene_scopes_wf) as H.
  rewrite Hrun in H. destruct H as [(Ht & Hb & Hg) _].
  unfold AttributeEnd, VERIFY_WORLD, VERIFY_INITIALIZED, restoreAll, closeScope. rewrite Hw.
  destruct (pushedGraphicsStates s) as [|g gs] eqn:Eg; [reflexivity|].
  assert (Hne : pushStack s <> []).
  { intros E. rewrite E in Hk. discriminate. }
  destruct (back_defined (pushedTransforms s) (length_nonempty _ _ Ht Hne)) as [ct Ect].
  destruct (back_defined (pushedActiveTransformBits s) (length_nonempty _ _ Hb Hne))
    as [bits Eb].
  destruct (back_defined (g :: gs)) as [g' Eg']; [discriminate|].
  rewrite Eg', Ect, Eb. simpl. rewrite Hk. reflexivity.
Qed.

(** An AttributeEnd that finds no pushed graphics state, at the end of a
    stream that ran silently. *)
Lemma run_then_unmatched_AttributeEnd (ds : list Directive) (s0 : State) (loc : FileLoc) :
  finished (run ds s0) = true ->
  currentApiState (state_of (run ds s0) s0) = WorldBlock ->
  pushedGraphicsStates (state_of (run ds s0) s0) = [] ->
  run (ds ++ [DAttributeEnd loc]) s0
  = Done (state_of (run ds s0) s0) [ErrUnmatchedAttributeEnd].
Proof.
  intros Hf Hw Hg. rewrite run_app. rewrite (finished_Done _ s0 Hf) at 1.
  generalize dependent (state_of (run ds s0) s0). intros s Hw Hg.
  unfold and_then, run, step, AttributeEnd, VERIFY_WORLD, VERIFY_INITIALIZED.
  rewrite Hw, Hg. reflexivity.
Qed.

End Stacks.



(** C2, as stated, fails on its own example: TransformBegin; AttributeEnd in
    the world block is not fatal.  The AttributeEnd is reported as unmatched
    and the scene is the one TransformBegin left. *)
Lemma TransformBegin_AttributeEnd_counterexample :
  exists s,
    run (L := Sym.lib) [DWorldBegin 1%nat; DTransformBegin 2%nat] Sym.fresh = Done s [] /\
    run (L := Sym.lib) [DWorldBegin 1%nat; DTransformBegin 2%nat; DAttributeEnd 3%nat]
        Sym.fresh = Done s [ErrUnmatchedAttributeEnd].
Proof.
  refine (ex_intro _ (state_of (run (L := Sym.lib) [DWorldBegin 1%nat; DTransformBegin 2%nat]
                                     Sym.fresh) Sym.fresh) _).
  split; [apply finished_Done; vm_compute; reflexivity|].
  exact (run_then_unmatched_AttributeEnd (L := Sym.lib)
           [DWorldBegin 1%nat; DTransformBegin 2%nat] Sym.fresh 3%nat
           ltac:(vm_compute; reflexivity) ltac:(vm_compute; reflexivity)
           ltac:(vm_compute; reflexivity)).
Qed.

Lemma AttributeEnd_on_open_TransformBegin_witness :
  AttributeEnd (L := Sym.lib) 9%nat
    (state_of (run [DWorldBegin 1%nat; DAttributeBegin 2%nat; DTransformBegin 3%nat]
                   Sym.fresh) Sym.fresh)
  = Exit (ErrMismatchedNesting KTransform 3%nat KAttribute).
Proof.
  match goal with |- AttributeEnd _ ?x = _ => set (s := x) end.
  assert (Hrun : run (L := Sym.lib)
                   [DWorldBegin 1%nat; DAttributeBegin 2%nat; DTransformBegin 3%nat] Sym.fresh
                 = Done s []) by (apply finished_Done; vm_compute; reflexivity).
  assert (Hw : currentApiState s = WorldBlock) by (vm_compute; reflexivity).
  assert (Hk : back (pushStack s) = Some (KTransform, 3%nat)) by (vm_compute; reflexivity).
  assert (Hlen : length (pushedGraphicsStates s) = 1%nat) by (vm_compute; reflexivity).
  pose proof (AttributeEnd_on_open_TransformBegin (L := Sym.lib) _ s [] 9%nat 3%nat
                Hrun Hw Hk) as H.
  clearbody s. rewrite H.
  destruct (pushedGraphicsStates s); [discriminate Hlen|reflexivity].
Defined.
(** ** Named registries *)

Section Registries.
Context `{L : PbrtLib}.

(** C3 (as the code has it).  Named materials, named media and instance
    definitions are insertion-checked: a directive that defines a name that is
    already registered does not go through (in the world block it ends the run
    with the redefinition error), so the stored value is never overwritten.
    The named coordinate systems are not checked: CoordinateSystem stores the
    current transform set under the name whether or not the name is
    registered, without any message. *)
Theorem registries_insertion_checked :
  (forall (s : State) (name : string) (params : ParsedParameterVector) (loc : FileLoc),
      is_Some (namedMaterials s !! name) ->
      rejected s (MakeNamedMaterial name params loc s) /\
      (currentApiState s = WorldBlock ->
       MakeNamedMaterial name params loc s = Exit (ErrNamedMaterialRedefined name))) /\
  (forall (s : State) (name : string) (params : ParsedParameterVector) (loc : FileLoc),
      is_Some (media s !! name) ->
      rejected s (MakeNamedMedium name params loc s) /\
      (currentApiState s <> Uninitialized ->
       MakeNamedMedium name params loc s = Exit (ErrMediumRedefined name))) /\
  (forall (s : State) (name : string) (loc : FileLoc),
      is_Some (instanceDefinitions s !! name) ->
      rejected s (ObjectBegin name loc s) /\
      (currentApiState s = WorldBlock ->
       ObjectBegin name loc s
       = Exit (match currentInstance s with
               | Some _ => ErrObjectBeginNested
               | None => ErrObjectRedefined name
               end))) /\
  (forall (s : State) (name : string) (loc : FileLoc),
      currentApiState s <> Uninitialized ->
      CoordinateSystem name loc s
      = Done (set_namedCoordinateSystems
                (<[name := curTransform s]> (namedCoordinateSystems s)) s) []).
Proof.
  split; [|split; [|split]].
  - intros s name params loc [e He].
    unfold MakeNamedMaterial, VERIFY_WORLD, VERIFY_INITIALIZED. rewrite He.
    split; [destruct (currentApiState s); simpl; auto; split; auto; discriminate|].
    intros ->. reflexivity.
  - intros s name params loc [e He].
    unfold MakeNamedMedium, VERIFY_INITIALIZED. rewrite He.
    split; [destruct (currentApiState s); simpl; auto; split; auto; discriminate|].
    intros Hw. destruct (currentApiState s); [contradiction|reflexivity|reflexivity].
  - intros s name loc [e He].
    assert (Hw : currentApiState s = WorldBlock ->
                 ObjectBegin name loc s
                 = Exit (match currentInstance s with
                         | Some _ => ErrObjectBeginNested
                         | None => ErrObjectRedefined name
                         end)).
    { intros Hw. rewrite ObjectBegin_eq. unfold VERIFY_WORLD, VERIFY_INITIALIZED.
      rewrite Hw. destruct (currentInstance s); [reflexivity|].
      rewrite He. reflexivity. }
    split; [|exact Hw].
    destruct (currentApiState s) eqn:E.
    + rewrite ObjectBegin_eq. unfold VERIFY_WORLD, VERIFY_INITIALIZED. rewrite E. simpl.
      split; auto; discriminate.
    + rewrite ObjectBegin_eq. unfold VERIFY_WORLD, VERIFY_INITIALIZED. rewrite E. simpl.
      split; auto; discriminate.
    + rewrite (Hw eq_refl). exact I.
  - intros s name loc Hw. unfold CoordinateSystem, VERIFY_INITIALIZED.
    destruct (currentApiState s); [contradiction|reflexivity|reflexivity].
Qed.

End Registries.

(** C3, as stated, fails for the coordinate systems: a second CoordinateSystem
    with a registered name raises nothing and replaces the stored value. *)
Lemma CoordinateSystem_redefinition_counterexample :
  exists s1 s2,
    run (L := Sym.lib) [DWorldBegin 1%nat; DCoordinateSystem "a" 2%nat] Sym.fresh
    = Done s1 [] /\
    namedCoordinateSystems s1 !! "a" = Some (MkTransformSet Sym.Id Sym.Id) /\
    run (L := Sym.lib) [DTranslate 1%Z 0%Z 0%Z 3%nat; DCoordinateSystem "a" 4%nat] s1
    = Done s2 [] /\
    namedCoordinateSystems s2 !! "a"
    = Some (MkTransformSet (Sym.Mul Sym.Id (Sym.Trans 1 0 0))
                           (Sym.Mul Sym.Id (Sym.Trans 1 0 0))).
Proof.
  refine (ex_intro _ (state_of (run (L := Sym.lib)
                                  [DWorldBegin 1%nat; DCoordinateSystem "a" 2%nat] Sym.fresh)
                               Sym.fresh) _).
  refine (ex_intro _ (state_of
                        (run (L := Sym.lib)
                           [DTranslate 1%Z 0%Z 0%Z 3%nat; DCoordinateSystem "a" 4%nat]
                           (state_of (run (L := Sym.lib)
                                        [DWorldBegin 1%nat; DCoordinateSystem "a" 2%nat]
                                        Sym.fresh) Sym.fresh)) Sym.fresh) _).
  split; [apply finished_Done; vm_compute; reflexivity|].
  split; [vm_compute; reflexivity|].
  split; [apply finished_Done; vm_compute; reflexivity|].
  vm_compute; reflexivity.
Qed.

Lemma registries_insertion_checked_witness :
  MakeNamedMaterial (L := Sym.lib) "m" [] 3%nat
    (state_of (run [DWorldBegin 1%nat; DMakeNamedMaterial "m" [] 2%nat] Sym.fresh) Sym.fresh)
  = Exit (ErrNamedMaterialRedefined "m") /\
  MakeNamedMedium (L := Sym.lib) "fog" [] 3%nat
    (state_of (run [DMakeNamedMedium "fog" [] 2%nat] Sym.fresh) Sym.fresh)
  = Exit (ErrMediumRedefined "fog") /\
  ObjectBegin (L := Sym.lib) "o" 5%nat
    (state_of (run [DWorldBegin 1%nat; DObjectBegin "o" 2%nat; DObjectEnd 3%nat] Sym.fresh)
              Sym.fresh)
  = Exit (ErrObjectRedefined "o") /\
  exists s', CoordinateSystem (L := Sym.lib) "a" 2%nat Sym.world = Done s' [].
Proof.
  pose proof (registries_insertion_checked (L := Sym.lib)) as (Hmat & Hmed & Hobj & Hcs).
  split; [|split; [|split]].
  - apply Hmat; [|vm_compute; reflexivity].
    apply is_Some_true. vm_compute. reflexivity.
  - apply Hmed; [|vm_compute; discriminate].
    apply is_Some_true. vm_compute. reflexivity.
  - match goal with |- ObjectBegin _ _ ?x = _ => set (s := x) end.
    assert (Hd : is_Some (instanceDefinitions s !! "o")).
    { apply is_Some_true. vm_compute. reflexivity. }
    assert (Hw : currentApiState s = WorldBlock) by (vm_compute; reflexivity).
    assert (Hi : currentInstance s = None) by (vm_compute; reflexivity).
    clearbody s. rewrite (proj2 (Hobj s "o" 5%nat Hd) Hw), Hi. reflexivity.
  - eexists. apply Hcs. vm_compute. discriminate.
Defined.
(** ** The API state gate *)

Section Gate.
Context `{L : PbrtLib}.

(** C7 (as the code has it).  In the OptionsBlock state, the directives that
    open with the world-block check (the attribute, transform and object
    scopes, Texture, Material, MakeNamedMaterial, NamedMaterial, LightSource,
    AreaLightSource, Shape, ReverseOrientation, ObjectInstance) return with the
    recoverable world-block error and leave the whole scene as it was.  No
    other directive is rejected with that error there; in particular the
    three ActiveTransform directives have no check at all and set the bitmask
    in every state. *)
Theorem world_block_gate :
  (forall (d : Directive) (s : State),
      currentApiState s = OptionsBlock -> world_only d = true ->
      step d s = Done s [ErrSceneInOptions (func_name d)]) /\
  (forall (d : Directive) (s s' : State) (log : list Diagnostic),
      currentApiState s = OptionsBlock -> world_only d = false ->
      step d s = Done s' log -> Forall (fun m => is_world_rejection m = false) log) /\
  (forall (s : State) (loc : FileLoc),
      ActiveTransformAll loc s = Done (set_activeTransformBits AllTransformsBits s) [] /\
      ActiveTransformEndTime loc s = Done (set_activeTransformBits EndTransformBits s) [] /\
      ActiveTransformStartTime loc s = Done (set_activeTransformBits StartTransformBits s) []).
Proof.
  split; [|split].
  - intros d s Hs Hd. destruct d; try discriminate Hd; unfold_directives;
      rewrite Hs; reflexivity.
  - intros d s s' log Hs Hd Hstep. destruct d; try discriminate Hd;
      unfold_directives; unfold WARN_IF_ANIMATED_TRANSFORM in *; rewrite ?Hs in Hstep;
      repeat case_match; simplify_eq; repeat constructor.
  - intros s loc. repeat split.
Qed.

End Gate.

(** C7, as stated, fails: ActiveTransformEndTime issued in the OptionsBlock
    state is accepted without a message and changes the active bits. *)
Lemma ActiveTransform_in_OptionsBlock_counterexample :
  currentApiState Sym.fresh = OptionsBlock /\
  activeTransformBits Sym.fresh = 3%Z /\
  options_only (L := Sym.lib) (DActiveTransformEndTime 1%nat) = false /\
  exists s',
    step (L := Sym.lib) (DActiveTransformEndTime 1%nat) Sym.fresh = Done s' [] /\
    activeTransformBits s' = 2%Z.
Proof.
  repeat split. eexists. split; reflexivity.
Qed.

Lemma world_block_gate_witness :
  step (L := Sym.lib) (DShape "sphere" [] 1%nat) Sym.fresh
  = Done Sym.fresh [ErrSceneInOptions "Shape"] /\
  Forall (fun m => is_world_rejection m = false) ([] : list (Diagnostic (L := Sym.lib))).
Proof.
  split.
  - refine (proj1 (world_block_gate (L := Sym.lib)) (DShape "sphere" [] 1%nat) Sym.fresh _ _);
      reflexivity.
  - refine (proj1 (proj2 (world_block_gate (L := Sym.lib)))
              (DTranslate 1%Z 0%Z 0%Z 1%nat) Sym.fresh _ [] _ _ _); reflexivity.
Defined.
(** ** The current transform *)

Section CurrentTransform.
Context `{L : PbrtLib}.

(** The loop of [FOR_ACTIVE_TRANSFORMS], slot by slot. *)
Lemma FOR_ACTIVE_TRANSFORMS_slot (f : pbrt.Transform -> pbrt.Transform) (s : State) (i : nat) :
  (i < MaxTransforms)%nat ->
  ts_get i (curTransform (FOR_ACTIVE_TRANSFORMS f s))
  = if active (activeTransformBits s) i then f (ts_get i (curTransform s))
    else ts_get i (curTransform s).
Proof.
  intros Hi. unfold FOR_ACTIVE_TRANSFORMS, MaxTransforms in *. simpl.
  destruct (active (activeTransformBits s) 0) eqn:E0,
           (active (activeTransformBits s) 1) eqn:E1;
    destruct i as [|[|i]]; try lia; simpl; rewrite ?E0, ?E1; reflexivity.
Qed.

(** The mask test of the macro is the test of bit [i]. *)
Lemma active_testbit (bits : Z) (i : nat) : active bits i = Z.testbit bits (Z.of_nat i).
Proof.
  unfold active. rewrite Z.shiftl_1_l.
  destruct (Z.testbit bits (Z.of_nat i)) eqn:E.
  - apply negb_true_iff, Z.eqb_neq. intros H.
    assert (Hb : Z.testbit (Z.land bits (2 ^ Z.of_nat i)) (Z.of_nat i) = true).
    { rewrite Z.land_spec, E, Z.pow2_bits_true by lia. reflexivity. }
    rewrite H, Z.bits_0 in Hb. discriminate.
  - apply negb_false_iff, Z.eqb_eq. apply Z.bits_inj'. intros n Hn.
    rewrite Z.land_spec, Z.bits_0.
    destruct (Z.eq_dec n (Z.of_nat i)) as [->|Hne].
    + rewrite E. reflexivity.
    + rewrite (Z.pow2_bits_false _ _ (not_eq_sym Hne)). apply andb_false_r.
Qed.

Lemma slot_updated_intro (f : pbrt.Transform -> pbrt.Transform) (s : State) (i : nat) :
  (i < MaxTransforms)%nat -> slot_updated i f s (Done (FOR_ACTIVE_TRANSFORMS f s) []).
Proof.
  intros Hi. exists (FOR_ACTIVE_TRANSFORMS f s). split; [reflexivity|].
  now apply FOR_ACTIVE_TRANSFORMS_slot.
Qed.

(** C8.  For every time index [i]: if the active-transform bitmask selects
    [i] (bit [i] is set), Translate, Rotate, Scale, ConcatTransform and LookAt
    set slot [i] of the current transform to (current x operator), Identity
    sets it to the identity transform and Transform sets it to the transpose
    of the transform built from the supplied matrix; if the bitmask does not
    select [i], the slot is unchanged. *)
Theorem composition_directives (s : State) (i : nat) :
  currentApiState s <> Uninitialized ->
  (i < MaxTransforms)%nat ->
  active (activeTransformBits s) i = Z.testbit (activeTransformBits s) (Z.of_nat i) /\
  (forall dx dy dz loc,
      slot_updated i (fun cur => t_mul cur (t_translate dx dy dz)) s
                   (Translate dx dy dz loc s)) /\
  (forall angle dx dy dz loc,
      slot_updated i (fun cur => t_mul cur (t_rotate angle dx dy dz)) s
                   (Rotate angle dx dy dz loc s)) /\
  (forall sx sy sz loc,
      slot_updated i (fun cur => t_mul cur (t_scale sx sy sz)) s (Scale sx sy sz loc s)) /\
  (forall tr loc,
      slot_updated i (fun cur => t_mul cur (t_transpose (t_of_matrix tr))) s
                   (ConcatTransform tr loc s)) /\
  (forall ex ey ez lx ly lz ux uy uz loc,
      slot_updated i (fun cur => t_mul cur (t_lookat [ex; ey; ez; lx; ly; lz; ux; uy; uz])) s
                   (LookAt ex ey ez lx ly lz ux uy uz loc s)) /\
  (forall loc, slot_updated i (fun _ => t_identity) s (Identity loc s)) /\
  (forall tr loc,
      slot_updated i (fun _ => t_transpose (t_of_matrix tr)) s
                   (GeneralScene.Transform tr loc s)).
Proof.
  intros Hs Hi. split; [apply active_testbit|].
  unfold Translate, Rotate, Scale, ConcatTransform, LookAt, Identity, GeneralScene.Transform,
    VERIFY_INITIALIZED.
  destruct (currentApiState s); [contradiction| |];
    repeat split; intros; now apply slot_updated_intro.
Qed.

End CurrentTransform.

Lemma composition_directives_witness :
  slot_updated (L := Sym.lib) 1 (fun cur => t_mul cur (t_translate 1%Z 0%Z 0%Z))
    (state_of (run [DActiveTransformEndTime 1%nat] Sym.fresh) Sym.fresh)
    (Translate 1%Z 0%Z 0%Z 2%nat
       (state_of (run [DActiveTransformEndTime 1%nat] Sym.fresh) Sym.fresh)).
Proof.
  refine (proj1 (proj2 (composition_directives (L := Sym.lib)
                          (state_of (run [DActiveTransformEndTime 1%nat] Sym.fresh) Sym.fresh)
                          1 _ _)) 1%Z 0%Z 0%Z 2%nat).
  - discriminate.
  - unfold MaxTransforms. lia.
Defined.
(** ** The material reference *)

Section Materials.
Context `{L : PbrtLib}.

Lemma to_int_small (z : Z) : (0 <= z < 2 ^ 31)%Z -> to_int z = z.
Proof.
  intros Hz. unfold to_int. rewrite Z.mod_small; lia.
Qed.

Lemma Forall_back {A} (P : A -> Prop) (l : list A) (x : A) :
  Forall P l -> back l = Some x -> P x.
Proof.
  intros Hl Hb. apply back_Some in Hb. rewrite Hb in Hl.
  apply Forall_app in Hl. destruct Hl as [_ Hx]. now inversion Hx.
Qed.

Lemma Forall_pop_back {A} (P : A -> Prop) (l : list A) : Forall P l -> Forall P (pop_back l).
Proof.
  unfold pop_back. induction 1 as [|a l Ha Hl IH]; simpl; [constructor|].
  destruct l; [constructor|]. constructor; assumption.
Qed.

Lemma Forall_push_back {A} (P : A -> Prop) (l : list A) (x : A) :
  Forall P l -> P x -> Forall P (push_back l x).
Proof. intros Hl Hx. unfold push_back. apply Forall_app. auto. Qed.






End Materials.


(** ** The constructed scene *)

Section Constructor.
Context `{L : PbrtLib}.

Lemma map_Forall_alter {A} (P : string -> A -> Prop) (f : A -> A) (k : string)
    (m : gmap string A) :
  map_Forall P m -> (forall x, P k x -> P k (f x)) -> map_Forall P (alter f k m).
Proof.
  intros Hm Hf. apply map_Forall_lookup. intros i y Hy.
  apply lookup_alter_Some in Hy. destruct Hy as [(-> & x & Hx & ->) | (_ & Hy)].
  - apply Hf. eapply map_Forall_lookup_1; eauto.
  - eapply map_Forall_lookup_1; eauto.
Qed.

Lemma step_initialized (d : Directive) (s s' : State) (log : list Diagnostic) :
  currentApiState s <> Uninitialized -> step d s = Done s' log ->
  currentApiState s' <> Uninitialized /\ Forall (fun m => is_init_rejection m = false) log.
Proof.
  intros Hs Hstep. destruct d; unfold_directives; unfold WARN_IF_ANIMATED_TRANSFORM in *.
  all: repeat case_match; simplify_eq; inv_lookups; fields;
    (split; [congruence | repeat constructor]).
Qed.

Lemma run_initialized (ds : list Directive) (s s' : State) (log : list Diagnostic) :
  currentApiState s <> Uninitialized -> run ds s = Done s' log ->
  currentApiState s' <> Uninitialized /\ Forall (fun m => is_init_rejection m = false) log.
Proof.
  revert s log. induction ds as [|d ds IH]; intros s log Hs Hrun; simpl in Hrun.
  - inversion Hrun; subst. split; [exact Hs | constructor].
  - apply and_then_Done in Hrun. destruct Hrun as (s1 & l1 & l2 & Hstep & Hrest & ->).
    destruct (step_initialized d s s1 l1 Hs Hstep) as [Hs1 Hl1].
    destruct (IH s1 l2 Hs1 Hrest) as [Hs' Hl2].
    split; [exact Hs' | apply Forall_app; auto].
Qed.

Lemma step_default_material_only (d : Directive) (s s' : State) (log : list Diagnostic) :
  sets_material d = false -> default_material_only s -> step d s = Done s' log ->
  default_material_only s'.
Proof.
  intros Hd (Hg & Hp & (Hsh & Hash & Hinst) & Hm) Hstep.
  destruct d; try discriminate Hd; unfold_directives.
  all: repeat case_match; simplify_eq; inv_lookups;
    (split; [|split; [|split; [split; [|split]|]]]); fields.
  all: try exact Hg; try exact Hp; try exact Hsh; try exact Hash; try exact Hinst;
    try exact Hm.
  all: try (match goal with H : pushedGraphicsStates _ = _ |- _ => rewrite H; exact Hp end).
  all: try (apply Forall_push_back; [assumption | exact Hg]).
  all: try (apply Forall_pop_back; assumption).
  all: try (eapply Forall_back; eassumption).
  all: try (apply map_Forall_insert_2; [split; constructor | assumption]).
  all: apply map_Forall_alter; [assumption|]; intros [ss as_] [H1 H2];
    cbn [fst snd] in *; split; try assumption;
    apply Forall_push_back; [assumption | exact Hg].
Qed.

Lemma run_default_material_only (ds : list Directive) (s s' : State) (log : list Diagnostic) :
  Forall (fun d => sets_material d = false) ds -> default_material_only s ->
  run ds s = Done s' log -> default_material_only s'.
Proof.
  revert s log. induction ds as [|d ds IH]; intros s log Hds Hs Hrun; simpl in Hrun.
  - inversion Hrun; subst. exact Hs.
  - apply and_then_Done in Hrun. destruct Hrun as (s1 & l1 & l2 & Hstep & Hrest & _).
    inversion Hds; subst. eapply IH; [eassumption| |exact Hrest].
    eapply step_default_material_only; eauto.
Qed.

Lemma GeneralScene_default_material_only : default_material_only GeneralScene.
Proof.
  split; [split; reflexivity|]. split; [constructor|]. split; [|reflexivity].
  split; [constructor|]. split; [constructor|]. apply map_Forall_empty.
Qed.

(** C10 (as the code has it).  The constructed scene is in the OptionsBlock
    state and no run from it ever reaches the Uninitialized state or reports
    the before-initialization error.  Its material list holds the default
    diffuse material at index 0 and its graphics state refers to index 0 with
    no name; as long as the stream contains neither a Material nor a
    NamedMaterial directive, the list stays that way and every shape created,
    inside or outside an instance definition, refers to index 0 with no
    name. *)
Theorem constructed_scene :
  currentApiState GeneralScene = OptionsBlock /\
  materials GeneralScene = [MkEntity "diffuse" (Dict [] cs_sRGB) loc_default] /\
  currentMaterialIndex (graphicsState GeneralScene) = 0%Z /\
  currentMaterialName (graphicsState GeneralScene) = "" /\
  (forall (ds : list Directive) (s : State) (log : list Diagnostic),
      run ds GeneralScene = Done s log ->
      currentApiState s <> Uninitialized /\
      Forall (fun m => is_init_rejection m = false) log) /\
  (forall (ds : list Directive) (s : State) (log : list Diagnostic),
      Forall (fun d => sets_material d = false) ds ->
      run ds GeneralScene = Done s log ->
      materials s = [MkEntity "diffuse" (Dict [] cs_sRGB) loc_default] /\
      shapes_reference default_reference s).
Proof.
  split; [reflexivity|]. split; [reflexivity|]. split; [reflexivity|].
  split; [reflexivity|]. split.
  - intros ds s log Hrun. eapply run_initialized; [|exact Hrun]. discriminate.
  - intros ds s log Hds Hrun.
    destruct (run_default_material_only ds GeneralScene s log Hds
                GeneralScene_default_material_only Hrun) as (_ & _ & Hsh & Hm).
    split; assumption.
Qed.

End Constructor.

(** C10, as stated, fails in its last part: a shape created before any
    Material directive, but after a NamedMaterial, does not refer to the
    default material. *)
Lemma shape_after_NamedMaterial_counterexample :
  exists s,
    run (L := Sym.lib)
        [DWorldBegin 1%nat; DNamedMaterial "m" 2%nat; DShape "sphere" [] 3%nat] Sym.fresh
    = Done s [] /\
    map (fun e => (sh_materialIndex e, sh_materialName e)) (shapes s) = [((-1)%Z, "m")] /\
    ~ shapes_reference default_reference s.
Proof.
  refine (ex_intro _ (state_of (run (L := Sym.lib)
                                  [DWorldBegin 1%nat; DNamedMaterial "m" 2%nat;
                                   DShape "sphere" [] 3%nat] Sym.fresh) Sym.fresh) _).
  split; [apply finished_Done; vm_compute; reflexivity|].
  match goal with |- map _ (shapes ?x) = _ /\ _ => set (s := x) end.
  assert (Hm : map (fun e => (sh_materialIndex e, sh_materialName e)) (shapes s)
               = [((-1)%Z, "m")]) by (vm_compute; reflexivity).
  clearbody s. split; [exact Hm|].
  intros [H _]. destruct (shapes s) as [|e l]; [discriminate Hm|].
  apply Forall_inv in H. destruct H as [H _]. simpl in Hm. inversion Hm. congruence.
Qed.

Lemma constructed_scene_witness :
  shapes_reference default_reference
    (state_of (run (L := Sym.lib)
                 [DWorldBegin 1%nat; DShape "sphere" [] 2%nat; DObjectBegin "o" 3%nat;
                  DShape "disk" [] 4%nat; DObjectEnd 5%nat] Sym.fresh) Sym.fresh) /\
  currentApiState
    (state_of (run (L := Sym.lib) [DWorldBegin 1%nat; DShape "sphere" [] 2%nat] Sym.fresh)
              Sym.fresh) <> Uninitialized.
Proof.
  pose proof (constructed_scene (L := Sym.lib)) as (_ & _ & _ & _ & Hinit & Hdef).
  split.
  - refine (proj2 (Hdef [DWorldBegin 1%nat; DShape "sphere" [] 2%nat; DObjectBegin "o" 3%nat;
                         DShape "disk" [] 4%nat; DObjectEnd 5%nat] _ [] _ _)).
    + repeat constructor.
    + apply finished_Done. vm_compute. reflexivity.
  - refine (proj1 (Hinit [DWorldBegin 1%nat; DShape "sphere" [] 2%nat] _ [] _)).
    apply finished_Done. vm_compute. reflexivity.
Defined.
(** ** The pending area light *)

Section AreaLights.
Context `{L : PbrtLib}.

Lemma Shape_appends (name : string) (params : ParsedParameterVector) (loc : FileLoc)
    (s : State) :
  currentApiState s = WorldBlock ->
  exists s' log e,
    Shape name params loc s = Done s' log /\
    shape_appended s s' e /\
    graphicsState s' = graphicsState s /\
    areaLights s'
    = (if String.eqb (areaLightName (graphicsState s)) "" then areaLights s
       else push_back (areaLights s) (pending_entity (graphicsState s))) /\
    lightIndex e
    = (if String.eqb (areaLightName (graphicsState s)) "" then (-1)%Z
       else to_int (Z.of_nat (length (areaLights s)))).
Proof.
  intros Hw. unfold Shape, VERIFY_WORLD, VERIFY_INITIALIZED, shape_appended. rewrite Hw.
  assert (Hlen : forall x : GeneralSceneEntity,
             (Z.of_nat (length (push_back (areaLights s) x)) - 1)%Z
             = Z.of_nat (length (areaLights s))).
  { intros x. unfold push_back. rewrite length_app. simpl. lia. }
  destruct (String.eqb (areaLightName (graphicsState s)) "") eqn:En; simpl;
    destruct (CTMIsAnimated (curTransform s) (cameraFromWorldT s));
    repeat match goal with
    | |- context [lookupCTMs ?x] =>
      let E := fresh "E" in destruct (lookupCTMs x) as [? ?] eqn:E
    | |- context [lookup ?x ?y] =>
      let E := fresh "E" in destruct (lookup x y) as [? ?] eqn:E
    end; inv_lookups; simpl; rewrite ?Hlen;
    destruct (currentInstance s);
    first [ eexists _, _, (StaticShape _); repeat split; reflexivity
          | eexists _, _, (AnimatedShape _); repeat split; reflexivity ].
Qed.

Lemma step_keeps_pending (d : Directive) (s s' : State) (log : list Diagnostic) :
  changes_pending d = false -> step d s = Done s' log ->
  pending (graphicsState s') = pending (graphicsState s).
Proof.
  intros Hd Hstep. destruct d; try discriminate Hd; unfold_directives.
  all: repeat case_match; simplify_eq; inv_lookups; reflexivity.
Qed.

(** C6 (as the code has it).  In the world block AreaLightSource sets the
    pending area-light name, parameters and location of the graphics state.
    While the pending name is non-empty, every Shape appends a new area-light
    entity carrying the pending values to the area-lights list, gives the shape
    it appends the index of that entity (converted to int) and leaves the
    graphics state, pending values included, as it was; with an empty pending
    name Shape appends no area light and the shape gets index -1.  Apart from
    AreaLightSource itself, only the scope restorations AttributeEnd and
    ObjectEnd change the pending values. *)
Theorem pending_area_light :
  (forall (s : State) (name : string) (params : ParsedParameterVector) (loc : FileLoc),
      currentApiState s = WorldBlock ->
      exists s', AreaLightSource name params loc s = Done s' [] /\
        pending (graphicsState s')
        = (name, DictWith params (lightAttributes (graphicsState s))
                          (colorSpace (graphicsState s)), loc)) /\
  (forall (s : State) (name : string) (params : ParsedParameterVector) (loc : FileLoc),
      currentApiState s = WorldBlock ->
      areaLightName (graphicsState s) <> "" ->
      exists s' log e,
        Shape name params loc s = Done s' log /\
        areaLights s' = areaLights s ++ [pending_entity (graphicsState s)] /\
        shape_appended s s' e /\
        lightIndex e = to_int (Z.of_nat (length (areaLights s))) /\
        ((Z.of_nat (length (areaLights s)) < 2 ^ 31)%Z ->
         lightIndex e = Z.of_nat (length (areaLights s)) /\
         areaLights s' !! length (areaLights s) = Some (pending_entity (graphicsState s))) /\
        graphicsState s' = graphicsState s) /\
  (forall (s : State) (name : string) (params : ParsedParameterVector) (loc : FileLoc),
      currentApiState s = WorldBlock ->
      areaLightName (graphicsState s) = "" ->
      exists s' log e,
        Shape name params loc s = Done s' log /\
        areaLights s' = areaLights s /\
        shape_appended s s' e /\
        lightIndex e = (-1)%Z) /\
  (forall (d : Directive) (s s' : State) (log : list Diagnostic),
      changes_pending d = false -> step d s = Done s' log ->
      pending (graphicsState s') = pending (graphicsState s)).
Proof.
  split; [|split; [|split]].
  - intros s name params loc Hw.
    unfold AreaLightSource, VERIFY_WORLD, VERIFY_INITIALIZED. rewrite Hw.
    eexists. split; reflexivity.
  - intros s name params loc Hw Hn.
    destruct (Shape_appends name params loc s Hw) as (s' & log & e & H & Ha & Hg & Hl & Hi).
    apply String.eqb_neq in Hn. rewrite Hn in Hl, Hi.
    exists s', log, e. repeat split; auto.
    + rewrite Hi. apply to_int_small. lia.
    + rewrite Hl. unfold push_back. rewrite lookup_app_r by lia.
      now rewrite Nat.sub_diag.
  - intros s name params loc Hw Hn.
    destruct (Shape_appends name params loc s Hw) as (s' & log & e & H & Ha & Hg & Hl & Hi).
    rewrite Hn in Hl, Hi. simpl in Hl, Hi. exists s', log, e. auto.
  - apply step_keeps_pending.
Qed.

End AreaLights.

(** C6, as stated, fails when the name given to AreaLightSource is empty:
    the Shape that follows appends no area light and is linked to none. *)
Lemma AreaLightSource_empty_name_counterexample :
  exists s,
    run (L := Sym.lib)
        [DWorldBegin 1%nat; DAreaLightSource "" [] 2%nat; DShape "sphere" [] 3%nat] Sym.fresh
    = Done s [] /\
    length (areaLights s) = 0%nat /\
    map sh_lightIndex (shapes s) = [(-1)%Z].
Proof.
  refine (ex_intro _ (state_of (run (L := Sym.lib)
                                  [DWorldBegin 1%nat; DAreaLightSource "" [] 2%nat;
                                   DShape "sphere" [] 3%nat] Sym.fresh) Sym.fresh) _).
  split; [apply finished_Done; vm_compute; reflexivity|].
  split; vm_compute; reflexivity.
Qed.

(** Scenario E on the model: two AreaLightSource + Shape pairs in one
    attribute block give two area-light entities with the same parameters,
    linked from the two shapes by the indices 0 and 1. *)
Lemma pending_area_light_witness :
  (let s := state_of (run (L := Sym.lib)
                        [DWorldBegin 1%nat; DAttributeBegin 2%nat;
                         DAreaLightSource "diffuse" [] 3%nat; DShape "sphere" [] 4%nat;
                         DAreaLightSource "diffuse" [] 3%nat] Sym.fresh) Sym.fresh in
   exists s' log e,
     Shape (L := Sym.lib) "disk" [] 5%nat s = Done s' log /\
     map e_name (areaLights s') = ["diffuse"; "diffuse"] /\
     lightIndex e = 1%Z /\
     areaLightName (graphicsState s') = "diffuse") /\
  (exists s', AreaLightSource (L := Sym.lib) "diffuse" [] 3%nat Sym.world = Done s' []) /\
  (exists s' log e, Shape (L := Sym.lib) "disk" [] 5%nat Sym.world = Done s' log /\
                    lightIndex e = (-1)%Z) /\
  (forall s' log,
      step (L := Sym.lib) (DShape "disk" [] 5%nat) Sym.world = Done s' log ->
      pending (graphicsState s') = pending (graphicsState Sym.world)).
Proof.
  pose proof (pending_area_light (L := Sym.lib)) as (Hsrc & Hshape & Hnone & Hkeep).
  split; [|split; [|split]].
  - intros s.
    assert (Hw : currentApiState s = WorldBlock) by (vm_compute; reflexivity).
    assert (Hn : areaLightName (graphicsState s) = "diffuse") by (vm_compute; reflexivity).
    assert (Hl : map e_name (areaLights s) = ["diffuse"]) by (vm_compute; reflexivity).
    clearbody s.
    destruct (Hshape s "disk" [] 5%nat Hw) as (s' & log & e & H & Hl' & _ & _ & Hi & Hg);
      [rewrite Hn; discriminate|].
    exists s', log, e. split; [exact H|].
    split; [rewrite Hl', map_app, Hl; unfold pending_entity; simpl; rewrite Hn; reflexivity|].
    assert (Hlen : length (areaLights s) = 1%nat)
      by (rewrite <- (length_map e_name), Hl; reflexivity).
    split; [rewrite Hlen in Hi; apply Hi; reflexivity | rewrite Hg; exact Hn].
  - destruct (Hsrc Sym.world "diffuse" [] 3%nat ltac:(vm_compute; reflexivity)) as (s' & H & _).
    eauto.
  - destruct (Hnone Sym.world "disk" [] 5%nat ltac:(vm_compute; reflexivity)
                ltac:(vm_compute; reflexivity)) as (s' & log & e & H & _ & _ & Hi).
    eauto.
  - intros s' log H. refine (Hkeep (DShape "disk" [] 5%nat) Sym.world s' log eq_refl H).
Defined.
(** ** More on the API state gate *)

Section GateMore.
Context `{L : PbrtLib}.

(** X1.  In the WorldBlock state every directive that opens with
    [VERIFY_OPTIONS] (TransformTimes, PixelFilter, Film, Sampler, Accelerator,
    Integrator, Camera and WorldBegin itself) returns with the recoverable
    options-in-world error and leaves the whole scene as it was. *)
Theorem options_gate (d : Directive) (s : State) :
  currentApiState s = WorldBlock -> options_only d = true ->
  step d s = Done s [ErrOptionsInWorld (func_name d)].
Proof.
  intros Hs Hd. destruct d; try discriminate Hd; unfold_directives;
    rewrite Hs; reflexivity.
Qed.

Lemma step_api_state (d : Directive) (s s' : State) (log : list Diagnostic) :
  step d s = Done s' log ->
  currentApiState s' = currentApiState s \/
  (exists loc, d = DWorldBegin loc) /\
  currentApiState s = OptionsBlock /\ currentApiState s' = WorldBlock.
Proof.
  intros Hstep. destruct d; unfold_directives.
  all: repeat case_match; simplify_eq; inv_lookups; fields; eauto.
Qed.

(** X2.  The API state only ever moves from OptionsBlock to WorldBlock, and
    only WorldBegin moves it: a directive that returns either leaves the state
    as it was or is a WorldBegin issued in OptionsBlock; hence a run that
    starts in WorldBlock ends in WorldBlock. *)
Theorem api_state_transitions :
  (forall (d : Directive) (s s' : State) (log : list Diagnostic),
      step d s = Done s' log ->
      currentApiState s' = currentApiState s \/
      (exists loc, d = DWorldBegin loc) /\
      currentApiState s = OptionsBlock /\ currentApiState s' = WorldBlock) /\
  (forall (ds : list Directive) (s s' : State) (log : list Diagnostic),
      currentApiState s = WorldBlock -> run ds s = Done s' log ->
      currentApiState s' = WorldBlock).
Proof.
  split; [exact step_api_state|].
  induction ds as [|d ds IH]; intros s s' log Hw Hrun; simpl in Hrun.
  - inversion Hrun; subst. exact Hw.
  - apply and_then_Done in Hrun. destruct Hrun as (s1 & l1 & l2 & Hstep & Hrest & _).
    apply (IH s1 s' l2); [|exact Hrest].
    destruct (step_api_state d s s1 l1 Hstep) as [E | (_ & E & _)]; congruence.
Qed.

End GateMore.

Lemma options_gate_witness :
  step (L := Sym.lib) (DCamera "perspective" [] 2%nat) Sym.world
  = Done Sym.world [ErrOptionsInWorld "Camera"].
Proof.
  refine (options_gate (L := Sym.lib) (DCamera "perspective" [] 2%nat) Sym.world _ _).
  - vm_compute. reflexivity.
  - reflexivity.
Defined.

Lemma api_state_transitions_witness :
  currentApiState
    (state_of (run (L := Sym.lib) [DShape "sphere" [] 2%nat; DAttributeBegin 3%nat] Sym.world)
              Sym.fresh) = WorldBlock /\
  (currentApiState (state_of (step (L := Sym.lib) (DWorldBegin 1%nat) Sym.fresh) Sym.fresh)
   = currentApiState Sym.fresh \/
   (exists loc, DWorldBegin (L := Sym.lib) 1%nat = DWorldBegin loc) /\
   currentApiState Sym.fresh = OptionsBlock /\
   currentApiState (state_of (step (L := Sym.lib) (DWorldBegin 1%nat) Sym.fresh) Sym.fresh)
   = WorldBlock).
Proof.
  split.
  - refine (proj2 (api_state_transitions (L := Sym.lib))
              [DShape "sphere" [] 2%nat; DAttributeBegin 3%nat] Sym.world _ [] _ _).
    + vm_compute. reflexivity.
    + apply finished_Done. vm_compute. reflexivity.
  - refine (proj1 (api_state_transitions (L := Sym.lib)) (DWorldBegin 1%nat) Sym.fresh _ [] _).
    apply finished_Done. vm_compute. reflexivity.
Defined.
(** ** More on scopes *)

Section ScopesMore.
Context `{L : PbrtLib}.


Lemma block_closed (b e : Directive) (body : list Directive) (s s' : State)
    (log : list Diagnostic) :
  currentApiState s = WorldBlock -> scope_pair b e = true -> well_nested body ->
  run (b :: body ++ [e]) s = Done s' log ->
  exists s1 s2 l1 l2 l3,
    step b s = Done s1 l1 /\ run body s1 = Done s2 l2 /\ step e s2 = Done s' l3 /\
    same_scopes s1 s2 /\ closed s s' /\
    graphicsState s' = (if e is DTransformEnd _ then graphicsState s2 else graphicsState s).
Proof.
  intros Hw Hp Hbody Hrun. apply run_block in Hrun.
  destruct Hrun as (s1 & s2 & s3 & r1 & r2 & r3 & r4 & Hb & Hbd & He & Hr).
  simpl in Hr. inversion Hr; subst; clear Hr.
  exists s1, s2, r1, r2, r3.
  destruct b; try discriminate Hp; destruct e; try discriminate Hp; simpl in Hb, He.
  - destruct (AttributeBegin_opened _ _ _ _ Hw Hb) as [Ho _]. pose proof Ho as (Hw1 & _).
    pose proof (well_nested_same_scopes body Hbody s1 s2 r2 Hw1 Hbd) as H12.
    destruct (AttributeEnd_closes _ _ _ _ _ _ (opened_same_scopes _ _ _ _ _ Ho H12) He)
      as (Hc & Hg & _). auto 10.
  - destruct (TransformBegin_opened _ _ _ _ Hw Hb) as [Ho _]. pose proof Ho as (Hw1 & _).
    pose proof (well_nested_same_scopes body Hbody s1 s2 r2 Hw1 Hbd) as H12.
    destruct (TransformEnd_closes _ _ _ _ _ _ (opened_same_scopes _ _ _ _ _ Ho H12) He)
      as (Hc & Hg & _). auto 10.
  - destruct (ObjectBegin_opened _ _ _ _ _ Hw Hb) as (Ho & _). pose proof Ho as (Hw1 & _).
    pose proof (well_nested_same_scopes body Hbody s1 s2 r2 Hw1 Hbd) as H12.
    destruct (ObjectEnd_closes _ _ _ _ _ _ (opened_same_scopes _ _ _ _ _ Ho H12) He)
      as (Hc & Hg & _). auto 10.
Qed.

(** X4.  A scope block of any of the three kinds (AttributeBegin ..
    AttributeEnd, TransformBegin .. TransformEnd, ObjectBegin .. ObjectEnd)
    around a well-nested body, run in the world block, leaves the current
    transform, the active-transform bits and the four stacks as they were
    immediately before the Begin. *)
Theorem scope_block_restores_transform (b e : Directive) (body : list Directive)
    (s s' : State) (log : list Diagnostic) :
  currentApiState s = WorldBlock -> scope_pair b e = true -> well_nested body ->
  run (b :: body ++ [e]) s = Done s' log ->
  curTransform s' = curTransform s /\
  activeTransformBits s' = activeTransformBits s /\
  pushStack s' = pushStack s /\
  pushedTransforms s' = pushedTransforms s /\
  pushedActiveTransformBits s' = pushedActiveTransformBits s /\
  pushedGraphicsStates s' = pushedGraphicsStates s.
Proof.
  intros Hw Hp Hbody Hrun.
  destruct (block_closed b e body s s' log Hw Hp Hbody Hrun)
    as (s1 & s2 & l1 & l2 & l3 & _ & _ & _ & _ & Hc & _).
  destruct Hc as (_ & Eg & Et & Eb & Ek & Ec & Ea). auto 10.
Qed.

(** X5.  TransformEnd restores the transform only: the graphics state that
    the body of a TransformBegin .. TransformEnd block leaves (material,
    media, pending area light, colour space, orientation, attributes) is the
    graphics state after the block, while the current transform is the one
    from before the TransformBegin. *)
Theorem TransformEnd_keeps_graphicsState (body : list Directive) (l1 l2 : FileLoc)
    (s s2 s' : State) (log2 log : list Diagnostic) :
  currentApiState s = WorldBlock -> well_nested body ->
  run (DTransformBegin l1 :: body) s = Done s2 log2 ->
  run (DTransformBegin l1 :: body ++ [DTransformEnd l2]) s = Done s' log ->
  graphicsState s' = graphicsState s2 /\ curTransform s' = curTransform s.
Proof.
  intros Hw Hbody Hrun2 Hrun.
  destruct (block_closed (DTransformBegin l1) (DTransformEnd l2) body s s' log Hw eq_refl
              Hbody Hrun)
    as (s1 & s2' & r1 & r2 & r3 & Hb & Hbd & _ & _ & Hc & Hg).
  simpl in Hrun2. apply and_then_Done in Hrun2.
  destruct Hrun2 as (t1 & m1 & m2 & Hb' & Hbd' & _).
  simpl in Hb. rewrite Hb in Hb'. inversion Hb'; subst.
  rewrite Hbd in Hbd'. inversion Hbd'; subst.
  split; [exact Hg|]. now destruct Hc as (_ & _ & _ & _ & _ & Ec & _).
Qed.

Lemma reachable_stacks (ds : list Directive) (s : State) (log : list Diagnostic) :
  run ds GeneralScene = Done s log -> scopes_wf s.
Proof.
  intros Hrun. pose proof (run_scopes_wf ds GeneralScene GeneralScene_scopes_wf) as H.
  now rewrite Hrun in H.
Qed.



(** *** Well-nested streams meet no nesting diagnostic *)

Lemma no_nesting_and_then (o : Outcome) (k : State -> Outcome) :
  no_nesting_error o ->
  (forall s1 l1, o = Done s1 l1 -> no_nesting_error (k s1)) ->
  no_nesting_error (and_then o k).
Proof.
  intros Ho Hk. destruct o as [s1 l1| |]; simpl in *; auto.
  specialize (Hk s1 l1 eq_refl). destruct (k s1) as [s2 l2| |]; simpl in *; auto.
  apply Forall_app. split; assumption.
Qed.

Lemma plain_step_no_nesting (d : Directive) (s : State) :
  is_scope d = false -> currentApiState s = WorldBlock -> no_nesting_error (step d s).
Proof.
  intros Hd Hw. destruct d; try discriminate Hd; unfold_directives; rewrite ?Hw.
  all: unfold WARN_IF_ANIMATED_TRANSFORM; repeat case_match; simpl; repeat constructor.
Qed.

Lemma AttributeEnd_opened (loc l0 : FileLoc) (s0 s : State) :
  opened KAttribute l0 s0 s -> exists s', AttributeEnd loc s = Done s' [].
Proof.
  intros (Hw & Hg & Ht & Hb & Hk). simpl in Hg.
  unfold AttributeEnd, VERIFY_WORLD, VERIFY_INITIALIZED, restoreAll, closeScope.
  rewrite Hw, Hg, Ht, Hb. rewrite !back_push_back.
  destruct (push_back (pushedGraphicsStates s0) (graphicsState s0)) eqn:E;
    [destruct (push_back_not_nil _ _ E)|].
  fields. rewrite Hk, back_push_back. simpl. eauto.
Qed.

Lemma TransformEnd_opened (loc l0 : FileLoc) (s0 s : State) :
  opened KTransform l0 s0 s -> exists s', TransformEnd loc s = Done s' [].
Proof.
  intros (Hw & Hg & Ht & Hb & Hk). simpl in Hg.
  rewrite TransformEnd_eq. unfold VERIFY_WORLD, VERIFY_INITIALIZED.
  rewrite Hw, Ht, Hb, Hk. rewrite !back_push_back.
  destruct (push_back (pushedTransforms s0) (curTransform s0)) eqn:E;
    [destruct (push_back_not_nil _ _ E)|].
  simpl. eauto.
Qed.

Lemma ObjectEnd_opened (loc l0 : FileLoc) (s0 s : State) :
  opened KObject l0 s0 s -> currentInstance s <> None ->
  exists s', ObjectEnd loc s = Done s' [].
Proof.
  intros (Hw & Hg & Ht & Hb & Hk) Hi. simpl in Hg.
  unfold ObjectEnd, VERIFY_WORLD, VERIFY_INITIALIZED, restoreAll, closeScope.
  rewrite Hw. destruct (currentInstance s); [|congruence].
  fields. rewrite Hg, Ht, Hb. rewrite !back_push_back.
  fields. rewrite Hk, back_push_back. simpl. eauto.
Qed.

Lemma block_no_nesting (b e : Directive) (body rest : list Directive) (s : State) :
  currentApiState s = WorldBlock -> scope_pair b e = true -> well_nested body ->
  (forall s1, currentApiState s1 = WorldBlock -> no_nesting_error (run body s1)) ->
  (forall s1, currentApiState s1 = WorldBlock -> no_nesting_error (run rest s1)) ->
  no_nesting_error (run (b :: body ++ e :: rest) s).
Proof.
  intros Hw Hp Hbody IHbody IHrest.
  assert (Hb : exists k loc,
             (forall s1 l1, step b s = Done s1 l1 ->
                            opened k loc s s1 /\
                            (k = KObject -> currentInstance s1 <> None)) /\
             no_nesting_error (step b s) /\
             (forall s0 s2, opened k loc s0 s2 ->
                            (k = KObject -> currentInstance s2 <> None) ->
                            exists s3, step e s2 = Done s3 [] /\ closed s0 s3)).
  { destruct b; try discriminate Hp; destruct e; try discriminate Hp.
    - exists KAttribute, loc. split; [|split].
      + intros s1 l1 H1. simpl in H1.
        destruct (AttributeBegin_opened _ _ _ _ Hw H1). split; [assumption|discriminate].
      + simpl. unfold AttributeBegin, VERIFY_WORLD, VERIFY_INITIALIZED. rewrite Hw.
        constructor.
      + intros s0 s2 Ho _. destruct (AttributeEnd_opened loc0 _ _ _ Ho) as [s3 H3].
        exists s3. split; [exact H3|].
        now destruct (AttributeEnd_closes _ _ _ _ _ _ Ho H3).
    - exists KTransform, loc. split; [|split].
      + intros s1 l1 H1. simpl in H1.
        destruct (TransformBegin_opened _ _ _ _ Hw H1). split; [assumption|discriminate].
      + simpl. unfold TransformBegin, VERIFY_WORLD, VERIFY_INITIALIZED. rewrite Hw.
        constructor.
      + intros s0 s2 Ho _. destruct (TransformEnd_opened loc0 _ _ _ Ho) as [s3 H3].
        exists s3. split; [exact H3|].
        now destruct (TransformEnd_closes _ _ _ _ _ _ Ho H3).
    - exists KObject, loc. split; [|split].
      + intros s1 l1 H1. simpl in H1.
        destruct (ObjectBegin_opened _ _ _ _ _ Hw H1) as (Ho & _ & Hi).
        split; [assumption|]. intros _. congruence.
      + simpl. rewrite ObjectBegin_eq. unfold VERIFY_WORLD, VERIFY_INITIALIZED. rewrite Hw.
        repeat case_match; simpl; repeat constructor.
      + intros s0 s2 Ho Hi. destruct (ObjectEnd_opened loc0 _ _ _ Ho (Hi eq_refl)) as [s3 H3].
        exists s3. split; [exact H3|].
        now destruct (ObjectEnd_closes _ _ _ _ _ _ Ho H3). }
  destruct Hb as (k & loc & Hopen & Hclean & Hend).
  change (no_nesting_error (and_then (step b s) (run (body ++ e :: rest)))).
  apply no_nesting_and_then; [exact Hclean|]. intros s1 l1 H1.
  destruct (Hopen s1 l1 H1) as [Ho Hi]. pose proof Ho as (Hw1 & _).
  rewrite run_app. apply no_nesting_and_then; [apply IHbody; exact Hw1|].
  intros s2 l2 H2.
  pose proof (well_nested_same_scopes body Hbody s1 s2 l2 Hw1 H2) as H12.
  destruct (Hend s s2 (opened_same_scopes _ _ _ _ _ Ho H12)) as (s3 & H3 & Hc).
  { intros Hk. destruct H12 as (_ & _ & _ & _ & _ & ->). exact (Hi Hk). }
  change (no_nesting_error (and_then (step e s2) (run rest))).
  rewrite H3. apply no_nesting_and_then; [constructor|].
  intros s4 l4 H4. inversion H4; subst. apply IHrest. now destruct Hc.
Qed.

(** X8.  The nesting checks accept every well-nested stream: run in the
    world block, it is never reported an unmatched AttributeEnd or
    TransformEnd, never ended by a mismatched-nesting error or by an ObjectEnd
    outside a definition, and never reads the back of an empty stack (it may
    still end at a fatal error of another kind). *)
Theorem well_nested_no_nesting_errors (ds : list Directive) (s : State) :
  well_nested ds -> currentApiState s = WorldBlock -> no_nesting_error (run ds s).
Proof.
  intros Hds. revert s.
  induction Hds as [|d ds Hd Hds IH | l1 l2 body rest Hbody IHbody Hrest IHrest
                    | l1 l2 body rest Hbody IHbody Hrest IHrest
                    | name l1 l2 body rest Hbody IHbody Hrest IHrest];
    intros s Hw.
  - constructor.
  - change (no_nesting_error (and_then (step d s) (run ds))).
    apply no_nesting_and_then; [now apply plain_step_no_nesting|].
    intros s1 l1 H1. apply IH.
    destruct (plain_step_same_scopes d s s1 l1 Hd Hw H1) as [-> _]. exact Hw.
  - now apply block_no_nesting.
  - now apply block_no_nesting.
  - now apply block_no_nesting.
Qed.

End ScopesMore.

Lemma scope_block_restores_transform_witness :
  curTransform
    (state_of
       (run (L := Sym.lib)
          [DObjectBegin "o" 2%nat; DTranslate 1%Z 0%Z 0%Z 3%nat; DAttributeBegin 4%nat;
           DActiveTransformEndTime 5%nat; DScale 2%Z 2%Z 2%Z 6%nat; DAttributeEnd 7%nat;
           DShape "sphere" [] 8%nat; DObjectEnd 9%nat] Sym.world) Sym.fresh)
  = curTransform Sym.world.
Proof.
  refine (proj1 (scope_block_restores_transform (L := Sym.lib)
            (DObjectBegin "o" 2%nat) (DObjectEnd 9%nat)
            [DTranslate 1%Z 0%Z 0%Z 3%nat; DAttributeBegin 4%nat;
             DActiveTransformEndTime 5%nat; DScale 2%Z 2%Z 2%Z 6%nat; DAttributeEnd 7%nat;
             DShape "sphere" [] 8%nat]
            Sym.world _ [] _ _ _ _)).
  - vm_compute. reflexivity.
  - reflexivity.
  - apply wn_plain; [reflexivity|].
    refine (wn_attribute (L := Sym.lib) 4%nat 7%nat
              [DActiveTransformEndTime 5%nat; DScale 2%Z 2%Z 2%Z 6%nat]
              [DShape "sphere" [] 8%nat] _ _);
      repeat (apply wn_plain; [reflexivity|]); apply wn_nil.
  - apply finished_Done. vm_compute. reflexivity.
Defined.

Lemma TransformEnd_keeps_graphicsState_witness :
  graphicsState
    (state_of
       (run (L := Sym.lib)
          [DTransformBegin 2%nat; DNamedMaterial "gold" 3%nat;
           DTranslate 1%Z 0%Z 0%Z 4%nat; DTransformEnd 5%nat] Sym.world) Sym.fresh)
  = graphicsState
      (state_of
         (run (L := Sym.lib)
            [DTransformBegin 2%nat; DNamedMaterial "gold" 3%nat;
             DTranslate 1%Z 0%Z 0%Z 4%nat] Sym.world) Sym.fresh) /\
  curTransform
    (state_of
       (run (L := Sym.lib)
          [DTransformBegin 2%nat; DNamedMaterial "gold" 3%nat;
           DTranslate 1%Z 0%Z 0%Z 4%nat; DTransformEnd 5%nat] Sym.world) Sym.fresh)
  = curTransform Sym.world.
Proof.
  refine (TransformEnd_keeps_graphicsState (L := Sym.lib)
            [DNamedMaterial "gold" 3%nat; DTranslate 1%Z 0%Z 0%Z 4%nat]
            2%nat 5%nat Sym.world _ _ [] [] _ _ _ _).
  - vm_compute. reflexivity.
  - repeat (apply wn_plain; [reflexivity|]); apply wn_nil.
  - apply finished_Done. vm_compute. reflexivity.
  - apply finished_Done. vm_compute. reflexivity.
Defined.



Lemma well_nested_no_nesting_errors_witness :
  no_nesting_error
    (run (L := Sym.lib)
       [DAttributeBegin 2%nat; DTransformBegin 3%nat; DShape "sphere" [] 4%nat;
        DTransformEnd 5%nat; DAttributeEnd 6%nat; DObjectInstance "o" 7%nat] Sym.world).
Proof.
  refine (well_nested_no_nesting_errors (L := Sym.lib) _ Sym.world _ _).
  - refine (wn_attribute (L := Sym.lib) 2%nat 6%nat
              [DTransformBegin 3%nat; DShape "sphere" [] 4%nat; DTransformEnd 5%nat]
              [DObjectInstance "o" 7%nat] _ _).
    + refine (wn_transform (L := Sym.lib) 3%nat 5%nat [DShape "sphere" [] 4%nat] [] _ _);
        repeat (apply wn_plain; [reflexivity|]); apply wn_nil.
    + repeat (apply wn_plain; [reflexivity|]); apply wn_nil.
  - vm_compute. reflexivity.
Defined.
(** ** Named coordinate systems and the active slots *)

Section CoordSys.
Context `{L : PbrtLib}.

Lemma step_keeps_coordsys (name : string) (d : Directive) (s s' : State)
    (log : list Diagnostic) :
  writes_coordsys name d = false -> step d s = Done s' log ->
  namedCoordinateSystems s' !! name = namedCoordinateSystems s !! name.
Proof.
  intros Hd Hstep. destruct d; unfold_directives; simpl in Hd.
  all: repeat case_match; simplify_eq; inv_lookups; fields; try reflexivity.
  all: apply lookup_insert_ne.
  1, 2: now apply String.eqb_neq.
  all: intros <-; cbv in Hd; discriminate Hd.
Qed.

Lemma run_keeps_coordsys (name : string) (ds : list Directive) :
  Forall (fun d => writes_coordsys name d = false) ds ->
  forall (s s' : State) (log : list Diagnostic),
    run ds s = Done s' log ->
    namedCoordinateSystems s' !! name = namedCoordinateSystems s !! name.
Proof.
  induction 1 as [|d ds Hd Hds IH]; intros s s' log Hrun; simpl in Hrun.
  - now inversion Hrun.
  - apply and_then_Done in Hrun. destruct Hrun as (s1 & l1 & l2 & Hstep & Hrest & _).
    rewrite (IH s1 s' l2 Hrest). exact (step_keeps_coordsys name d s s1 l1 Hd Hstep).
Qed.

(** What a stream that begins by defining [name] and ends with
    CoordSysTransform [name] leaves in the current transform. *)
Lemma defined_then_CoordSysTransform (name : string) (b : Directive) (ds : list Directive)
    (l2 : FileLoc) (ts : TransformSet pbrt.Transform) (s s' : State)
    (log : list Diagnostic) :
  currentApiState s <> Uninitialized ->
  (forall s1 l1, step b s = Done s1 l1 -> namedCoordinateSystems s1 !! name = Some ts) ->
  Forall (fun d => writes_coordsys name d = false) ds ->
  run (b :: ds ++ [DCoordSysTransform name l2]) s = Done s' log ->
  curTransform s' = ts /\ namedCoordinateSystems s' !! name = Some ts.
Proof.
  intros Hinit Hb Hds Hrun. apply run_block in Hrun.
  destruct Hrun as (s1 & s2 & s3 & r1 & r2 & r3 & r4 & H1 & H2 & H3 & Hr).
  simpl in Hr. inversion Hr; subst; clear Hr.
  pose proof (Hb s1 r1 H1) as E1.
  pose proof (run_keeps_coordsys name ds Hds s1 s2 r2 H2) as E2. rewrite E1 in E2.
  destruct (step_initialized b s s1 r1 Hinit H1) as [Hi1 _].
  destruct (run_initialized ds s1 s2 r2 Hi1 H2) as [Hi2 _].
  simpl in H3. unfold CoordSysTransform, VERIFY_INITIALIZED in H3. rewrite E2 in H3.
  destruct (currentApiState s2); [congruence| |]; inversion H3; subst; fields; auto.
Qed.

(** X9.  CoordinateSystem and CoordSysTransform are a save and a restore of
    the whole current transform: after CoordinateSystem [name], any stream
    that does not write that name again (no CoordinateSystem [name]; no
    Camera for "camera", no WorldBegin for "world"), then CoordSysTransform
    [name], the current transform is the one CoordinateSystem saved, on both
    slots and whatever the active bits are.  The registry is not scoped: the
    stream in between may open and close attribute blocks. *)
Theorem CoordinateSystem_round_trip (name : string) (ds : list Directive) (l1 l2 : FileLoc)
    (s s' : State) (log : list Diagnostic) :
  currentApiState s <> Uninitialized ->
  Forall (fun d => writes_coordsys name d = false) ds ->
  run (DCoordinateSystem name l1 :: ds ++ [DCoordSysTransform name l2]) s = Done s' log ->
  curTransform s' = curTransform s /\
  namedCoordinateSystems s' !! name = Some (curTransform s).
Proof.
  intros Hinit Hds Hrun.
  apply (defined_then_CoordSysTransform name (DCoordinateSystem name l1) ds l2
           (curTransform s) s s' log Hinit); [|exact Hds|exact Hrun].
  intros s1 r1 H1. simpl in H1. unfold CoordinateSystem, VERIFY_INITIALIZED in H1.
  destruct (currentApiState s); [congruence| |]; inversion H1; subst; fields;
    apply lookup_insert_eq.
Qed.

(** X10.  A name that no directive of the stream has written is unknown:
    after any stream run on the constructed scene that contains no directive
    writing [name], CoordSysTransform [name] warns that the coordinate system
    could not be found and leaves the scene, the current transform included,
    as it was.  So "world" is unknown before WorldBegin and "camera" before
    Camera. *)
Theorem CoordSysTransform_unknown_name (name : string) (ds : list Directive) (loc : FileLoc)
    (s : State) (log : list Diagnostic) :
  Forall (fun d => writes_coordsys name d = false) ds ->
  run ds GeneralScene = Done s log ->
  CoordSysTransform name loc s = Done s [WarnNoCoordSys name].
Proof.
  intros Hds Hrun.
  pose proof (run_keeps_coordsys name ds Hds GeneralScene s log Hrun) as E.
  change (namedCoordinateSystems GeneralScene) with (∅ : gmap string (TransformSet pbrt.Transform)) in E.
  rewrite lookup_empty in E.
  destruct (run_initialized ds GeneralScene s log) as [Hi _]; [discriminate|exact Hrun|].
  unfold CoordSysTransform, VERIFY_INITIALIZED. rewrite E.
  destruct (currentApiState s); [congruence| |]; reflexivity.
Qed.

(** X11.  The two coordinate systems the interpreter defines itself.  After
    Camera in the options block, CoordSysTransform "camera" sets the current
    transform to the inverse of the transform current at the Camera call;
    after WorldBegin, CoordSysTransform "world" sets it to the identity on
    both slots; in both cases provided no directive in between wrote the
    name. *)
Theorem builtin_coordinate_systems (ds : list Directive) (l1 l2 : FileLoc)
    (s s' : State) (log : list Diagnostic) :
  currentApiState s = OptionsBlock ->
  (forall name params,
      Forall (fun d => writes_coordsys "camera" d = false) ds ->
      run (DCamera name params l1 :: ds ++ [DCoordSysTransform "camera" l2]) s = Done s' log ->
      curTransform s' = ts_Inverse (curTransform s)) /\
  (Forall (fun d => writes_coordsys "world" d = false) ds ->
   run (DWorldBegin l1 :: ds ++ [DCoordSysTransform "world" l2]) s = Done s' log ->
   curTransform s' = MkTransformSet t_identity t_identity).
Proof.
  intros Ho. assert (Hinit : currentApiState s <> Uninitialized) by congruence.
  split.
  - intros name params Hds Hrun.
    apply (defined_then_CoordSysTransform "camera" (DCamera name params l1) ds l2
             (ts_Inverse (curTransform s)) s s' log Hinit); [|exact Hds|exact Hrun].
    intros s1 r1 H1. unfold_directives. rewrite Ho in H1.
    repeat case_match; simplify_eq; inv_lookups; fields. apply lookup_insert_eq.
  - intros Hds Hrun.
    apply (defined_then_CoordSysTransform "world" (DWorldBegin l1) ds l2
             (MkTransformSet t_identity t_identity) s s' log Hinit); [|exact Hds|exact Hrun].
    intros s1 r1 H1. unfold_directives. rewrite Ho in H1.
    inversion H1; subst; fields. apply lookup_insert_eq.
Qed.

(** X12.  ActiveTransform selects the slots a transform directive assigns.
    For each of Identity, Translate, Transform, ConcatTransform, Rotate, Scale
    and LookAt, with [f] the expression it assigns: after ActiveTransform
    StartTime the directive assigns the start slot and leaves the end slot,
    after ActiveTransform EndTime it assigns the end slot and leaves the start
    slot, after ActiveTransform All it assigns both. *)
Theorem ActiveTransform_selects (d : Directive) (f : pbrt.Transform -> pbrt.Transform)
    (loc : FileLoc) (s : State) :
  currentApiState s <> Uninitialized ->
  assigned d = Some f ->
  (exists s', run [DActiveTransformStartTime loc; d] s = Done s' [] /\
     curTransform s' = MkTransformSet (f (ts_start (curTransform s))) (ts_end (curTransform s))) /\
  (exists s', run [DActiveTransformEndTime loc; d] s = Done s' [] /\
     curTransform s' = MkTransformSet (ts_start (curTransform s)) (f (ts_end (curTransform s)))) /\
  (exists s', run [DActiveTransformAll loc; d] s = Done s' [] /\
     curTransform s'
     = MkTransformSet (f (ts_start (curTransform s))) (f (ts_end (curTransform s)))).
Proof.
  intros Hinit Hd.
  destruct d; try discriminate Hd; simpl in Hd; inversion Hd; subst; clear Hd.
  all: unfold run, step, and_then, ActiveTransformStartTime, ActiveTransformEndTime,
         ActiveTransformAll, Identity, Translate, GeneralScene.Transform, ConcatTransform,
         Rotate, Scale, LookAt, VERIFY_INITIALIZED; fields.
  all: destruct (currentApiState s); [congruence| |].
  all: repeat split; eexists; (split; [reflexivity|]).
  all: unfold FOR_ACTIVE_TRANSFORMS; fields; reflexivity.
Qed.

End CoordSys.

Lemma CoordinateSystem_round_trip_witness :
  curTransform
    (state_of
       (run (L := Sym.lib)
          [DCoordinateSystem "a" 2%nat; DAttributeBegin 3%nat; DTranslate 1%Z 0%Z 0%Z 4%nat;
           DCoordinateSystem "b" 5%nat; DAttributeEnd 6%nat; DActiveTransformEndTime 7%nat;
           DScale 2%Z 2%Z 2%Z 8%nat; DCoordSysTransform "a" 9%nat] Sym.world) Sym.fresh)
  = curTransform Sym.world.
Proof.
  refine (proj1 (CoordinateSystem_round_trip (L := Sym.lib) "a"
            [DAttributeBegin 3%nat; DTranslate 1%Z 0%Z 0%Z 4%nat;
             DCoordinateSystem "b" 5%nat; DAttributeEnd 6%nat; DActiveTransformEndTime 7%nat;
             DScale 2%Z 2%Z 2%Z 8%nat] 2%nat 9%nat Sym.world _ [] _ _ _)).
  - vm_compute. discriminate.
  - repeat constructor.
  - apply finished_Done. vm_compute. reflexivity.
Defined.

Lemma CoordSysTransform_unknown_name_witness :
  CoordSysTransform (L := Sym.lib) "world" 9%nat
    (state_of (run [DTranslate 1%Z 0%Z 0%Z 1%nat; DCamera "perspective" [] 2%nat] Sym.fresh)
              Sym.fresh)
  = Done (state_of (run [DTranslate 1%Z 0%Z 0%Z 1%nat; DCamera "perspective" [] 2%nat]
                        Sym.fresh) Sym.fresh)
         [WarnNoCoordSys "world"].
Proof.
  refine (CoordSysTransform_unknown_name (L := Sym.lib) "world"
            [DTranslate 1%Z 0%Z 0%Z 1%nat; DCamera "perspective" [] 2%nat] 9%nat _ [] _ _).
  - repeat constructor.
  - apply finished_Done. vm_compute. reflexivity.
Defined.

Lemma builtin_coordinate_systems_witness :
  curTransform
    (state_of
       (run (L := Sym.lib)
          [DCamera "perspective" [] 2%nat; DWorldBegin 3%nat; DTranslate 1%Z 0%Z 0%Z 4%nat;
           DCoordSysTransform "camera" 5%nat]
          (state_of (run [DTranslate 0%Z 0%Z 5%Z 1%nat] Sym.fresh) Sym.fresh)) Sym.fresh)
  = ts_Inverse (curTransform (state_of (run (L := Sym.lib) [DTranslate 0%Z 0%Z 5%Z 1%nat]
                                            Sym.fresh) Sym.fresh)) /\
  curTransform
    (state_of
       (run (L := Sym.lib)
          [DWorldBegin 3%nat; DTranslate 1%Z 0%Z 0%Z 4%nat; DCoordSysTransform "world" 5%nat]
          Sym.fresh) Sym.fresh)
  = MkTransformSet t_identity t_identity.
Proof.
  split.
  - refine (proj1 (builtin_coordinate_systems (L := Sym.lib)
              [DWorldBegin 3%nat; DTranslate 1%Z 0%Z 0%Z 4%nat] 2%nat 5%nat _ _ [] _)
              "perspective" [] _ _).
    + vm_compute. reflexivity.
    + repeat constructor.
    + apply finished_Done. vm_compute. reflexivity.
  - refine (proj2 (builtin_coordinate_systems (L := Sym.lib)
              [DTranslate 1%Z 0%Z 0%Z 4%nat] 3%nat 5%nat Sym.fresh _ [] _) _ _).
    + vm_compute. reflexivity.
    + repeat constructor.
    + apply finished_Done. vm_compute. reflexivity.
Defined.

Lemma ActiveTransform_selects_witness :
  exists s',
    run (L := Sym.lib) [DActiveTransformEndTime 2%nat; DTranslate 1%Z 0%Z 0%Z 3%nat] Sym.world
    = Done s' [] /\
    curTransform s'
    = MkTransformSet (ts_start (curTransform Sym.world))
                     (t_mul (ts_end (curTransform Sym.world)) (t_translate 1%Z 0%Z 0%Z)).
Proof.
  refine (proj1 (proj2 (ActiveTransform_selects (L := Sym.lib)
            (DTranslate 1%Z 0%Z 0%Z 3%nat) (fun cur => t_mul cur (t_translate 1%Z 0%Z 0%Z))
            2%nat Sym.world _ _))).
  - vm_compute. discriminate.
  - reflexivity.
Defined.
(** ** Entities *)

Section Entities.
Context `{L : PbrtLib}.

Lemma grows_refl (s : State) : grows s s.
Proof. unfold grows. repeat split; try reflexivity. eauto. Qed.

Lemma grows_trans (s1 s2 s3 : State) : grows s1 s2 -> grows s2 s3 -> grows s1 s3.
Proof.
  intros (A1 & A2 & A3 & A4 & A5 & A6 & A7 & A8 & A9 & A10 & A11)
         (B1 & B2 & B3 & B4 & B5 & B6 & B7 & B8 & B9 & B10 & B11).
  unfold grows. repeat split; try (etrans; eassumption).
  intros n d Hd. destruct (A11 n d Hd) as (d1 & H1 & P1 & Q1).
  destruct (B11 n d1 H1) as (d2 & H2 & P2 & Q2).
  exists d2. repeat split; [assumption | etrans; eassumption | etrans; eassumption].
Qed.

Lemma prefix_push_back {A} (l : list A) (x : A) : l `prefix_of` push_back l x.
Proof. now exists [x]. Qed.

Lemma step_grows (d : Directive) (s s' : State) (log : list Diagnostic) :
  step d s = Done s' log -> grows s s'.
Proof.
  intros Hstep. destruct d; unfold_directives.
  all: repeat case_match; simplify_eq; inv_lookups; try apply grows_refl.
  all: unfold grows; fields; repeat split; try reflexivity; try apply prefix_push_back;
    try (apply insert_subseteq; assumption); eauto.
  all: try (etrans; [|apply prefix_push_back]; apply prefix_push_back).
  all: intros n d Hd.
  all: try (destruct (decide (n = name)) as [->|Hn];
            [congruence | rewrite lookup_insert_ne by congruence; eauto]).
  all: match goal with
       | |- context [alter ?f ?i _] =>
         destruct (decide (n = i)) as [->|Hn];
           [rewrite lookup_alter_eq, Hd; simpl; eexists; split; [reflexivity|];
            split; try reflexivity; apply prefix_push_back
           | rewrite lookup_alter_ne by congruence; eauto]
       end.
Qed.

Lemma run_grows (ds : list Directive) (s s' : State) (log : list Diagnostic) :
  run ds s = Done s' log -> grows s s'.
Proof.
  revert s log. induction ds as [|d ds IH]; intros s log Hrun; simpl in Hrun.
  - inversion Hrun; subst. apply grows_refl.
  - apply and_then_Done in Hrun. destruct Hrun as (s1 & l1 & l2 & Hstep & Hrest & _).
    exact (grows_trans s s1 s' (step_grows d s s1 l1 Hstep) (IH s1 l2 Hrest)).
Qed.

(** X13.  The interpreter only ever adds entities.  Over any run, each of
    the lists of materials, lights, area lights, shapes, animated shapes,
    instances, float textures and spectrum textures is extended at its end
    (so every index into them keeps its meaning), every named material and
    named medium stays as first declared, and every instance definition stays
    registered with its shape lists extended at their ends. *)
Theorem entities_append_only (ds : list Directive) (s s' : State) (log : list Diagnostic) :
  run ds s = Done s' log -> grows s s'.
Proof. apply run_grows. Qed.

Lemma step_in_definition (name : string) (dd : Directive) (s s1 : State)
    (l : list Diagnostic) (d : list ShapeSceneEntity * list AnimatedShapeSceneEntity) :
  currentApiState s = WorldBlock -> currentInstance s = Some name ->
  instanceDefinitions s !! name = Some d -> is_object_end dd = false ->
  step dd s = Done s1 l ->
  currentApiState s1 = WorldBlock /\ currentInstance s1 = Some name /\
  shapes s1 = shapes s /\ animatedShapes s1 = animatedShapes s /\
  instances s1 = instances s /\
  (forall n, n <> name -> instanceDefinitions s1 !! n = instanceDefinitions s !! n) /\
  exists d1, instanceDefinitions s1 !! name = Some d1 /\
    (length (fst d1) + length (snd d1)
     = length (fst d) + length (snd d) + (if is_shape dd then 1 else 0))%nat.
Proof.
  intros Hw Hi Hd Hdd Hstep. destruct dd; try discriminate Hdd; unfold_directives.
  all: rewrite ?Hw, ?Hi in Hstep.
  all: repeat case_match; simplify_eq; inv_lookups; fields.
  all: repeat (split; [first [assumption | reflexivity
                              | intros n Hn; rewrite lookup_alter_ne by congruence;
                                reflexivity]|]).
  all: try (exists d; split; [assumption | cbn [is_shape]; lia]).
  all: rewrite lookup_alter_eq, Hd; simpl; eexists; (split; [reflexivity|]);
    cbn [fst snd]; unfold push_back; rewrite length_app; simpl; lia.
Qed.

Lemma run_in_definition (name : string) (body : list Directive) :
  Forall (fun d => is_object_end d = false) body ->
  forall (s s1 : State) (l : list Diagnostic)
         (d : list ShapeSceneEntity * list AnimatedShapeSceneEntity),
    currentApiState s = WorldBlock -> currentInstance s = Some name ->
    instanceDefinitions s !! name = Some d ->
    run body s = Done s1 l ->
    currentApiState s1 = WorldBlock /\ currentInstance s1 = Some name /\
    shapes s1 = shapes s /\ animatedShapes s1 = animatedShapes s /\
    instances s1 = instances s /\
    (forall n, n <> name -> instanceDefinitions s1 !! n = instanceDefinitions s !! n) /\
    exists d1, instanceDefinitions s1 !! name = Some d1 /\
      (length (fst d1) + length (snd d1)
       = length (fst d) + length (snd d) + length (List.filter is_shape body))%nat.
Proof.
  induction 1 as [|dd body Hdd Hbody IH]; intros s s1 l d Hw Hi Hd Hrun; simpl in Hrun.
  - inversion Hrun; subst. repeat (split; [auto|]). exists d. split; [assumption|simpl; lia].
  - apply and_then_Done in Hrun. destruct Hrun as (s0 & l0 & l2 & Hstep & Hrest & _).
    destruct (step_in_definition name dd s s0 l0 d Hw Hi Hd Hdd Hstep)
      as (Hw0 & Hi0 & E1 & E2 & E3 & E4 & d0 & Hd0 & Hlen0).
    destruct (IH s0 s1 l2 d0 Hw0 Hi0 Hd0 Hrest)
      as (Hw1 & Hi1 & F1 & F2 & F3 & F4 & d1 & Hd1 & Hlen1).
    repeat (split; [congruence|]). split.
    + intros n Hn. rewrite F4, E4 by assumption. reflexivity.
    + exists d1. split; [assumption|]. simpl. destruct (is_shape dd); simpl; lia.
Qed.

(** X14.  ObjectBegin .. ObjectEnd collects the shapes of its body.  For a
    block run in the world block whose body holds no ObjectEnd, the name was
    not defined before, and after the block the definition registered under
    the name holds exactly as many shapes, static and animated together, as
    the body has Shape directives, at whatever depth of attribute and
    transform blocks; the scene's own lists of shapes, animated shapes and
    instances and the other definitions are as before, and no definition is
    open. *)
Theorem object_definition_collects_shapes (name : string) (body : list Directive)
    (l1 l2 : FileLoc) (s s' : State) (log : list Diagnostic) :
  currentApiState s = WorldBlock ->
  Forall (fun d => is_object_end d = false) body ->
  run (DObjectBegin name l1 :: body ++ [DObjectEnd l2]) s = Done s' log ->
  instanceDefinitions s !! name = None /\
  shapes s' = shapes s /\ animatedShapes s' = animatedShapes s /\
  instances s' = instances s /\ currentInstance s' = None /\
  (forall n, n <> name -> instanceDefinitions s' !! n = instanceDefinitions s !! n) /\
  exists d, instanceDefinitions s' !! name = Some d /\
    (length (fst d) + length (snd d))%nat = length (List.filter is_shape body).
Proof.
  intros Hw Hbody Hrun. apply run_block in Hrun.
  destruct Hrun as (s1 & s2 & s3 & r1 & r2 & r3 & r4 & Hb & Hbd & He & Hr).
  simpl in Hr. inversion Hr; subst; clear Hr.
  simpl in Hb. rewrite ObjectBegin_eq in Hb. unfold VERIFY_WORLD, VERIFY_INITIALIZED in Hb.
  rewrite Hw in Hb. destruct (currentInstance s) eqn:Ei; [discriminate|].
  destruct (instanceDefinitions s !! name) eqn:En; [discriminate|].
  inversion Hb; subst; clear Hb.
  match type of Hbd with run body ?t = _ => set (s1 := t) in * end.
  destruct (run_in_definition name body Hbody s1 s2 r2 ([], []))
    as (Hw2 & Hi2 & E1 & E2 & E3 & E4 & d & Hd & Hlen); try reflexivity; try assumption.
  { subst s1. fields. apply lookup_insert_eq. }
  subst s1. fields.
  simpl in He. unfold ObjectEnd, VERIFY_WORLD, VERIFY_INITIALIZED, restoreAll, closeScope in He.
  rewrite Hw2, Hi2 in He. fields.
  repeat case_match; simplify_eq; fields.
  repeat (split; [first [assumption | reflexivity]|]). split.
  - intros m Hm. rewrite E4 by assumption. apply lookup_insert_ne. congruence.
  - exists d. split; [assumption|]. simpl in Hlen. lia.
Qed.

(** X15.  ObjectInstance does not resolve the name it is given.  In the
    world block with no definition open, it returns silently for every name,
    defined or not, and appends one instance entity of that name, which
    carries an animated transform exactly when the current transform is
    animated and a static one otherwise; the registry of definitions is not
    consulted and stays as it was. *)
Theorem ObjectInstance_appends (name : string) (loc : FileLoc) (s : State) :
  currentApiState s = WorldBlock -> currentInstance s = None ->
  exists s' e,
    ObjectInstance name loc s = Done s' [] /\
    instances s' = instances s ++ [e] /\
    i_name e = name /\ i_loc e = loc /\
    (if CTMIsAnimated (curTransform s) (cameraFromWorldT s)
     then is_Some (i_worldFromInstanceAnim e) /\ i_worldFromInstance e = None
     else i_worldFromInstanceAnim e = None /\ is_Some (i_worldFromInstance e)) /\
    instanceDefinitions s' = instanceDefinitions s.
Proof.
  intros Hw Hi. unfold ObjectInstance, VERIFY_WORLD, VERIFY_INITIALIZED. rewrite Hw, Hi.
  destruct (CTMIsAnimated (curTransform s) (cameraFromWorldT s)).
  - destruct (lookup _ s) as [p0 s1] eqn:E0. destruct (lookup _ s1) as [p1 s2] eqn:E1.
    inv_lookups. eexists _, _. split; [reflexivity|]. fields. simpl. eauto 10.
  - destruct (lookup _ s) as [p0 s1] eqn:E0.
    inv_lookups. eexists _, _. split; [reflexivity|]. fields. simpl. eauto 10.
Qed.


Lemma attribute_list_cases (target : string) (g : GraphicsState) :
  (target = "shape" /\ attribute_list target g = Some (shapeAttributes g)) \/
  (target = "light" /\ attribute_list target g = Some (lightAttributes g)) \/
  (target = "material" /\ attribute_list target g = Some (materialAttributes g)) \/
  (target = "medium" /\ attribute_list target g = Some (mediumAttributes g)) \/
  (target = "texture" /\ attribute_list target g = Some (textureAttributes g)) \/
  (attribute_list target g = None /\
   (target =? "shape")%string = false /\ (target =? "light")%string = false /\
   (target =? "material")%string = false /\ (target =? "medium")%string = false /\
   (target =? "texture")%string = false).
Proof.
  unfold attribute_list.
  destruct (String.eqb_spec target "shape") as [->|]; [left; split; reflexivity|right].
  destruct (String.eqb_spec target "light") as [->|]; [left; split; reflexivity|right].
  destruct (String.eqb_spec target "material") as [->|]; [left; split; reflexivity|right].
  destruct (String.eqb_spec target "medium") as [->|]; [left; split; reflexivity|right].
  destruct (String.eqb_spec target "texture") as [->|]; [left; split; reflexivity|right].
  repeat split; reflexivity.
Qed.

(** X17.  Attribute appends to the list its target names and to no other.
    For each of the targets shape, light, material, medium and texture the
    call returns silently, the target's list is extended at its end by the
    given parameters in their order, each marked as possibly unused and tied
    to the colour space current at this call, and the lists of the other
    targets and the colour space are as before; any other target name is a
    fatal error. *)
Theorem Attribute_appends_held (target : string) (attrib : ParsedParameterVector)
    (loc : FileLoc) (s : State) :
  currentApiState s <> Uninitialized ->
  match attribute_list target (graphicsState s) with
  | Some l =>
    exists s',
      Attribute target attrib loc s = Done s' [] /\
      attribute_list target (graphicsState s')
      = Some (l ++ map (held (colorSpace (graphicsState s))) attrib) /\
      (forall t, t <> target ->
                 attribute_list t (graphicsState s') = attribute_list t (graphicsState s)) /\
      colorSpace (graphicsState s') = colorSpace (graphicsState s)
  | None => Attribute target attrib loc s = Exit (ErrUnknownAttributeTarget target)
  end.
Proof.
  intros Hinit. unfold Attribute, VERIFY_INITIALIZED.
  destruct (currentApiState s) eqn:Ea; [congruence| |].
  all: destruct (attribute_list_cases target (graphicsState s))
    as [[-> ->]|[[-> ->]|[[-> ->]|[[-> ->]|[[-> ->]|(-> & -> & -> & -> & -> & ->)]]]]];
    try reflexivity.
  all: cbn [String.eqb Ascii.eqb Bool.eqb]; eexists; (split; [reflexivity|]); fields.
  all: split; [reflexivity|]; split; [|reflexivity].
  all: intros t Ht;
    destruct (attribute_list_cases t (graphicsState s))
      as [[-> E]|[[-> E]|[[-> E]|[[-> E]|[[-> E]|(E & _)]]]]];
    try congruence; rewrite E; try reflexivity.
  all: unfold attribute_list in *; repeat case_match; simplify_eq; reflexivity.
Qed.

Lemma existsb_names {A} (name : string) (l : list (string * A)) :
  existsb (fun tex => String.eqb (fst tex) name) l = false -> name ∉ map fst l.
Proof.
  intros H Hin. apply list_elem_of_fmap in Hin. destruct Hin as (tex & -> & Hin).
  assert (existsb (fun t => String.eqb (fst t) (fst tex)) l = true); [|congruence].
  apply existsb_exists. exists tex. split; [now apply list_elem_of_In|apply String.eqb_refl].
Qed.

Lemma NoDup_names_push_back {A} (name : string) (x : A) (l : list (string * A)) :
  NoDup (map fst l) -> name ∉ map fst l -> NoDup (map fst (push_back l (name, x))).
Proof.
  intros Hl Hn. unfold push_back. rewrite map_app. apply NoDup_app.
  split; [assumption|]. split; [|apply NoDup_singleton].
  intros y Hy Hy'. apply list_elem_of_singleton in Hy'. simpl in Hy'. congruence.
Qed.

Lemma step_texture_names (d : Directive) (s s' : State) (log : list Diagnostic) :
  NoDup (map fst (floatTextures s)) /\ NoDup (map fst (spectrumTextures s)) ->
  step d s = Done s' log ->
  NoDup (map fst (floatTextures s')) /\ NoDup (map fst (spectrumTextures s')).
Proof.
  intros [Hf Hs] Hstep. destruct d; unfold_directives.
  all: repeat case_match; simplify_eq; inv_lookups; fields; split; try assumption.
  all: apply NoDup_names_push_back; [assumption|]; apply existsb_names; assumption.
Qed.

(** X18.  Texture names are unique per kind, and the kinds are separate
    name spaces.  Over every run from the constructed scene no two float
    textures and no two spectrum textures share a name.  In the world block a
    float texture can be declared under any name no float texture has, also
    one a spectrum texture has, and the declaration leaves the spectrum
    textures alone; likewise with the kinds exchanged. *)
Theorem texture_names_unique :
  (forall (ds : list Directive) (s : State) (log : list Diagnostic),
      run ds GeneralScene = Done s log ->
      NoDup (map fst (floatTextures s)) /\ NoDup (map fst (spectrumTextures s))) /\
  (forall (s : State) (name texname : string) (params : ParsedParameterVector)
          (loc : FileLoc),
      currentApiState s = WorldBlock -> name ∉ map fst (floatTextures s) ->
      exists s', Texture name "float" texname params loc s = Done s' [] /\
        map fst (floatTextures s') = map fst (floatTextures s) ++ [name] /\
        spectrumTextures s' = spectrumTextures s) /\
  (forall (s : State) (name texname : string) (params : ParsedParameterVector)
          (loc : FileLoc),
      currentApiState s = WorldBlock -> name ∉ map fst (spectrumTextures s) ->
      exists s', Texture name "spectrum" texname params loc s = Done s' [] /\
        map fst (spectrumTextures s') = map fst (spectrumTextures s) ++ [name] /\
        floatTextures s' = floatTextures s).
Proof.
  assert (Hex : forall A (name : string) (l : list (string * A)),
             name ∉ map fst l ->
             existsb (fun tex => String.eqb (fst tex) name) l = false).
  { intros A name l Hn. destruct (existsb _ l) eqn:E; [|reflexivity]. exfalso.
    apply existsb_exists in E. destruct E as (tex & Hin & Heq).
    apply String.eqb_eq in Heq. subst name. apply Hn.
    apply list_elem_of_fmap. exists tex. split; [reflexivity|now apply list_elem_of_In]. }
  split; [|split].
  - intros ds. assert (H : forall s s' log,
        NoDup (map fst (floatTextures s)) /\ NoDup (map fst (spectrumTextures s)) ->
        run ds s = Done s' log ->
        NoDup (map fst (floatTextures s')) /\ NoDup (map fst (spectrumTextures s'))).
    { induction ds as [|d ds IH]; intros s s' log Hs Hrun; simpl in Hrun.
      - now inversion Hrun; subst.
      - apply and_then_Done in Hrun. destruct Hrun as (s1 & l1 & l2 & Hstep & Hrest & _).
        exact (IH s1 s' l2 (step_texture_names d s s1 l1 Hs Hstep) Hrest). }
    intros s log Hrun. apply (H GeneralScene s log); [|exact Hrun].
    split; apply NoDup_nil_2.
  - intros s name texname params loc Hw Hn.
    unfold Texture, VERIFY_WORLD, VERIFY_INITIALIZED. rewrite Hw.
    destruct (lookupCTMs s) as [a s1] eqn:E. inv_lookups. fields.
    cbn [String.eqb Ascii.eqb Bool.eqb negb andb]. rewrite (Hex _ _ _ Hn).
    eexists. split; [reflexivity|]. fields. unfold push_back. rewrite map_app. auto.
  - intros s name texname params loc Hw Hn.
    unfold Texture, VERIFY_WORLD, VERIFY_INITIALIZED. rewrite Hw.
    destruct (lookupCTMs s) as [a s1] eqn:E. inv_lookups. fields.
    cbn [String.eqb Ascii.eqb Bool.eqb negb andb]. rewrite (Hex _ _ _ Hn).
    eexists. split; [reflexivity|]. fields. unfold push_back. rewrite map_app. auto.
Qed.

End Entities.

Lemma entities_append_only_witness :
  grows (L := Sym.lib) Sym.world
    (state_of (run [DMaterial "matte" [] 2%nat; DShape "sphere" [] 3%nat;
                    DObjectBegin "o" 4%nat; DShape "disk" [] 5%nat; DObjectEnd 6%nat]
                   Sym.world) Sym.fresh).
Proof.
  refine (entities_append_only (L := Sym.lib)
            [DMaterial "matte" [] 2%nat; DShape "sphere" [] 3%nat;
             DObjectBegin "o" 4%nat; DShape "disk" [] 5%nat; DObjectEnd 6%nat]
            Sym.world _ [] _).
  apply finished_Done. vm_compute. reflexivity.
Defined.

Lemma object_definition_collects_shapes_witness :
  exists d,
    instanceDefinitions
      (state_of
         (run (L := Sym.lib)
            [DObjectBegin "o" 2%nat; DShape "sphere" [] 3%nat; DAttributeBegin 4%nat;
             DActiveTransformEndTime 5%nat; DTranslate 1%Z 0%Z 0%Z 6%nat;
             DShape "disk" [] 7%nat; DAttributeEnd 8%nat; DObjectEnd 9%nat] Sym.world)
         Sym.fresh) !! "o" = Some d /\
    (length (fst d) + length (snd d))%nat = 2%nat.
Proof.
  refine (proj2 (proj2 (proj2 (proj2 (proj2 (proj2
            (object_definition_collects_shapes (L := Sym.lib) "o"
               [DShape "sphere" [] 3%nat; DAttributeBegin 4%nat;
                DActiveTransformEndTime 5%nat; DTranslate 1%Z 0%Z 0%Z 6%nat;
                DShape "disk" [] 7%nat; DAttributeEnd 8%nat]
               2%nat 9%nat Sym.world _ [] _ _ _))))))).
  - vm_compute. reflexivity.
  - repeat constructor.
  - apply finished_Done. vm_compute. reflexivity.
Defined.

Lemma ObjectInstance_appends_witness :
  exists s' e,
    ObjectInstance (L := Sym.lib) "never-defined" 2%nat Sym.world = Done s' [] /\
    instances s' = instances Sym.world ++ [e] /\ i_name e = "never-defined".
Proof.
  destruct (ObjectInstance_appends (L := Sym.lib) "never-defined" 2%nat Sym.world)
    as (s' & e & H1 & H2 & H3 & _).
  - vm_compute. reflexivity.
  - vm_compute. reflexivity.
  - exists s', e. auto.
Defined.


Lemma Attribute_appends_held_witness :
  Attribute (L := Sym.lib) "camera" [] 2%nat Sym.world
  = Exit (ErrUnknownAttributeTarget "camera") /\
  exists s',
    Attribute (L := Sym.lib) "light"
      [MkParsedParameter (L := Sym.lib) "float" "scale" [2%Z] [] [] [] false None] 2%nat Sym.world
    = Done s' [] /\
    attribute_list "light" (graphicsState s')
    = Some [MkParsedParameter (L := Sym.lib) "float" "scale" [2%Z] [] [] [] true (Some Sym.sRGB)].
Proof.
  split.
  - refine (Attribute_appends_held (L := Sym.lib) "camera" [] 2%nat Sym.world _).
    vm_compute. discriminate.
  - destruct (Attribute_appends_held (L := Sym.lib) "light"
                [MkParsedParameter (L := Sym.lib) "float" "scale" [2%Z] [] [] [] false None] 2%nat Sym.world)
      as (s' & H1 & H2 & _).
    + vm_compute. discriminate.
    + exists s'. split; [exact H1|exact H2].
Defined.

Lemma texture_names_unique_witness :
  (NoDup (map fst (floatTextures
            (state_of (run (L := Sym.lib)
                         [DWorldBegin 1%nat; DTexture "t" "float" "constant" [] 2%nat;
                          DTexture "t" "spectrum" "constant" [] 3%nat] Sym.fresh)
                      Sym.fresh)))) /\
  (exists s', Texture (L := Sym.lib) "t" "float" "constant" [] 2%nat Sym.world = Done s' [] /\
              map fst (floatTextures s') = ["t"]).
Proof.
  split.
  - refine (proj1 (proj1 (texture_names_unique (L := Sym.lib))
              [DWorldBegin 1%nat; DTexture "t" "float" "constant" [] 2%nat;
               DTexture "t" "spectrum" "constant" [] 3%nat] _ [] _)).
    apply finished_Done. vm_compute. reflexivity.
  - destruct (proj1 (proj2 (texture_names_unique (L := Sym.lib)))
                Sym.world "t" "constant" [] 2%nat) as (s' & H1 & H2 & _).
    + vm_compute. reflexivity.
    + vm_compute. apply not_elem_of_nil.
    + exists s'. split; [exact H1|exact H2].
Defined.
(** ** Indices and handles *)

Section Indices.
Context `{L : PbrtLib}.

Lemma index_ok_mono (n n' : nat) (i : Z) : (n <= n')%nat -> index_ok n i -> index_ok n' i.
Proof. unfold index_ok. lia. Qed.

Lemma every_shape_impl (P Q : AnyShape -> Prop) (s : State) :
  (forall e, P e -> Q e) -> every_shape P s -> every_shape Q s.
Proof.
  intros HPQ (H1 & H2 & H3). split; [|split].
  - eapply Forall_impl; [exact H1|]. auto.
  - eapply Forall_impl; [exact H2|]. auto.
  - eapply map_Forall_impl; [exact H3|]. intros _ d [Ha Hb]. simpl.
    split; (eapply Forall_impl; [eassumption|]); auto.
Qed.

Lemma indices_in_mono (nm nl nm' nl' : nat) (s : State) :
  (nm <= nm')%nat -> (nl <= nl')%nat -> indices_in nm nl s -> indices_in nm' nl' s.
Proof.
  intros Hm Hl (Hg & Hp & Hs). split; [|split].
  - eapply index_ok_mono; eassumption.
  - eapply Forall_impl; [exact Hp|]. intros g. now apply index_ok_mono.
  - eapply every_shape_impl; [|exact Hs].
    intros e [H1 H2]. split; eapply index_ok_mono; eassumption.
Qed.

Lemma step_indices_ok (d : Directive) (s s' : State) (log : list Diagnostic) :
  indices_ok s -> step d s = Done s' log ->
  (Z.of_nat (length (materials s')) <= 2 ^ 31)%Z ->
  (Z.of_nat (length (areaLights s')) <= 2 ^ 31)%Z ->
  indices_ok s'.
Proof.
  intros H Hstep Hm Hl. unfold indices_ok in *.
  destruct (step_grows d s s' log Hstep) as (Pm & _ & Pl & _).
  apply prefix_length in Pm, Pl.
  apply (indices_in_mono _ _ (length (materials s')) (length (areaLights s'))) in H;
    [|lia|lia].
  clear Pm Pl.
  remember (length (materials s')) as nm eqn:Enm.
  remember (length (areaLights s')) as nl eqn:Enl.
  destruct H as (Hg & Hp & Hsh & Hash & Hinst).
  destruct d; unfold_directives.
  all: repeat case_match; simplify_eq; inv_lookups;
    (split; [|split; [|split; [|split]]]); fields.
  all: try assumption.
  all: try (match goal with H : pushedGraphicsStates _ = _ |- _ => rewrite H; exact Hp end).
  all: try (apply Forall_push_back; assumption).
  all: try (apply Forall_pop_back; assumption).
  all: try (match goal with
            | Hb : back ?l = Some ?x, Hf : Forall _ ?l |- _ => exact (Forall_back _ _ _ Hf Hb)
            end).
  all: try (apply map_Forall_insert_2; [split; constructor | assumption]).
  all: try solve [left; reflexivity].
  all: try (right; unfold push_back in *; rewrite length_app in *; cbn [length] in *;
            rewrite to_int_small; lia).
  all: try (apply map_Forall_alter; [assumption|]; intros [ss as_] [H1 H2];
            cbn [fst snd] in *; split; try assumption).
  all: apply Forall_push_back; [assumption|]; cbn [materialIndex lightIndex
         sh_materialIndex sh_lightIndex ash_materialIndex ash_lightIndex];
    (split; [assumption|]).
  all: first [ left; reflexivity
             | right; unfold push_back in *; rewrite length_app in *; cbn [length] in *;
               rewrite to_int_small; lia ].
Qed.

Lemma run_indices_ok (ds : list Directive) (s s' : State) (log : list Diagnostic) :
  indices_ok s -> run ds s = Done s' log ->
  (Z.of_nat (length (materials s')) <= 2 ^ 31)%Z ->
  (Z.of_nat (length (areaLights s')) <= 2 ^ 31)%Z ->
  indices_ok s'.
Proof.
  revert s log. induction ds as [|d ds IH]; intros s log Hs Hrun Hm Hl; simpl in Hrun.
  - inversion Hrun; subst. exact Hs.
  - apply and_then_Done in Hrun. destruct Hrun as (s1 & l1 & l2 & Hstep & Hrest & _).
    destruct (run_grows ds s1 s' l2 Hrest) as (Pm & _ & Pl & _).
    apply prefix_length in Pm, Pl.
    eapply IH; [|exact Hrest|exact Hm|exact Hl].
    eapply step_indices_ok; [exact Hs|exact Hstep|lia|lia].
Qed.

(** X19.  No shape refers past the end of a list.  Over every run from the
    constructed scene, as long as the lists of materials and of area lights
    hold at most 2^31 entries: the current material index of the graphics
    state, the one of every pushed graphics state and the material index of
    every shape, top-level or inside an instance definition, is -1 or a
    position of the material list; and the area-light index of every shape is
    -1 or a position of the area-light list. *)
Theorem shape_indices_valid (ds : list Directive) (s : State) (log : list Diagnostic) :
  run ds GeneralScene = Done s log ->
  (Z.of_nat (length (materials s)) <= 2 ^ 31)%Z ->
  (Z.of_nat (length (areaLights s)) <= 2 ^ 31)%Z ->
  indices_ok s.
Proof.
  intros Hrun Hm Hl. apply (run_indices_ok ds GeneralScene s log); try assumption.
  split; [|split; [|split; [|split]]].
  - right. simpl. lia.
  - constructor.
  - constructor.
  - constructor.
  - apply map_Forall_empty.
Qed.

End Indices.

Section Handles.
Context `{L : PbrtLib}.
Import TransformCache.

Lemma Lookup_grows (x : pbrt.Transform) (c c' : TransformCache.t) (p : Ptr) :
  Lookup x c = (p, c') ->
  arena c `prefix_of` arena c' /\
  exists v, arena c' !! p = Some v /\ stored_as x v.
Proof.
  intros H. destruct (Lookup_cases x c) as [(q & v & Hq & Hv & He) | [Hq _]];
    rewrite Hq in H; inversion H; subst.
  - split; [reflexivity|]. exists v. split; [assumption|now right].
  - split; [now exists [x]|]. exists x. split; [|now left].
    simpl. now apply list_lookup_middle.
Qed.

Lemma lookup_grows (x : pbrt.Transform) (s s' : State) (p : Ptr) :
  lookup x s = (p, s') ->
  exists c, s' = set_transformCache c s /\
    arena (transformCache s) `prefix_of` arena c /\
    exists v, arena c !! p = Some v /\ stored_as x v.
Proof.
  unfold lookup. destruct (Lookup x (transformCache s)) as [q c] eqn:E.
  intros H. inversion H; subst. exists c. split; [reflexivity|]. now apply Lookup_grows.
Qed.

Lemma valid_mono (c c' : TransformCache.t) (p : Ptr) :
  arena c `prefix_of` arena c' -> valid c p -> valid c' p.
Proof. intros Hp [v Hv]. exists v. eapply prefix_lookup_Some; eassumption. Qed.

Lemma valid_animated_mono (c c' : TransformCache.t) (a : AnimatedTransform) :
  arena c `prefix_of` arena c' -> valid_animated c a -> valid_animated c' a.
Proof. intros Hp [H1 H2]. split; eapply valid_mono; eassumption. Qed.

Lemma lookupCTMs_grows (s s' : State) (a : AnimatedTransform) :
  lookupCTMs s = (a, s') ->
  exists c, s' = set_transformCache c s /\
    arena (transformCache s) `prefix_of` arena c /\ valid_animated c a.
Proof.
  unfold lookupCTMs. destruct (lookup (CTM 0 s) s) as [p0 s0] eqn:H0.
  destruct (lookup (CTM 1 s) s0) as [p1 s1] eqn:H1.
  apply lookup_grows in H0. destruct H0 as (c0 & -> & P0 & v0 & Hv0 & _).
  apply lookup_grows in H1. destruct H1 as (c1 & -> & P1 & v1 & Hv1 & _).
  fields. intros H. inversion H; subst. exists c1. split; [reflexivity|].
  split; [etrans; eassumption|]. split; simpl.
  - exists v0. eapply prefix_lookup_Some; eassumption.
  - exists v1. assumption.
Qed.

Lemma shape_handles_mono (c c' : TransformCache.t) (e : AnyShape) :
  arena c `prefix_of` arena c' -> shape_handles c e -> shape_handles c' e.
Proof.
  intros Hp. destruct e as [e|e]; simpl.
  - intros (v & w & Hv & Hw & Hs). exists v, w.
    repeat split; try assumption; eapply prefix_lookup_Some; eassumption.
  - intros (Ha & v & Hv & Hs). split; [eapply valid_animated_mono; eassumption|].
    exists v. split; [eapply prefix_lookup_Some; eassumption|assumption].
Qed.

Lemma option_holds_impl {A} (P Q : A -> Prop) (o : option A) :
  (forall a, P a -> Q a) -> option_holds P o -> option_holds Q o.
Proof. destruct o; simpl; auto. Qed.

Lemma handles_in_mono (c c' : TransformCache.t) (s : State) :
  arena c `prefix_of` arena c' -> handles_in c s -> handles_in c' s.
Proof.
  intros Hp (H1 & H2 & H3 & H4 & H5 & H6 & H7).
  split; [|split; [|split; [|split; [|split; [|split]]]]].
  - eapply every_shape_impl; [|exact H1]. intros e. now apply shape_handles_mono.
  - eapply Forall_impl; [exact H2|]. intros e. now apply valid_animated_mono.
  - eapply map_Forall_impl; [exact H3|]. intros k e. now apply valid_animated_mono.
  - eapply Forall_impl; [exact H4|]. intros e. now apply valid_animated_mono.
  - eapply Forall_impl; [exact H5|]. intros e. now apply valid_animated_mono.
  - eapply Forall_impl; [exact H6|]. intros e [Ha Hb].
    split; (eapply option_holds_impl; [|eassumption]); intros x.
    + now apply valid_animated_mono.
    + now apply valid_mono.
  - eapply option_holds_impl; [|exact H7]. intros a. now apply valid_animated_mono.
Qed.

Lemma step_handles_ok (d : Directive) (s s' : State) (log : list Diagnostic) :
  handles_ok s -> step d s = Done s' log -> handles_ok s'.
Proof.
  intros H Hstep. unfold handles_ok in *. destruct d; unfold_directives.
  all: repeat case_match; simplify_eq.
  all: repeat match goal with
       | H : lookup _ _ = (_, _) |- _ =>
         apply lookup_grows in H; destruct H as (? & -> & ? & ? & ? & ?)
       | H : lookupCTMs _ = (_, _) |- _ =>
         apply lookupCTMs_grows in H; destruct H as (? & -> & ? & ?)
       end.
  all: unfold deref in *; fields.
  all: repeat match goal with
       | Hp : arena ?a `prefix_of` arena ?b, H : handles_in ?a _ |- _ =>
         apply (handles_in_mono a b _ Hp) in H
       end.
  all: destruct H as (Hs & Hl & Hm & Hf & Hsp & Hi & Hc); destruct Hs as (Hsh & Hash & Hdef).
  all: repeat match goal with
       | Hp : arena ?a `prefix_of` arena ?b, Hv : arena ?a !! ?p = Some ?v |- _ =>
         lazymatch goal with
         | _ : arena b !! p = Some v |- _ => fail
         | _ => pose proof (prefix_lookup_Some _ _ _ _ Hv Hp)
         end
       end.
  all: repeat match goal with
       | Hp : arena ?a `prefix_of` arena ?b, Hv : valid_animated ?a ?t |- _ =>
         apply (valid_animated_mono a b t Hp) in Hv
       end.
  all: repeat match goal with
       | Hv : arena ?c !! ?p = Some _, H : context [default _ (arena ?c !! ?p)] |- _ =>
         rewrite Hv in H; cbn [default] in H
       end.
  all: (split; [split; [|split]|split; [|split; [|split; [|split; [|split]]]]]); fields.
  all: try assumption.
  all: try (apply map_Forall_insert_2; [|assumption]).
  all: try (apply Forall_push_back; [assumption|]).
  all: try (apply map_Forall_alter; [assumption|]; intros [ss as_] [Ha Hb];
            cbn [fst snd] in *; split; try assumption;
            apply Forall_push_back; [assumption|]).
  all: unfold valid_animated, valid, is_Some in *; simpl; eauto 10.
Qed.

(** X20.  No entity holds a dangling transform handle.  Over every run
    from the constructed scene, every handle stored in a shape, an animated
    shape, a light, a named medium, a texture, an instance or the camera
    points into the scene's transform cache; the object-from-world handle of
    each static shape points to the stored instance of the inverse of the
    transform its world-from-object handle points to, and the identity handle
    of each animated shape to the stored instance of the identity. *)
Theorem handles_valid (ds : list Directive) (s : State) (log : list Diagnostic) :
  run ds GeneralScene = Done s log -> handles_ok s.
Proof.
  assert (H : forall s s' log, handles_ok s -> run ds s = Done s' log -> handles_ok s').
  { induction ds as [|d ds IH]; intros s0 s' log0 Hs Hrun; simpl in Hrun.
    - now inversion Hrun; subst.
    - apply and_then_Done in Hrun. destruct Hrun as (s1 & l1 & l2 & Hstep & Hrest & _).
      exact (IH s1 s' l2 (step_handles_ok d s0 s1 l1 Hs Hstep) Hrest). }
  intros Hrun. apply (H GeneralScene s log); [|exact Hrun].
  split; [split; [|split]|split; [|split; [|split; [|split; [|split]]]]].
  all: first [apply map_Forall_empty | apply Forall_nil_2 | exact I].
Qed.

End Handles.

Lemma shape_indices_valid_witness :
  indices_ok
    (state_of (run (L := Sym.lib)
                 [DWorldBegin 1%nat; DMaterial "matte" [] 2%nat;
                  DAreaLightSource "diffuse" [] 3%nat; DShape "sphere" [] 4%nat;
                  DNamedMaterial "gold" 5%nat; DShape "disk" [] 6%nat] Sym.fresh)
              Sym.fresh).
Proof.
  refine (shape_indices_valid (L := Sym.lib)
            [DWorldBegin 1%nat; DMaterial "matte" [] 2%nat;
             DAreaLightSource "diffuse" [] 3%nat; DShape "sphere" [] 4%nat;
             DNamedMaterial "gold" 5%nat; DShape "disk" [] 6%nat] _ [] _ _ _).
  - apply finished_Done. vm_compute. reflexivity.
  - vm_compute. discriminate.
  - vm_compute. discriminate.
Defined.

Lemma handles_valid_witness :
  handles_ok
    (state_of (run (L := Sym.lib)
                 [DTranslate 0%Z 0%Z 5%Z 1%nat; DCamera "perspective" [] 2%nat;
                  DWorldBegin 3%nat; DShape "sphere" [] 4%nat;
                  DActiveTransformEndTime 5%nat; DTranslate 1%Z 0%Z 0%Z 6%nat;
                  DShape "disk" [] 7%nat; DObjectInstance "o" 8%nat] Sym.fresh)
              Sym.fresh).
Proof.
  refine (handles_valid (L := Sym.lib)
            [DTranslate 0%Z 0%Z 5%Z 1%nat; DCamera "perspective" [] 2%nat;
             DWorldBegin 3%nat; DShape "sphere" [] 4%nat;
             DActiveTransformEndTime 5%nat; DTranslate 1%Z 0%Z 0%Z 6%nat;
             DShape "disk" [] 7%nat; DObjectInstance "o" 8%nat] _ [] _).
  apply finished_Done. vm_compute. reflexivity.
Defined.
(** ** WorldEnd *)

Section WorldEnd.
Context `{L : PbrtLib}.

Lemma length_pop_back {A} (l : list A) : length (pop_back l) = pred (length l).
Proof.
  unfold pop_back. rewrite removelast_firstn_len, length_take. lia.
Qed.

Lemma dropGraphicsStates_defined (gs : list GraphicsState)
    (ts : list (TransformSet pbrt.Transform)) :
  (length gs <= length ts)%nat ->
  exists remaining,
    dropGraphicsStates gs ts = Some (remaining, repeat WarnMissingAttributeEnd (length gs)) /\
    length remaining = (length ts - length gs)%nat.
Proof.
  revert ts. induction gs as [|g gs IH]; intros ts Hlen; simpl.
  - exists ts. split; [reflexivity|lia].
  - destruct ts as [|t ts']; [simpl in Hlen; lia|].
    destruct (IH (pop_back (t :: ts'))) as (remaining & -> & Hrem).
    { rewrite length_pop_back. simpl in *. lia. }
    exists remaining. split; [reflexivity|]. rewrite Hrem, length_pop_back. simpl. lia.
Qed.

Lemma dropTransforms_repeat (ts : list (TransformSet pbrt.Transform)) :
  dropTransforms ts = repeat WarnMissingTransformEnd (length ts).
Proof. induction ts as [|t ts IH]; simpl; [reflexivity|now rewrite IH]. Qed.

(** X21.  What WorldEnd does with the scopes left open, on every scene
    reached from the constructed one.  The two loops never pop an empty
    vector.  They warn once of a missing AttributeEnd for each open attribute
    scope and each open object scope (an unclosed ObjectBegin is reported as
    an AttributeBegin), then once of a missing TransformEnd for each open
    transform scope, and leave the pushed graphics states and the pushed
    transforms empty; the pushed active-transform bits and the nesting-kind
    stack are not emptied. *)
Theorem WorldEnd_unwinds (ds : list Directive) (s : State) (log : list Diagnostic) :
  run ds GeneralScene = Done s log ->
  exists s',
    WorldEnd_unwind s
    = Some (s',
            repeat WarnMissingAttributeEnd
                   (length (List.filter opens_graphics (map fst (pushStack s)))) ++
            repeat WarnMissingTransformEnd
                   (length (List.filter (fun k => negb (opens_graphics k))
                                        (map fst (pushStack s))))) /\
    pushedGraphicsStates s' = [] /\ pushedTransforms s' = [] /\
    pushStack s' = pushStack s /\
    pushedActiveTransformBits s' = pushedActiveTransformBits s.
Proof.
  intros Hrun. destruct (reachable_stacks ds s log Hrun) as [(Ht & Hb & Hg) _].
  pose proof (filter_length opens_graphics (map fst (pushStack s))) as Hsplit.
  rewrite length_map in Hsplit.
  destruct (dropGraphicsStates_defined (rev (pushedGraphicsStates s)) (pushedTransforms s))
    as (remaining & Hdrop & Hrem).
  { rewrite length_rev. lia. }
  unfold WorldEnd_unwind. rewrite Hdrop.
  exists (set_pushedTransforms [] (set_pushedGraphicsStates [] s)).
  split; [|repeat split].
  rewrite dropTransforms_repeat, !length_rev, Hrem, length_rev, Hg.
  repeat f_equal. lia.
Qed.

End WorldEnd.

Lemma WorldEnd_unwinds_witness :
  exists s',
    WorldEnd_unwind (L := Sym.lib)
      (state_of (run [DWorldBegin 1%nat; DObjectBegin "o" 2%nat; DTransformBegin 3%nat;
                      DAttributeBegin 4%nat] Sym.fresh) Sym.fresh)
    = Some (s', [WarnMissingAttributeEnd; WarnMissingAttributeEnd; WarnMissingTransformEnd]).
Proof.
  refine ((fun H => _)
            (WorldEnd_unwinds (L := Sym.lib)
               [DWorldBegin 1%nat; DObjectBegin "o" 2%nat; DTransformBegin 3%nat;
                DAttributeBegin 4%nat] _ [] (finished_Done _ Sym.fresh _))).
  - destruct H as (s' & H & _). exists s'. etrans; [exact H|]. f_equal.
  - vm_compute. reflexivity.
Defined.
(** ** Option *)

Section OptionValues.
Context `{L : PbrtLib}.

Lemma length_append (a b : string) :
  String.length (a +:+ b) = (String.length a + String.length b)%nat.
Proof. induction a as [|c a IH]; simpl; [reflexivity|now rewrite IH]. Qed.

Lemma substring_append (a b : string) : String.substring 0 (String.length a) (a +:+ b) = a.
Proof.
  induction a as [|c a IH]; simpl; [now destruct b|now rewrite IH].
Qed.

Lemma get_last_append (a : string) (c : Ascii.ascii) :
  String.get (String.length a) (a +:+ String c EmptyString) = Some c.
Proof. induction a as [|x a IH]; simpl; [reflexivity|exact IH]. Qed.

Lemma get_last_inv (v : string) (c : Ascii.ascii) :
  String.get (String.length v - 1) v = Some c ->
  exists inner, v = inner +:+ String c EmptyString.
Proof.
  induction v as [|x v IH]; simpl; [discriminate|].
  destruct v as [|y v'].
  - simpl. intros H. inversion H; subst. now exists EmptyString.
  - simpl in *. rewrite Nat.sub_0_r in *. intros H.
    destruct (IH H) as [inner ->]. now exists (String x inner).
Qed.

Lemma not_quoted_quoted (inner : string) :
  not_quoted (quoted inner) = if decide (inner = EmptyString) then true else false.
Proof.
  unfold not_quoted, quoted. cbn [String.length String.get].
  rewrite length_append. cbn [String.length].
  replace (S (String.length inner + 1) - 1)%nat with (S (String.length inner)) by lia.
  cbn [String.get]. rewrite get_last_append.
  rewrite !bool_decide_eq_true_2 by reflexivity. simpl.
  destruct inner as [|x inner]; [reflexivity|].
  destruct (decide _) as [E|_]; [discriminate E|]. simpl.
  rewrite !orb_false_r. apply Nat.ltb_ge. lia.
Qed.

Lemma not_quoted_inv (value : string) :
  not_quoted value = false -> exists inner, inner <> EmptyString /\ value = quoted inner.
Proof.
  unfold not_quoted. intros H.
  apply orb_false_elim in H. destruct H as [H Hback].
  apply orb_false_elim in H. destruct H as [Hlen Hfront].
  apply Nat.ltb_ge in Hlen.
  apply negb_false_iff, bool_decide_eq_true_1 in Hfront, Hback.
  destruct value as [|c v]; [discriminate|]. simpl in Hfront. inversion Hfront; subst c.
  simpl in Hlen, Hback. rewrite Nat.sub_0_r in Hback.
  destruct v as [|y v']; [simpl in Hlen; lia|].
  assert (Hb : String.get (String.length (String y v') - 1) (String y v') = Some quote_char).
  { simpl. rewrite Nat.sub_0_r. exact Hback. }
  destruct (get_last_inv _ _ Hb) as [inner Hv]. exists inner. split.
  - intros ->. rewrite Hv in Hlen. simpl in Hlen. lia.
  - unfold quoted. now rewrite Hv.
Qed.

Lemma substring_quoted (inner : string) :
  String.substring 1 (String.length (quoted inner) - 2) (quoted inner) = inner.
Proof.
  unfold quoted. cbn [String.length]. rewrite length_append. cbn [String.length].
  replace (S (String.length inner + 1) - 2)%nat with (String.length inner) by lia.
  cbn [String.substring]. apply substring_append.
Qed.

(** X22.  The string-valued options take a quoted value and store it
    unquoted.  For the options msereferenceimage and msereferenceout (by the
    normalised name), on an initialised scene: a value made of a double
    quote, a non-empty text and a double quote returns silently with exactly
    that text stored in the option, whatever characters it holds, and nothing
    else of the scene or the options changed; every other value, the empty
    quoted string of two quote characters included, is a fatal error. *)
Theorem Option_quoted_string (name : string) (loc : FileLoc) (s : State) :
  currentApiState s <> Uninitialized ->
  (normalizeArg name = "msereferenceimage" ->
   (forall inner, inner <> EmptyString ->
      Option name (quoted inner) loc s
      = Done (set_PbrtOptions (set_mseReferenceImage inner (PbrtOptions s)) s) []) /\
   (forall value, (forall inner, inner <> EmptyString -> value <> quoted inner) ->
      Option name value loc s = Exit (ErrOptionQuoted value))) /\
  (normalizeArg name = "msereferenceout" ->
   (forall inner, inner <> EmptyString ->
      Option name (quoted inner) loc s
      = Done (set_PbrtOptions (set_mseReferenceOutput inner (PbrtOptions s)) s) []) /\
   (forall value, (forall inner, inner <> EmptyString -> value <> quoted inner) ->
      Option name value loc s = Exit (ErrOptionQuoted value))).
Proof.
  intros Hinit.
  assert (Hq : forall upd value,
             (forall inner, inner <> EmptyString -> value <> quoted inner) ->
             option_quoted value upd s = Exit (ErrOptionQuoted value)).
  { intros upd value Hv. unfold option_quoted.
    destruct (not_quoted value) eqn:E; [reflexivity|].
    destruct (not_quoted_inv value E) as (inner & Hne & ->).
    destruct (Hv inner Hne eq_refl). }
  assert (Hd : forall upd inner,
             inner <> EmptyString ->
             option_quoted (quoted inner) upd s
             = Done (set_PbrtOptions (upd inner (PbrtOptions s)) s) []).
  { intros upd inner Hne. unfold option_quoted.
    rewrite not_quoted_quoted. destruct (decide _); [contradiction|].
    now rewrite substring_quoted. }
  unfold Option, VERIFY_INITIALIZED.
  destruct (currentApiState s); [congruence| |].
  all: split; intros ->; cbn [String.eqb Ascii.eqb Bool.eqb]; split; auto.
Qed.

End OptionValues.

Lemma Option_quoted_string_witness :
  Option (L := Sym.lib) "msereferenceimage" (quoted "ref.exr") 1%nat Sym.fresh
  = Done (set_PbrtOptions (set_mseReferenceImage "ref.exr" (PbrtOptions Sym.fresh)) Sym.fresh)
         [] /\
  Option (L := Sym.lib) "msereferenceout" (quoted "") 1%nat Sym.fresh
  = Exit (ErrOptionQuoted (quoted "")).
Proof.
  split.
  - refine (proj1 (proj1 (Option_quoted_string (L := Sym.lib) "msereferenceimage" 1%nat
                            Sym.fresh _) _) "ref.exr" _).
    + vm_compute. discriminate.
    + reflexivity.
    + discriminate.
  - refine (proj2 (proj2 (Option_quoted_string (L := Sym.lib) "msereferenceout" 1%nat
                            Sym.fresh _) _) (quoted "") _).
    + vm_compute. discriminate.
    + reflexivity.
    + intros inner Hne E. apply Hne. vm_compute in E.
      destruct inner as [|c inner]; [reflexivity|].
      destruct inner; discriminate E.
Defined.
(** ** More on the transform interner *)

Section CacheMore.
Context `{L : PbrtLib}.
Import TransformCache.

(** X23.  Handles are stable.  A lookup allocates at most one transform and
    never moves or changes a stored one: the handle it returns is valid in the
    resulting cache and every handle of the cache it started from still points
    to the same transform.  Hence over a run of lookups the cache grows by at
    most one transform per lookup and all the handles returned are valid
    together at the end. *)
Theorem Lookup_keeps_handles :
  (forall (x : pbrt.Transform) (c c' : t) (p : Ptr),
      Lookup x c = (p, c') ->
      (forall q v, arena c !! q = Some v -> arena c' !! q = Some v) /\
      valid c' p /\
      (length (arena c') <= S (length (arena c)))%nat) /\
  (forall (xs : list pbrt.Transform) (c c' : t) (ps : list Ptr),
      LookupAll xs c = (ps, c') ->
      (forall q v, arena c !! q = Some v -> arena c' !! q = Some v) /\
      length ps = length xs /\
      Forall (valid c') ps /\
      (length (arena c') <= length (arena c) + length xs)%nat).
Proof.
  assert (H1 : forall (x : pbrt.Transform) (c c' : t) (p : Ptr),
             Lookup x c = (p, c') ->
             (forall q v, arena c !! q = Some v -> arena c' !! q = Some v) /\
             valid c' p /\
             (length (arena c') <= S (length (arena c)))%nat).
  { intros x c c' p H.
    destruct (Lookup_cases x c) as [(q & v & Hq & Hv & He) | [Hq _]];
      rewrite Hq in H; inversion H; subst.
    - split; [auto|]. split; [now exists v|lia].
    - split; [|split].
      + intros q v Hv. simpl. now apply lookup_app_l_Some.
      + exists x. simpl. now apply list_lookup_middle.
      + simpl. rewrite length_app. simpl. lia. }
  split; [exact H1|].
  induction xs as [|x xs IH]; intros c c' ps Hrun; simpl in Hrun.
  - inversion Hrun; subst. split; [auto|]. split; [reflexivity|].
    split; [constructor|simpl; lia].
  - destruct (Lookup x c) as [p1 c1] eqn:Hl.
    destruct (LookupAll xs c1) as [ps' c2] eqn:Hr. inversion Hrun; subst; clear Hrun.
    destruct (H1 x c c1 p1 Hl) as (K1 & [v1 V1] & L1).
    destruct (IH c1 c' ps' Hr) as (K2 & E2 & V2 & L2).
    split; [auto|]. split; [simpl; lia|]. split; [|simpl; lia].
    constructor; [|exact V2]. exists v1. auto.
Qed.

(** X24.  A lookup repeated on the cache it produced is a hit.  With value
    equality symmetric and transitive and the hash agreeing on equal values,
    on a cache that holds at most one instance per value: looking up again a
    transform that equals itself returns the same handle and leaves the cache
    as it is. *)
Theorem Lookup_idempotent (x : pbrt.Transform) (c c' : t) (p : Ptr) :
  eq_hash_compatible -> interned c -> t_eqb x x = true ->
  Lookup x c = (p, c') -> Lookup x c' = (p, c').
Proof.
  intros Hc Hint Hxx Hl.
  destruct (Lookup_spec x c c' p Hc Hint Hl) as (Hint' & _ & Hres).
  destruct (Hres x Hxx) as (v & Hv & Hvx).
  exact (Lookup_hit x c' p v Hc Hint' Hv Hvx).
Qed.

(** X25.  A transform that does not equal itself (a matrix holding a NaN)
    is never found.  With value equality symmetric and transitive, every
    lookup of such a transform, on any cache, allocates a new copy at the end
    of the arena: the cache grows with each lookup of it. *)
Theorem Lookup_irreflexive_allocates (x : pbrt.Transform) (c : t) :
  eq_hash_compatible -> t_eqb x x = false ->
  Lookup x c = (length (arena c), MkCache (arena c ++ [x])).
Proof.
  intros (Hsym & Htrans & _) Hxx.
  destruct (Lookup_cases x c) as [(q & v & Hq & Hv & He) | [Hq _]]; [|exact Hq].
  rewrite (Htrans x v x (Hsym v x He) He) in Hxx. discriminate.
Qed.

End CacheMore.

Lemma SymNaN_eq_hash_compatible : TransformCache.eq_hash_compatible (L := SymNaN.lib).
Proof.
  unfold TransformCache.eq_hash_compatible. simpl. unfold SymNaN.eqb.
  split; [|split].
  - intros a b H. apply andb_true_iff in H. destruct H as [Hn H].
    apply Sym_eqb_eq in H. subst b. rewrite Hn. simpl. now apply Sym_eqb_eq.
  - intros a b c H1 H2. apply andb_true_iff in H1, H2.
    destruct H1 as [Hn H1], H2 as [_ H2].
    apply Sym_eqb_eq in H1, H2. subst. rewrite Hn. simpl. now apply Sym_eqb_eq.
  - intros a b H. apply andb_true_iff in H. destruct H as [_ H].
    apply Sym_eqb_eq in H. now subst.
Qed.

Lemma Lookup_keeps_handles_witness :
  valid (L := Sym.lib) (TransformCache.MkCache [Sym.Id; Sym.Trans 1 0 0]) 1 /\
  Forall (valid (L := Sym.lib) (TransformCache.MkCache [Sym.Id; Sym.Trans 1 0 0])) [1; 0; 1]%nat.
Proof.
  split.
  - refine (proj1 (proj2 (proj1 (Lookup_keeps_handles (L := Sym.lib))
              (Sym.Trans 1 0 0) (TransformCache.MkCache [Sym.Id]) _ _ _))).
    vm_compute. reflexivity.
  - refine (proj1 (proj2 (proj2 (proj2 (Lookup_keeps_handles (L := Sym.lib))
              [Sym.Trans 1 0 0; Sym.Id; Sym.Trans 1 0 0] (TransformCache.MkCache [Sym.Id])
              _ _ _)))).
    vm_compute. reflexivity.
Defined.

Lemma Lookup_idempotent_witness :
  TransformCache.Lookup (L := Sym.lib) (Sym.Trans 1 0 0)
    (TransformCache.MkCache [Sym.Id; Sym.Trans 1 0 0])
  = (1%nat, TransformCache.MkCache [Sym.Id; Sym.Trans 1 0 0]).
Proof.
  refine (Lookup_idempotent (L := Sym.lib) (Sym.Trans 1 0 0)
            (TransformCache.MkCache [Sym.Id]) _ 1%nat Sym_eq_hash_compatible _ _ _).
  - intros i j a b Hi Hj _. destruct i as [|i]; [|discriminate Hi].
    destruct j as [|j]; [reflexivity|discriminate Hj].
  - reflexivity.
  - vm_compute. reflexivity.
Defined.

Lemma Lookup_irreflexive_allocates_witness :
  TransformCache.Lookup (L := SymNaN.lib) (Sym.OfMatrix [])
    (TransformCache.MkCache (L := SymNaN.lib) [Sym.OfMatrix []])
  = (1%nat, TransformCache.MkCache (L := SymNaN.lib) [Sym.OfMatrix []; Sym.OfMatrix []]).
Proof.
  refine (Lookup_irreflexive_allocates (L := SymNaN.lib) (Sym.OfMatrix [])
            (TransformCache.MkCache (L := SymNaN.lib) [Sym.OfMatrix []]) SymNaN_eq_hash_compatible _).
  reflexivity.
Defined.
(** ** The options block and the shutter interval *)

Section Times.
Context `{L : PbrtLib}.

Lemma lookupCTMs_times (s s' : State) (a : AnimatedTransform) :
  lookupCTMs s = (a, s') -> (exists c, s' = set_transformCache c s) /\ times_of s a.
Proof.
  intros H. split; [exact (lookupCTMs_inv s s' a H)|].
  unfold lookupCTMs in H. destruct (lookup (CTM 0 s) s) as [p0 s0].
  destruct (lookup (CTM 1 s) s0) as [p1 s1]. inversion H; subst. split; reflexivity.
Qed.

Lemma step_media_flag (d : Directive) (s s' : State) (log : list Diagnostic) :
  currentApiState s <> Uninitialized -> step d s = Done s' log ->
  haveScatteringMedia s' = haveScatteringMedia s || is_medium_interface d.
Proof.
  intros Hinit Hstep. destruct d; unfold_directives.
  all: repeat case_match; simplify_eq; inv_lookups; fields; cbn [is_medium_interface];
    rewrite ?orb_false_r, ?orb_true_r; try reflexivity; congruence.
Qed.

(** X26.  The scattering-media flag is sticky and not scoped.  Over a run on
    an initialised scene the flag ends up set exactly when it was set before
    or the stream holds a MediumInterface directive: MediumInterface sets it
    in either block and for any medium names, and no AttributeEnd, ObjectEnd
    or other directive ever clears it, although the medium names themselves
    are restored with the graphics state. *)
Theorem haveScatteringMedia_sticky (ds : list Directive) (s s' : State)
    (log : list Diagnostic) :
  currentApiState s <> Uninitialized -> run ds s = Done s' log ->
  haveScatteringMedia s' = haveScatteringMedia s || existsb is_medium_interface ds.
Proof.
  revert s log. induction ds as [|d ds IH]; intros s log Hinit Hrun; simpl in Hrun.
  - inversion Hrun; subst. simpl. now rewrite orb_false_r.
  - apply and_then_Done in Hrun. destruct Hrun as (s1 & l1 & l2 & Hstep & Hrest & _).
    destruct (step_initialized d s s1 l1 Hinit Hstep) as [Hinit1 _].
    rewrite (IH s1 l2 Hinit1 Hrest), (step_media_flag d s s1 l1 Hinit Hstep).
    simpl. now rewrite orb_assoc.
Qed.

Lemma step_world_entities (d : Directive) (s s' : State) (log : list Diagnostic) :
  (currentApiState s = OptionsBlock -> no_world_entities s) /\ world_entities_timed s ->
  step d s = Done s' log ->
  (currentApiState s' = OptionsBlock -> no_world_entities s') /\ world_entities_timed s'.
Proof.
  intros [Hopt Ht] Hstep. destruct d; unfold_directives.
  all: repeat case_match; simplify_eq.
  all: repeat match goal with
       | H : lookupCTMs _ = (_, _) |- _ =>
         apply lookupCTMs_times in H; destruct H as [[? ->] ?]
       end; inv_lookups.
  all: unfold world_entities_timed, no_world_entities, times_of in *; fields.
  all: split; [intros Ho; fields; first [congruence | apply Hopt; congruence]|].
  all: try exact Ht.
  all: try (destruct (Hopt eq_refl) as (-> & _ & _ & -> & -> & -> & -> & -> & _);
            repeat split; first [apply Forall_nil_2 | apply map_Forall_empty]).
  all: destruct Ht as (T1 & T2 & T3 & T4 & T5 & T6).
  all: (split; [|split; [|split; [|split; [|split]]]]); try assumption.
  all: try (apply Forall_push_back; [assumption|]; simpl; auto).
  all: try (apply map_Forall_insert_2; [constructor | assumption]).
  all: apply map_Forall_alter; [assumption|]; intros [ss as_] Ha; cbn [fst snd] in *;
    first [assumption | apply Forall_push_back; [assumption|]; simpl; auto].
Qed.

(** X27.  The world-block entities share one shutter interval, and the
    options block declares none of them.  Over every run from the constructed
    scene: every light, texture, animated shape (top-level or in an instance
    definition) and animated instance carries in its animated transform the
    start and end times of the scene, which only TransformTimes, a directive
    of the options block, sets; and while the scene is in the options block it holds no
    light, area light, shape, instance, texture, instance definition or named
    material and no scope is open. *)
Theorem world_entities_share_times (ds : list Directive) (s : State) (log : list Diagnostic) :
  run ds GeneralScene = Done s log ->
  world_entities_timed s /\ (currentApiState s = OptionsBlock -> no_world_entities s).
Proof.
  assert (H : forall s s' log,
             (currentApiState s = OptionsBlock -> no_world_entities s) /\
             world_entities_timed s ->
             run ds s = Done s' log ->
             (currentApiState s' = OptionsBlock -> no_world_entities s') /\
             world_entities_timed s').
  { induction ds as [|d ds IH]; intros s0 s' log0 Hs Hrun; simpl in Hrun.
    - now inversion Hrun; subst.
    - apply and_then_Done in Hrun. destruct Hrun as (s1 & l1 & l2 & Hstep & Hrest & _).
      exact (IH s1 s' l2 (step_world_entities d s0 s1 l1 Hs Hstep) Hrest). }
  intros Hrun. destruct (H GeneralScene s log) as [H1 H2]; [|exact Hrun|auto].
  split.
  - intros _. repeat split.
  - repeat split; first [apply Forall_nil_2 | apply map_Forall_empty].
Qed.

Lemma step_areaLights_named (d : Directive) (s s' : State) (log : list Diagnostic) :
  Forall (fun e => e_name e <> EmptyString) (areaLights s) -> step d s = Done s' log ->
  Forall (fun e => e_name e <> EmptyString) (areaLights s').
Proof.
  intros H Hstep. destruct d; unfold_directives.
  all: repeat case_match; simplify_eq; inv_lookups; fields; try assumption.
  all: apply Forall_push_back; [assumption|]; cbn [e_name].
  all: match goal with
       | Hn : negb (String.eqb ?n _) = true |- _ =>
         apply negb_true_iff, String.eqb_neq in Hn; exact Hn
       end.
Qed.

(** X28.  Every area light of the scene has a name.  Over every run from
    the constructed scene no entity of the area-light list has the empty
    name: a Shape appends the pending area light only when its name is not
    empty, so AreaLightSource with the empty name declares nothing. *)
Theorem areaLights_named (ds : list Directive) (s : State) (log : list Diagnostic) :
  run ds GeneralScene = Done s log ->
  Forall (fun e => e_name e <> EmptyString) (areaLights s).
Proof.
  assert (H : forall (s s' : State) (log : list Diagnostic),
             Forall (fun e => e_name e <> EmptyString) (areaLights s) ->
             run ds s = Done s' log ->
             Forall (fun e => e_name e <> EmptyString) (areaLights s')).
  { induction ds as [|d ds IH]; intros s0 s' log0 Hs Hrun; simpl in Hrun.
    - now inversion Hrun; subst.
    - apply and_then_Done in Hrun. destruct Hrun as (s1 & l1 & l2 & Hstep & Hrest & _).
      exact (IH s1 s' l2 (step_areaLights_named d s0 s1 l1 Hs Hstep) Hrest). }
  intros Hrun. apply (H GeneralScene s log); [constructor|exact Hrun].
Qed.

End Times.

Lemma haveScatteringMedia_sticky_witness :
  haveScatteringMedia
    (state_of (run (L := Sym.lib)
                 [DAttributeBegin 2%nat; DMediumInterface "fog" "" 3%nat; DAttributeEnd 4%nat]
                 Sym.world) Sym.fresh)
  = haveScatteringMedia Sym.world
    || existsb is_medium_interface
         [DAttributeBegin (L := Sym.lib) 2%nat; DMediumInterface "fog" "" 3%nat;
          DAttributeEnd 4%nat].
Proof.
  refine (haveScatteringMedia_sticky (L := Sym.lib)
            [DAttributeBegin 2%nat; DMediumInterface "fog" "" 3%nat; DAttributeEnd 4%nat]
            Sym.world _ [] _ _).
  - vm_compute. discriminate.
  - apply finished_Done. vm_compute. reflexivity.
Defined.

Lemma world_entities_share_times_witness :
  world_entities_timed
    (state_of (run (L := Sym.lib)
                 [DTransformTimes 0%Z 2%Z 1%nat; DWorldBegin 2%nat;
                  DLightSource "point" [] 3%nat; DActiveTransformEndTime 4%nat;
                  DTranslate 1%Z 0%Z 0%Z 5%nat; DShape "sphere" [] 6%nat] Sym.fresh)
              Sym.fresh).
Proof.
  refine (proj1 (world_entities_share_times (L := Sym.lib)
            [DTransformTimes 0%Z 2%Z 1%nat; DWorldBegin 2%nat;
             DLightSource "point" [] 3%nat; DActiveTransformEndTime 4%nat;
             DTranslate 1%Z 0%Z 0%Z 5%nat; DShape "sphere" [] 6%nat] _ [] _)).
  apply finished_Done. vm_compute. reflexivity.
Defined.

Lemma areaLights_named_witness :
  Forall (fun e => e_name e <> EmptyString)
    (areaLights
       (state_of (run (L := Sym.lib)
                    [DWorldBegin 1%nat; DAreaLightSource "diffuse" [] 2%nat;
                     DShape "sphere" [] 3%nat; DAreaLightSource EmptyString [] 4%nat;
                     DShape "disk" [] 5%nat] Sym.fresh) Sym.fresh)).
Proof.
  refine (areaLights_named (L := Sym.lib)
            [DWorldBegin 1%nat; DAreaLightSource "diffuse" [] 2%nat;
             DShape "sphere" [] 3%nat; DAreaLightSource EmptyString [] 4%nat;
             DShape "disk" [] 5%nat] _ [] _).
  apply finished_Done. vm_compute. reflexivity.
Defined.
